(** * Bulldog Behavior Interpreter: a model of [src/index.tsx]

    The application is one React component.  Its state is the tuple of
    [useState] cells, its handlers are event callbacks, and everything
    else it touches belongs to the browser: [localStorage], [JSON],
    [FileReader], [URL.createObjectURL], the camera, the console and the
    inference endpoint.

    The development has three layers.
    - [Js]: the values of the language that the component manipulates:
      strings as sequences of UTF-16 code units, numbers as IEEE 754
      binary64 values, JSON values, [JSON.stringify] and [JSON.parse].
    - [Browser]: files, data URLs, object URLs, storage, camera tracks.
    - [App]: the component, handler by handler, as functions on an
      explicit state and an explicit outside world.

    The source file holds two revisions of the component.  The model
    follows the second one (live capture, audio), which is the one the
    specification describes; the only place where the first revision is
    consulted is the wording of the prompt. *)

From Stdlib Require Import ZArith NArith List Bool Lia String Ascii.
From Stdlib Require Import Decimal Floats.SpecFloat.
Import ListNotations.

(* ================================================================== *)
(** * Language values                                                  *)
(* ================================================================== *)

Module Js.

Open Scope N_scope.

(** ** Strings

    A string is a sequence of UTF-16 code units.  Code units are kept as
    natural numbers; no operation below depends on the bound 2^16, so the
    model covers every real string. *)

Definition jsstring := list N.

Definition lit (s : string) : jsstring :=
  List.map N_of_ascii (list_ascii_of_string s).

(** The same with every apostrophe turned into a double quote, to write
    JSON text down. *)
Definition json_text (s : string) : jsstring :=
  List.map (fun c => if c =? 39 then 34 else c) (lit s).

Fixpoint str_eqb (a b : jsstring) : bool :=
  match a, b with
  | [], [] => true
  | x :: a', y :: b' => (x =? y) && str_eqb a' b'
  | _, _ => false
  end.

(** [s.startsWith(p)] *)
Fixpoint startsWith (p s : jsstring) : bool :=
  match p, s with
  | [], _ => true
  | x :: p', y :: s' => (x =? y) && startsWith p' s'
  | _ :: _, [] => false
  end.

(** Characters with a role in JSON text. *)
Definition QUOTE : N := 34.
Definition BACKSLASH : N := 92.
Definition SLASH : N := 47.
Definition COMMA : N := 44.
Definition COLON : N := 58.
Definition LBRACKET : N := 91.
Definition RBRACKET : N := 93.
Definition LBRACE : N := 123.
Definition RBRACE : N := 125.
Definition MINUS : N := 45.
Definition PLUS : N := 43.
Definition DOT : N := 46.
Definition ZERO : N := 48.
Definition LOWER_E : N := 101.
Definition UPPER_E : N := 69.
Definition LOWER_U : N := 117.

Definition is_digit (c : N) : bool := (48 <=? c) && (c <=? 57).

(** Surrogate code units. *)
Definition is_high_surrogate (c : N) : bool := (55296 <=? c) && (c <=? 56319).
Definition is_low_surrogate (c : N) : bool := (56320 <=? c) && (c <=? 57343).

(** ** Decimal numerals *)

Fixpoint uint_digits (u : Decimal.uint) : jsstring :=
  match u with
  | Nil => []
  | D0 u => 48 :: uint_digits u
  | D1 u => 49 :: uint_digits u
  | D2 u => 50 :: uint_digits u
  | D3 u => 51 :: uint_digits u
  | D4 u => 52 :: uint_digits u
  | D5 u => 53 :: uint_digits u
  | D6 u => 54 :: uint_digits u
  | D7 u => 55 :: uint_digits u
  | D8 u => 56 :: uint_digits u
  | D9 u => 57 :: uint_digits u
  end.

(** The decimal numeral of a natural number, as [String(n)] prints it. *)
Definition decimal (n : N) : jsstring := uint_digits (N.to_uint n).

(** The value of a sequence of decimal digits; [None] when a character is
    not a digit or the sequence is empty. *)
Fixpoint digits_value_from (acc : N) (s : jsstring) : option N :=
  match s with
  | [] => Some acc
  | c :: r => if is_digit c then digits_value_from (10 * acc + (c - 48)) r
              else None
  end.

Definition digits_value (s : jsstring) : option N :=
  match s with
  | [] => None
  | _ => digits_value_from 0 s
  end.

(** The longest prefix of digits, and what follows it. *)
Fixpoint span_digits (s : jsstring) : jsstring * jsstring :=
  match s with
  | c :: r => if is_digit c
              then let '(d, r') := span_digits r in (c :: d, r')
              else ([], s)
  | [] => ([], [])
  end.

(** ** Numbers

    A number is an IEEE 754 binary64 value, in the representation of the
    standard library's specification of floating-point arithmetic. *)

Definition number := spec_float.

Definition prec : Z := 53.
Definition emax : Z := 1024.

Definition number_eqb (x y : number) : bool :=
  match x, y with
  | S754_zero a, S754_zero b => Bool.eqb a b
  | S754_infinity a, S754_infinity b => Bool.eqb a b
  | S754_nan, S754_nan => true
  | S754_finite a m e, S754_finite b m' e' =>
      Bool.eqb a b && Pos.eqb m m' && Z.eqb e e'
  | _, _ => false
  end.

(** The number nearest to [m * 10^e] (ties to even), with the sign
    [neg]: the value of a decimal literal.  The quotient of the two
    integers is rounded once, by the library's division. *)
Definition decimal_to_number (neg : bool) (m : N) (e : Z) : number :=
  match m with
  | N0 => S754_zero neg
  | Npos p =>
      match (Zpos p * 10 ^ Z.max e 0)%Z, (10 ^ Z.max (- e) 0)%Z with
      | Zpos num, Zpos den =>
          SFdiv prec emax (S754_finite neg num 0) (S754_finite false den 0)
      | _, _ => S754_nan
      end
  end.

(** *** Number literals of JSON text

    An optional minus sign; an integer part, which is a single zero or
    starts with a non-zero digit; an optional fraction, a dot followed by
    at least one digit; an optional exponent, [e] or [E], an optional
    sign and at least one digit. *)

Definition split_sign (s : jsstring) : bool * jsstring :=
  match s with
  | c :: r => if c =? MINUS then (true, r) else (false, s)
  | [] => (false, s)
  end.

Definition well_formed_int (d : jsstring) : bool :=
  match d with
  | [] => false
  | [_] => true
  | c :: _ => negb (c =? ZERO)
  end.

(** The fraction part: its digits ([[]] when absent) and the rest. *)
Definition split_fraction (s : jsstring) : option (jsstring * jsstring) :=
  match s with
  | c :: r =>
      if c =? DOT then
        match span_digits r with
        | ([], _) => None
        | (d, r') => Some (d, r')
        end
      else Some ([], s)
  | [] => Some ([], s)
  end.

(** The exponent part: its value (0 when absent) and the rest. *)
Definition split_exponent (s : jsstring) : option (Z * jsstring) :=
  match s with
  | c :: r =>
      if (c =? LOWER_E) || (c =? UPPER_E) then
        let '(neg, r1) :=
          match r with
          | sg :: r0 => if sg =? MINUS then (true, r0)
                        else if sg =? PLUS then (false, r0)
                        else (false, r)
          | [] => (false, r)
          end in
        match span_digits r1 with
        | (d, r2) =>
            match digits_value d with
            | Some v => Some (if neg then (- Z.of_N v)%Z else Z.of_N v, r2)
            | None => None
            end
        end
      else Some (0%Z, s)
  | [] => Some (0%Z, s)
  end.

(** The number denoted by a complete literal. *)
Definition number_of_literal (tok : jsstring) : option number :=
  let '(neg, r0) := split_sign tok in
  let '(ip, r1) := span_digits r0 in
  if well_formed_int ip then
    match split_fraction r1 with
    | Some (fp, r2) =>
        match split_exponent r2 with
        | Some (ex, []) =>
            match digits_value (ip ++ fp) with
            | Some m =>
                Some (decimal_to_number neg m
                        (ex - Z.of_nat (List.length fp))%Z)
            | None => None
            end
        | _ => None
        end
    | None => None
    end
  else None.

(** *** [Number::toString]

    For a finite non-zero [x] the digits are the shortest decimal [s]
    (with [k] digits) and exponent [n] such that [s * 10^(n-k)] reads
    back as [x]; among several the closest to [x], and the even one on a
    tie. *)

(** [n] such that [10^(n-1) <= a/b < 10^n], for positive [a] and [b]. *)
Definition decimal_magnitude (a b : Z) : Z :=
  if (b <=? a)%Z
  then Z.of_nat (List.length (decimal (Z.to_N (a / b))))
  else (1 - Z.of_nat (List.length (decimal (Z.to_N ((b + a - 1) / a - 1)))))%Z.

(** The candidate with [k] digits for [x = a/b] of magnitude [n], when
    one reads back as [x]. *)
Definition shortest_candidate (x : number) (a b n : Z) (k : nat)
  : option (N * Z) :=
  let p := (n - Z.of_nat k)%Z in
  let num := (a * 10 ^ Z.max (- p) 0)%Z in
  let den := (b * 10 ^ Z.max p 0)%Z in
  let lo := Z.to_N (num / den) in
  let hi := lo + 1 in
  let ok s := number_eqb (decimal_to_number false s p) x in
  match ok lo, ok hi with
  | true, false => Some (lo, p)
  | false, true => Some (hi, p)
  | true, true =>
      match (2 * num ?= (2 * Z.of_N lo + 1) * den)%Z with
      | Lt => Some (lo, p)
      | Gt => Some (hi, p)
      | Eq => if N.even lo then Some (lo, p) else Some (hi, p)
      end
  | false, false => None
  end.

Fixpoint shortest_from (x : number) (a b n : Z) (k : nat) (tries : nat)
  : N * Z :=
  match tries with
  | O => (Z.to_N (a * 10 ^ Z.max (Z.of_nat k - n) 0
                   / (b * 10 ^ Z.max (n - Z.of_nat k) 0)),
          (n - Z.of_nat k)%Z)
  | S t =>
      match shortest_candidate x a b n k with
      | Some r => r
      | None => shortest_from x a b n (S k) t
      end
  end.

Fixpoint strip_trailing_zeros (rev_digits : jsstring) : jsstring :=
  match rev_digits with
  | c :: r => if c =? ZERO then strip_trailing_zeros r else rev_digits
  | [] => []
  end.

Definition zeros (n : Z) : jsstring := List.repeat ZERO (Z.to_nat n).

(** The text of a positive finite number from its digits and its
    magnitude [n] (the steps of [Number::toString]). *)
Definition format_digits (ds : jsstring) (n : Z) : jsstring :=
  let k := Z.of_nat (List.length ds) in
  if ((k <=? n) && (n <=? 21))%Z then ds ++ zeros (n - k)
  else if ((0 <? n) && (n <=? 21))%Z then
    firstn (Z.to_nat n) ds ++ DOT :: skipn (Z.to_nat n) ds
  else if ((-6 <? n) && (n <=? 0))%Z then
    ZERO :: DOT :: zeros (- n) ++ ds
  else
    let e := (n - 1)%Z in
    let sign := if (e <? 0)%Z then MINUS else PLUS in
    let mant := match ds with
                | [d] => [d]
                | d :: r => d :: DOT :: r
                | [] => []
                end in
    mant ++ LOWER_E :: sign :: decimal (Z.to_N (Z.abs e)).

Definition positive_to_string (m : positive) (e : Z) : jsstring :=
  let a := (Zpos m * 2 ^ Z.max e 0)%Z in
  let b := (2 ^ Z.max (- e) 0)%Z in
  let n := decimal_magnitude a b in
  let '(s, p) := shortest_from (S754_finite false m e) a b n 1 17 in
  let all := decimal s in
  let ds := List.rev (strip_trailing_zeros (List.rev all)) in
  format_digits ds (p + Z.of_nat (List.length all)).

(** [String(x)] *)
Definition number_to_string (x : number) : jsstring :=
  match x with
  | S754_nan => lit "NaN"
  | S754_infinity false => lit "Infinity"
  | S754_infinity true => lit "-Infinity"
  | S754_zero _ => [ZERO]
  | S754_finite false m e => positive_to_string m e
  | S754_finite true m e => MINUS :: positive_to_string m e
  end.

(** ** JSON values

    What [JSON.parse] can return, which is also everything the component
    ever keeps in its history.  An object is its list of own properties
    in enumeration order. *)

#[local] Unset Elimination Schemes.

Inductive json : Type :=
| JNull
| JBool (b : bool)
| JNum (x : number)
| JStr (s : jsstring)
| JArr (items : list json)
| JObj (props : list (jsstring * json)).

#[local] Set Elimination Schemes.

(** *** Objects

    Own property keys enumerate array indices first, in ascending order,
    then the other keys in the order of their creation.  An array index
    is the canonical numeral of an integer below 2^32 - 1. *)

Definition array_index (k : jsstring) : option N :=
  match digits_value k with
  | Some n => if (n <=? 4294967294) && str_eqb (decimal n) k
              then Some n else None
  | None => None
  end.

(** Position of a key in the enumeration order: its index, or one value
    past every index. *)
Definition rank (k : jsstring) : N :=
  match array_index k with
  | Some n => n
  | None => 4294967295
  end.

Fixpoint has_key (k : jsstring) (o : list (jsstring * json)) : bool :=
  match o with
  | [] => false
  | (k', _) :: o' => str_eqb k k' || has_key k o'
  end.

Fixpoint replace_value (k : jsstring) (v : json) (o : list (jsstring * json))
  : list (jsstring * json) :=
  match o with
  | [] => []
  | (k', v') :: o' =>
      if str_eqb k k' then (k', v) :: o' else (k', v') :: replace_value k v o'
  end.

Fixpoint insert_key (k : jsstring) (v : json) (o : list (jsstring * json))
  : list (jsstring * json) :=
  match o with
  | [] => [(k, v)]
  | (k', v') :: o' =>
      if rank k <? rank k' then (k, v) :: o
      else (k', v') :: insert_key k v o'
  end.

(** [o[k] = v] on a plain object (CreateDataProperty). *)
Definition obj_set (o : list (jsstring * json)) (k : jsstring) (v : json)
  : list (jsstring * json) :=
  if has_key k o then replace_value k v o else insert_key k v o.

Definition obj_set_all (o kvs : list (jsstring * json))
  : list (jsstring * json) :=
  fold_left (fun acc kv => obj_set acc (fst kv) (snd kv)) kvs o.

Fixpoint obj_get (k : jsstring) (o : list (jsstring * json)) : option json :=
  match o with
  | [] => None
  | (k', v) :: o' => if str_eqb k k' then Some v else obj_get k o'
  end.

(** Property read [v.k]; [None] is [undefined]. *)
Definition get (k : jsstring) (v : json) : option json :=
  match v with
  | JObj o => obj_get k o
  | _ => None
  end.

Fixpoint indexed {A} (f : A -> json) (i : N) (l : list A)
  : list (jsstring * json) :=
  match l with
  | [] => []
  | x :: r => (decimal i, f x) :: indexed f (N.succ i) r
  end.

(** The own enumerable properties that an object spread [{...v}] copies:
    the properties of an object, the elements of an array under their
    indices, the code units of a string under theirs, nothing for
    [null], booleans and numbers. *)
Definition own_properties (v : json) : list (jsstring * json) :=
  match v with
  | JObj o => o
  | JArr l => indexed (fun x => x) 0 l
  | JStr s => indexed (fun c => JStr [c]) 0 s
  | _ => []
  end.

(** The values that an array spread [[...v]] takes from an iterable:
    the elements of an array, the code points of a string.  Anything
    else is not iterable ([None]: a TypeError is thrown). *)
Fixpoint code_points (s : jsstring) : list json :=
  match s with
  | [] => []
  | c :: r =>
      if is_high_surrogate c then
        match r with
        | d :: r' => if is_low_surrogate d
                     then JStr [c; d] :: code_points r'
                     else JStr [c] :: code_points r
        | [] => [JStr [c]]
        end
      else JStr [c] :: code_points r
  end.

Definition iterate (v : json) : option (list json) :=
  match v with
  | JArr l => Some l
  | JStr s => Some (code_points s)
  | _ => None
  end.

(** ** [JSON.stringify] *)

Definition hex_digit (d : N) : N := if d <? 10 then 48 + d else 87 + d.

(** [\uXXXX], lower-case *)
Definition unicode_escape (c : N) : jsstring :=
  [BACKSLASH; LOWER_U; hex_digit (c / 4096 mod 16); hex_digit (c / 256 mod 16);
   hex_digit (c / 16 mod 16); hex_digit (c mod 16)].

(** One code unit that is not the first half of a surrogate pair. *)
Definition escape_unit (c : N) : jsstring :=
  if c =? QUOTE then [BACKSLASH; QUOTE]
  else if c =? BACKSLASH then [BACKSLASH; BACKSLASH]
  else if c =? 8 then [BACKSLASH; 98]
  else if c =? 12 then [BACKSLASH; 102]
  else if c =? 10 then [BACKSLASH; 110]
  else if c =? 13 then [BACKSLASH; 114]
  else if c =? 9 then [BACKSLASH; 116]
  else if c <? 32 then unicode_escape c
  else if is_high_surrogate c || is_low_surrogate c then unicode_escape c
  else [c].

Fixpoint escape (s : jsstring) : jsstring :=
  match s with
  | [] => []
  | c :: r =>
      if is_high_surrogate c then
        match r with
        | d :: r' => if is_low_surrogate d then c :: d :: escape r'
                     else unicode_escape c ++ escape r
        | [] => unicode_escape c
        end
      else escape_unit c ++ escape r
  end.

(** QuoteJSONString *)
Definition quote (s : jsstring) : jsstring := QUOTE :: escape s ++ [QUOTE].

(** Finite numbers print as [String(x)], the others as [null]. *)
Definition number_to_json (x : number) : jsstring :=
  match x with
  | S754_nan | S754_infinity _ => lit "null"
  | _ => number_to_string x
  end.

Fixpoint join (parts : list jsstring) : jsstring :=
  match parts with
  | [] => []
  | [p] => p
  | p :: ps => p ++ COMMA :: join ps
  end.

Fixpoint stringify (v : json) : jsstring :=
  match v with
  | JNull => lit "null"
  | JBool true => lit "true"
  | JBool false => lit "false"
  | JNum x => number_to_json x
  | JStr s => quote s
  | JArr l => LBRACKET :: join (List.map stringify l) ++ [RBRACKET]
  | JObj o =>
      LBRACE
        :: join (List.map (fun kv => quote (fst kv) ++ COLON :: stringify (snd kv)) o)
        ++ [RBRACE]
  end.

(** ** [JSON.parse] *)

Inductive parsed (A : Type) : Type :=
| Parsed (a : A)
| SyntaxError
| OutOfFuel.
Arguments Parsed {A} a.
Arguments SyntaxError {A}.
Arguments OutOfFuel {A}.

Definition is_ws (c : N) : bool :=
  (c =? 32) || (c =? 9) || (c =? 10) || (c =? 13).

Fixpoint skip_ws (s : jsstring) : jsstring :=
  match s with
  | c :: r => if is_ws c then skip_ws r else s
  | [] => []
  end.

Definition hex_value (c : N) : option N :=
  if is_digit c then Some (c - 48)
  else if (97 <=? c) && (c <=? 102) then Some (c - 87)
  else if (65 <=? c) && (c <=? 70) then Some (c - 55)
  else None.

Definition hex4 (a b c d : N) : option N :=
  match hex_value a, hex_value b, hex_value c, hex_value d with
  | Some x, Some y, Some z, Some w => Some (4096 * x + 256 * y + 16 * z + w)
  | _, _, _, _ => None
  end.

Definition simple_escape (e : N) : option N :=
  if e =? QUOTE then Some QUOTE
  else if e =? BACKSLASH then Some BACKSLASH
  else if e =? SLASH then Some SLASH
  else if e =? 98 then Some 8
  else if e =? 102 then Some 12
  else if e =? 110 then Some 10
  else if e =? 114 then Some 13
  else if e =? 116 then Some 9
  else None.

Definition cons_fst {A B} (a : A) (r : option (list A * B))
  : option (list A * B) :=
  match r with
  | Some (l, b) => Some (a :: l, b)
  | None => None
  end.

(** The characters of a string literal after its opening quote, up to
    and including the closing one. *)
Fixpoint parse_chars (s : jsstring) : option (jsstring * jsstring) :=
  match s with
  | [] => None
  | c :: r =>
      if c =? QUOTE then Some ([], r)
      else if c =? BACKSLASH then
        match r with
        | [] => None
        | e :: r1 =>
            if e =? LOWER_U then
              match r1 with
              | h1 :: h2 :: h3 :: h4 :: r2 =>
                  match hex4 h1 h2 h3 h4 with
                  | Some u => cons_fst u (parse_chars r2)
                  | None => None
                  end
              | _ => None
              end
            else
              match simple_escape e with
              | Some u => cons_fst u (parse_chars r1)
              | None => None
              end
        end
      else if c <? 32 then None
      else cons_fst c (parse_chars r)
  end.

(** The characters that can make up a number literal.  None of them can
    follow a value in JSON text, so a literal is the longest run of
    them. *)
Definition is_number_char (c : N) : bool :=
  is_digit c || (c =? MINUS) || (c =? PLUS) || (c =? DOT)
  || (c =? LOWER_E) || (c =? UPPER_E).

Fixpoint span_number (s : jsstring) : jsstring * jsstring :=
  match s with
  | c :: r => if is_number_char c
              then let '(t, r') := span_number r in (c :: t, r')
              else ([], s)
  | [] => ([], [])
  end.

Definition parse_number (s : jsstring) : parsed (json * jsstring) :=
  let '(tok, r) := span_number s in
  match number_of_literal tok with
  | Some x => Parsed (JNum x, r)
  | None => SyntaxError
  end.

(** A keyword ([null], [true], [false]). *)
Definition parse_keyword (kw : jsstring) (v : json) (s : jsstring)
  : parsed (json * jsstring) :=
  if startsWith kw s then Parsed (v, skipn (List.length kw) s)
  else SyntaxError.

(** The parser proper.  [fuel] bounds the number of nested calls; see
    [JSON_parse] for the amount that always suffices. *)
Fixpoint parse_value (fuel : nat) (s : jsstring) : parsed (json * jsstring) :=
  match fuel with
  | O => OutOfFuel
  | S fuel' =>
      match skip_ws s with
      | [] => SyntaxError
      | c :: r =>
          if c =? LBRACKET then
            match skip_ws r with
            | c' :: r' =>
                if c' =? RBRACKET then Parsed (JArr [], r')
                else
                  match parse_elements fuel' r with
                  | Parsed (l, r2) => Parsed (JArr l, r2)
                  | SyntaxError => SyntaxError
                  | OutOfFuel => OutOfFuel
                  end
            | [] => SyntaxError
            end
          else if c =? LBRACE then
            match skip_ws r with
            | c' :: r' =>
                if c' =? RBRACE then Parsed (JObj [], r')
                else
                  match parse_members fuel' r with
                  | Parsed (m, r2) => Parsed (JObj (obj_set_all [] m), r2)
                  | SyntaxError => SyntaxError
                  | OutOfFuel => OutOfFuel
                  end
            | [] => SyntaxError
            end
          else if c =? QUOTE then
            match parse_chars r with
            | Some (str, r') => Parsed (JStr str, r')
            | None => SyntaxError
            end
          else if c =? 110 then parse_keyword (lit "null") JNull (c :: r)
          else if c =? 116 then parse_keyword (lit "true") (JBool true) (c :: r)
          else if c =? 102 then parse_keyword (lit "false") (JBool false) (c :: r)
          else parse_number (c :: r)
      end
  end

(** One or more values separated by commas, then the closing bracket. *)
with parse_elements (fuel : nat) (s : jsstring)
  : parsed (list json * jsstring) :=
  match fuel with
  | O => OutOfFuel
  | S fuel' =>
      match parse_value fuel' s with
      | Parsed (v, r) =>
          match skip_ws r with
          | c :: r' =>
              if c =? COMMA then
                match parse_elements fuel' r' with
                | Parsed (l, r2) => Parsed (v :: l, r2)
                | e => e
                end
              else if c =? RBRACKET then Parsed ([v], r')
              else SyntaxError
          | [] => SyntaxError
          end
      | SyntaxError => SyntaxError
      | OutOfFuel => OutOfFuel
      end
  end

(** One or more [key : value] members separated by commas, then the
    closing brace; the members are returned in the order of the text. *)
with parse_members (fuel : nat) (s : jsstring)
  : parsed (list (jsstring * json) * jsstring) :=
  match fuel with
  | O => OutOfFuel
  | S fuel' =>
      match skip_ws s with
      | c :: r =>
          if c =? QUOTE then
            match parse_chars r with
            | Some (k, r1) =>
                match skip_ws r1 with
                | c1 :: r2 =>
                    if c1 =? COLON then
                      match parse_value fuel' r2 with
                      | Parsed (v, r3) =>
                          match skip_ws r3 with
                          | c3 :: r4 =>
                              if c3 =? COMMA then
                                match parse_members fuel' r4 with
                                | Parsed (m, r5) => Parsed ((k, v) :: m, r5)
                                | e => e
                                end
                              else if c3 =? RBRACE then Parsed ([(k, v)], r4)
                              else SyntaxError
                          | [] => SyntaxError
                          end
                      | SyntaxError => SyntaxError
                      | OutOfFuel => OutOfFuel
                      end
                    else SyntaxError
                | [] => SyntaxError
                end
            | None => SyntaxError
            end
          else SyntaxError
      | [] => SyntaxError
      end
  end.

(** [JSON.parse(text)]: [None] is a thrown SyntaxError.  The fuel given
    here is never exhausted ([parse_value_fuel] below), so [None] never
    stands for anything else. *)
Definition JSON_parse (text : jsstring) : option json :=
  match parse_value (2 * List.length text + 1) text with
  | Parsed (v, r) =>
      match skip_ws r with
      | [] => Some v
      | _ :: _ => None
      end
  | _ => None
  end.

Definition JSON_stringify (v : json) : jsstring := stringify v.

(** ** Properties of values *)

(** The keys of an object are pairwise distinct and in enumeration
    order. *)
Fixpoint keys_ok (ks : list jsstring) : bool :=
  match ks with
  | [] => true
  | k :: r =>
      negb (existsb (str_eqb k) r)
      && forallb (fun k' => rank k <=? rank k') r
      && keys_ok r
  end.

(** Every object inside the value is one that the language can build. *)
Fixpoint well_formed (v : json) : bool :=
  match v with
  | JArr l => forallb well_formed l
  | JObj o =>
      keys_ok (List.map fst o) && forallb (fun kv => well_formed (snd kv)) o
  | _ => true
  end.

(** The number is one that JSON text can carry: its text is a number
    literal that reads back as the same number.  Infinities and NaN do
    not survive, they print as [null]; nor does negative zero, which
    prints as [0]. *)
Definition number_survives (x : number) : bool :=
  forallb is_number_char (number_to_json x)
  && match number_of_literal (number_to_json x) with
     | Some y => number_eqb x y
     | None => false
     end.

Fixpoint numbers_survive (v : json) : bool :=
  match v with
  | JNum x => number_survives x
  | JArr l => forallb numbers_survive l
  | JObj o => forallb (fun kv => numbers_survive (snd kv)) o
  | _ => true
  end.

(** What may follow a value in the text: no character of a number
    literal. *)
Definition ends_number (rest : jsstring) : bool :=
  match rest with
  | [] => true
  | c :: _ => negb (is_number_char c)
  end.

(** ** Properties of the parsers *)

(** The three parsers leave less text than they were given. *)
Definition shorter {A} (p : jsstring -> parsed (A * jsstring)) : Prop :=
  forall s a r, p s = Parsed (a, r) -> (List.length r < List.length s)%nat.

(** More fuel does not change an answer. *)
Definition stable {A} (p : nat -> jsstring -> parsed A) (fuel : nat) : Prop :=
  forall s fuel', (fuel <= fuel')%nat ->
    p fuel s <> OutOfFuel -> p fuel' s = p fuel s.

(** The text of a value starts with a character that is neither white
    space nor a closing bracket. *)
Definition starts_value (s : jsstring) : Prop :=
  exists c r, s = c :: r /\ is_ws c = false /\ c <> RBRACKET /\ c <> RBRACE.

(** What the round trip says about one value. *)
Definition reads_back (v : json) : Prop :=
  forall rest, ends_number rest = true ->
  exists fuel, forall fuel', (fuel <= fuel')%nat ->
    parse_value fuel' (stringify v ++ rest) = Parsed (v, rest).

End Js.

(* ================================================================== *)
(** * The browser                                                      *)
(* ================================================================== *)

Module Browser.

Import Js.
Open Scope N_scope.

(** ** Files, data URLs and object URLs *)

Record File := {
  name : jsstring;
  type : jsstring;
  bytes : list N
}.

Definition base64_char (i : N) : N :=
  if i <? 26 then 65 + i
  else if i <? 52 then 71 + i
  else if i <? 62 then i - 4
  else if i =? 62 then 43
  else 47.

Definition PAD : N := 61.

Fixpoint base64 (data : list N) : jsstring :=
  match data with
  | a :: b :: c :: r =>
      base64_char (a / 4)
        :: base64_char (a mod 4 * 16 + b / 16)
        :: base64_char (b mod 16 * 4 + c / 64)
        :: base64_char (c mod 64) :: base64 r
  | [a; b] =>
      [base64_char (a / 4); base64_char (a mod 4 * 16 + b / 16);
       base64_char (b mod 16 * 4); PAD]
  | [a] => [base64_char (a / 4); base64_char (a mod 4 * 16); PAD; PAD]
  | [] => []
  end.

(** The result of [FileReader.readAsDataURL]: the media type of the
    file (a generic one when the file has none), then the content in
    base64. *)
Definition data_url (f : File) : jsstring :=
  lit "data:"
    ++ (match type f with
        | [] => lit "application/octet-stream"
        | t => t
        end)
    ++ lit ";base64," ++ base64 (bytes f).

(** [URL.createObjectURL]: a [blob:] URL made of the origin of the page
    and an identifier chosen by the browser.  It names the blob held by
    the page; it does not contain the content. *)
Definition createObjectURL (origin uuid : jsstring) : jsstring :=
  lit "blob:" ++ origin ++ SLASH :: uuid.

(** [s.split(sep)] for a one-character separator *)
Fixpoint split (sep : N) (s : jsstring) : list jsstring :=
  match s with
  | [] => [[]]
  | c :: r =>
      if c =? sep then [] :: split sep r
      else match split sep r with
           | p :: ps => (c :: p) :: ps
           | [] => [[c]]
           end
  end.

(** ** What the page can reach *)

Inductive exn :=
| ReadError           (* FileReader reported an error *)
| RequestError        (* the inference client threw or its promise rejected *)
| JsonSyntaxError     (* JSON.parse *)
| NotIterable         (* TypeError of an array spread *)
| QuotaExceededError  (* localStorage.setItem *)
| SecurityError       (* localStorage is not accessible *)
| CameraError.        (* getUserMedia rejected *)

Inductive log_arg :=
| LogText (s : jsstring)
| LogExn (e : exn).

(** What [generateContent] is called with. *)
Record Request := {
  model : jsstring;
  systemInstruction : jsstring;
  inline_mimeType : jsstring;
  inline_data : option jsstring;
  text : jsstring;
  responseMimeType : jsstring;
  required : list jsstring
}.

Definition Storage := jsstring -> option jsstring.

Definition MediaStream := list N.

Record World := {
  localStorage : Storage;
  console : list (list log_arg);
  requests : list Request;
  live_tracks : list N
}.

Definition getItem (k : jsstring) (w : World) : option jsstring :=
  localStorage w k.

Definition setItem (k v : jsstring) (w : World) : World :=
  {| localStorage := fun k' => if str_eqb k' k then Some v else localStorage w k';
     console := console w;
     requests := requests w;
     live_tracks := live_tracks w |}.

Definition console_error (args : list log_arg) (w : World) : World :=
  {| localStorage := localStorage w;
     console := console w ++ [args];
     requests := requests w;
     live_tracks := live_tracks w |}.

Definition send (r : Request) (w : World) : World :=
  {| localStorage := localStorage w;
     console := console w;
     requests := requests w ++ [r];
     live_tracks := live_tracks w |}.

Definition is_track_of (ms : MediaStream) (t : N) : bool :=
  existsb (N.eqb t) ms.

(** [stream.getTracks().forEach(track => track.stop())] *)
Definition stop_tracks (ms : MediaStream) (w : World) : World :=
  {| localStorage := localStorage w;
     console := console w;
     requests := requests w;
     live_tracks := filter (fun t => negb (is_track_of ms t)) (live_tracks w) |}.

Definition start_tracks (ms : MediaStream) (w : World) : World :=
  {| localStorage := localStorage w;
     console := console w;
     requests := requests w;
     live_tracks := ms ++ live_tracks w |}.

End Browser.

(* ================================================================== *)
(** * The component                                                    *)
(* ================================================================== *)

Module App.

Import Js Browser.
Open Scope N_scope.

Inductive Mode := upload | live.

(** The [useState] cells of [App].  [result] and [history] hold whatever
    value was last put there: the type annotations of the source are
    erased at run time, and [JSON.parse] returns any JSON value.  [JNull]
    is [null]. *)
Record State := {
  file : option File;
  previewUrl : option jsstring;
  promptText : jsstring;
  loading : bool;
  error : option jsstring;
  result : json;
  history : json;
  mode : Mode;
  isCameraOn : bool;
  stream : option MediaStream
}.

Definition initial_state : State :=
  {| file := None; previewUrl := None; promptText := []; loading := false;
     error := None; result := JNull; history := JArr [];
     mode := upload; isCameraOn := false; stream := None |}.

(** The setters. *)
Definition setFile (x : option File) (st : State) : State :=
  {| file := x; previewUrl := previewUrl st; promptText := promptText st;
     loading := loading st; error := error st; result := result st;
     history := history st; mode := mode st; isCameraOn := isCameraOn st;
     stream := stream st |}.

Definition setPreviewUrl (x : option jsstring) (st : State) : State :=
  {| file := file st; previewUrl := x; promptText := promptText st;
     loading := loading st; error := error st; result := result st;
     history := history st; mode := mode st; isCameraOn := isCameraOn st;
     stream := stream st |}.

Definition setPromptText (x : jsstring) (st : State) : State :=
  {| file := file st; previewUrl := previewUrl st; promptText := x;
     loading := loading st; error := error st; result := result st;
     history := history st; mode := mode st; isCameraOn := isCameraOn st;
     stream := stream st |}.

Definition setLoading (x : bool) (st : State) : State :=
  {| file := file st; previewUrl := previewUrl st; promptText := promptText st;
     loading := x; error := error st; result := result st;
     history := history st; mode := mode st; isCameraOn := isCameraOn st;
     stream := stream st |}.

Definition setError (x : option jsstring) (st : State) : State :=
  {| file := file st; previewUrl := previewUrl st; promptText := promptText st;
     loading := loading st; error := x; result := result st;
     history := history st; mode := mode st; isCameraOn := isCameraOn st;
     stream := stream st |}.

Definition setResult (x : json) (st : State) : State :=
  {| file := file st; previewUrl := previewUrl st; promptText := promptText st;
     loading := loading st; error := error st; result := x;
     history := history st; mode := mode st; isCameraOn := isCameraOn st;
     stream := stream st |}.

Definition setHistory (x : json) (st : State) : State :=
  {| file := file st; previewUrl := previewUrl st; promptText := promptText st;
     loading := loading st; error := error st; result := result st;
     history := x; mode := mode st; isCameraOn := isCameraOn st;
     stream := stream st |}.

Definition setMode (x : Mode) (st : State) : State :=
  {| file := file st; previewUrl := previewUrl st; promptText := promptText st;
     loading := loading st; error := error st; result := result st;
     history := history st; mode := x; isCameraOn := isCameraOn st;
     stream := stream st |}.

Definition setIsCameraOn (x : bool) (st : State) : State :=
  {| file := file st; previewUrl := previewUrl st; promptText := promptText st;
     loading := loading st; error := error st; result := result st;
     history := history st; mode := mode st; isCameraOn := x;
     stream := stream st |}.

Definition setStream (x : option MediaStream) (st : State) : State :=
  {| file := file st; previewUrl := previewUrl st; promptText := promptText st;
     loading := loading st; error := error st; result := result st;
     history := history st; mode := mode st; isCameraOn := isCameraOn st;
     stream := x |}.

(** ** Constants of the source *)

Definition HISTORY_KEY : jsstring := lit "bulldogHistory".

Definition MSG_NO_FILE : jsstring :=
  lit "Please upload or capture a media file first.".

Definition MSG_FAILED : jsstring :=
  lit "Failed to analyze the media. Please try again.".

Definition MSG_CAMERA : jsstring :=
  lit "Could not access the camera. Please check permissions and try again.".

Definition MSG_LOAD : jsstring :=
  lit "Failed to load history from localStorage".

Definition MSG_CAMERA_LOG : jsstring := lit "Error accessing camera:".

Definition MODEL : jsstring := lit "gemini-2.5-flash".

Definition SYSTEM_INSTRUCTION : jsstring :=
  lit "You are a specialized bulldog behavior expert. Analyze the provided image, video, or audio and text to identify bulldog behaviors. Provide a concise, plain-language explanation and a simple, actionable tip for the owner. Your response must be in JSON format.".

Definition REQUIRED : list jsstring :=
  [lit "behavior"; lit "explanation"; lit "tip"].

Definition HISTORY_LIMIT : nat := 10.

(** ** Utility: [fileToBase64]

    The promise rejects when the reader reports an error ([inl]);
    otherwise it resolves with the second piece of the data URL cut at
    its commas, [undefined] ([None]) if there is no second piece. *)
Definition fileToBase64 (reader_ok : bool) (f : File)
  : exn + option jsstring :=
  if reader_ok then inr (nth_error (split COMMA (data_url f)) 1)
  else inl ReadError.

(** ** Startup: the effect that loads the history *)

Definition loadHistory (readable : bool) (w : World) (st : State)
  : World * State :=
  if readable then
    match getItem HISTORY_KEY w with
    | Some (c :: r) =>
        match JSON_parse (c :: r) with
        | Some v => (w, setHistory v st)
        | None =>
            (console_error [LogText MSG_LOAD; LogExn JsonSyntaxError] w, st)
        end
    | Some [] => (w, st)
    | None => (w, st)
    end
  else (console_error [LogText MSG_LOAD; LogExn SecurityError] w, st).

(** The first render and its effects. *)
Definition startup (readable : bool) (w : World) : World * State :=
  loadHistory readable w initial_state.

(** ** Camera handlers

    The second effect of the component stops the tracks of a stream when
    the [stream] cell changes or the component unmounts.  Here a handler
    runs from its call to the end of its callbacks in one step, reading
    and writing the same cells; every handler that clears the [stream]
    cell has stopped the tracks itself, and the cell is only set when
    the camera flag is down, so the effect has nothing to stop.  Module
    [Async] has the effect, the closures and the waiting. *)

Definition handleStopCamera (w : World) (st : State) : World * State :=
  let w' := match stream st with
            | Some ms => stop_tracks ms w
            | None => w
            end in
  (w', setStream None (setIsCameraOn false st)).

(** [granted] is the outcome of [getUserMedia]: a stream, or [None] when
    the promise rejects. *)
Definition handleStartCamera (granted : option MediaStream)
  (w : World) (st : State) : World * State :=
  if isCameraOn st then (w, st)
  else
    match granted with
    | Some ms =>
        (start_tracks ms w,
         setError None (setIsCameraOn true (setStream (Some ms) st)))
    | None =>
        (console_error [LogText MSG_CAMERA_LOG; LogExn CameraError] w,
         setError (Some MSG_CAMERA) st)
    end.

(** The video and canvas elements are rendered, and so their refs are
    set, exactly in live mode with the camera on. *)
Definition refs_mounted (st : State) : bool :=
  match mode st with
  | live => isCameraOn st
  | upload => false
  end.

(** What the browser contributes to a capture: whether the canvas gives
    a 2D context, the blob that [toBlob] hands to its callback ([None]
    is [null]), the clock, and the identifier of the object URL. *)
Record CaptureEnv := {
  context2d : bool;
  blob : option (list N);
  now : N;
  capture_origin : jsstring;
  capture_uuid : jsstring
}.

Definition capturedFile (env : CaptureEnv) (b : list N) : File :=
  {| name := lit "capture-" ++ decimal (now env) ++ lit ".jpg";
     type := lit "image/jpeg";
     bytes := b |}.

(** The handler stops the camera before it returns; the callback of
    [toBlob] runs afterwards. *)
Definition handleCapturePhoto (env : CaptureEnv) (w : World) (st : State)
  : World * State :=
  let '(w1, st1) := handleStopCamera w st in
  if refs_mounted st && context2d env then
    match blob env with
    | Some b =>
        let capturedFile := capturedFile env b in
        (w1,
         setMode upload
           (setError None
              (setResult JNull
                 (setPreviewUrl
                    (Some (createObjectURL (capture_origin env) (capture_uuid env)))
                    (setFile (Some capturedFile) st1)))))
    | None => (w1, st1)
    end
  else (w1, st1).

(** [selected] is [event.target.files?.[0]]. *)
Definition handleFileChange (selected : option File) (origin uuid : jsstring)
  (w : World) (st : State) : World * State :=
  let '(w1, st1) := handleStopCamera w st in
  match selected with
  | Some selectedFile =>
      (w1,
       setError None
         (setResult JNull
            (setPreviewUrl (Some (createObjectURL origin uuid))
               (setFile (Some selectedFile) st1))))
  | None => (w1, st1)
  end.

Definition handleModeChange (newMode : Mode) (w : World) (st : State)
  : World * State :=
  let st1 := setMode newMode st in
  match newMode with
  | upload => handleStopCamera w st1
  | live => (w, st1)
  end.

(** ** [handleAnalyze] *)

(** What the outside contributes to one analysis. *)
Record AnalyzeEnv := {
  client_ok : bool;           (* the client constructor returns *)
  reader_ok : bool;           (* the reader loads the file *)
  respond : Request -> option (option jsstring);
                              (* [None]: the call rejects;
                                 [Some t]: [response.text] is [t],
                                 [undefined] when [t] is [None] *)
  now_iso : jsstring;         (* new Date().toISOString() *)
  now_locale : jsstring;      (* new Date().toLocaleString() *)
  storage_accepts : jsstring -> bool
                              (* [false]: setItem throws *)
}.

(** The text part of the user turn. *)
Definition contents (promptText : jsstring) : jsstring :=
  lit "Analyze the bulldog's behavior in this media. Additional context from the owner: "
    ++ QUOTE
    :: (match promptText with
        | [] => lit "None"
        | _ => promptText
        end)
    ++ QUOTE :: lit ".".

Definition request (f : File) (base64Data : option jsstring)
  (promptText : jsstring) : Request :=
  {| model := MODEL;
     systemInstruction := SYSTEM_INSTRUCTION;
     inline_mimeType := type f;
     inline_data := base64Data;
     text := contents promptText;
     responseMimeType := lit "application/json";
     required := REQUIRED |}.

(** The request of an analysis of [f] whose reader has loaded the file. *)
Definition request_for (f : File) (st : State) : Request :=
  request f (nth_error (split COMMA (data_url f)) 1) (promptText st).

(** [JSON.parse(response.text)]; an [undefined] argument is converted to
    the string [undefined] first. *)
Definition parse_response (t : option jsstring) : option json :=
  JSON_parse (match t with
              | Some s => s
              | None => lit "undefined"
              end).

Definition nullable (s : option jsstring) : json :=
  match s with
  | Some x => JStr x
  | None => JNull
  end.

Definition newHistoryItem (analysisResult : json) (id timestamp : jsstring)
  (previewUrl : option jsstring) (file_type promptText : jsstring) : json :=
  JObj
    (obj_set_all (obj_set_all [] (own_properties analysisResult))
       [(lit "id", JStr id);
        (lit "timestamp", JStr timestamp);
        (lit "file",
         JObj (obj_set_all []
                 [(lit "dataUrl", nullable previewUrl);
                  (lit "type", JStr file_type)]));
        (lit "prompt", JStr promptText)]).

(** How the [try] block ends. *)
Inductive completion :=
| Normal (w : World) (st : State)
| Thrown (e : exn) (w : World) (st : State).

(** The [try] block.  [st0] is the state of the render that created the
    handler: the values of [file], [previewUrl], [promptText] and
    [history] are read from it.  [st] is the state being updated. *)
Definition analyze (env : AnalyzeEnv) (f : File) (st0 : State)
  (w : World) (st : State) : completion :=
  if client_ok env then
    match fileToBase64 (reader_ok env) f with
    | inl e => Thrown e w st
    | inr base64Data =>
        let req := request f base64Data (promptText st0) in
        let w1 := send req w in
        match respond env req with
        | None => Thrown RequestError w1 st
        | Some response_text =>
            match parse_response response_text with
            | None => Thrown JsonSyntaxError w1 st
            | Some analysisResult =>
                let st1 := setResult analysisResult st in
                let newHistoryItem :=
                  newHistoryItem analysisResult (now_iso env) (now_locale env)
                    (previewUrl st0) (type f) (promptText st0) in
                match iterate (history st0) with
                | None => Thrown NotIterable w1 st1
                | Some older =>
                    let updatedHistory :=
                      JArr (firstn HISTORY_LIMIT (newHistoryItem :: older)) in
                    let st2 := setHistory updatedHistory st1 in
                    let snapshot := JSON_stringify updatedHistory in
                    if storage_accepts env snapshot
                    then Normal (setItem HISTORY_KEY snapshot w1) st2
                    else Thrown QuotaExceededError w1 st2
                end
            end
        end
    end
  else Thrown RequestError w st.

Definition handleAnalyze (env : AnalyzeEnv) (w : World) (st : State)
  : World * State :=
  match file st with
  | None => (w, setError (Some MSG_NO_FILE) st)
  | Some f =>
      let st1 := setResult JNull (setError None (setLoading true st)) in
      let '(w2, st2) :=
        match analyze env f st w st1 with
        | Normal w' st' => (w', st')
        | Thrown e w' st' =>
            (console_error [LogExn e] w', setError (Some MSG_FAILED) st')
        end in
      (w2, setLoading false st2)
  end.

(** The analysis ran to the end of its [try] block. *)
Definition succeeds (env : AnalyzeEnv) (w : World) (st : State) : Prop :=
  exists f w' st',
    file st = Some f /\
    analyze env f st w (setResult JNull (setError None (setLoading true st)))
      = Normal w' st'.

(** ** The first revision of the source

    It differs from the second in the wording of the prompt. *)
Definition contents_rev1 (promptText : jsstring) : jsstring :=
  lit "Analyze the bulldog's behavior in this image/video. Additional context from the owner: "
    ++ QUOTE
    :: (match promptText with
        | [] => lit "None"
        | _ => promptText
        end)
    ++ QUOTE :: lit ".".

(** ** Runs of the component

    An event is one handler call together with what the outside
    contributes to it.  The analyze button is disabled while a request
    is pending, and no other handler touches the history or the storage,
    so an analysis is taken as one step here; module [Async] takes it
    apart. *)
Inductive event :=
| EFileChange (selected : option File) (origin uuid : jsstring)
| EPrompt (value : jsstring)
| EAnalyze (env : AnalyzeEnv)
| EModeChange (newMode : Mode)
| EStartCamera (granted : option MediaStream)
| EStopCamera
| ECapturePhoto (env : CaptureEnv).

Definition handle (ev : event) (w : World) (st : State) : World * State :=
  match ev with
  | EFileChange selected origin uuid => handleFileChange selected origin uuid w st
  | EPrompt value => (w, setPromptText value st)
  | EAnalyze env => handleAnalyze env w st
  | EModeChange newMode => handleModeChange newMode w st
  | EStartCamera granted => handleStartCamera granted w st
  | EStopCamera => handleStopCamera w st
  | ECapturePhoto env => handleCapturePhoto env w st
  end.

Definition run (evs : list event) (ws : World * State) : World * State :=
  fold_left (fun ws ev => handle ev (fst ws) (snd ws)) evs ws.

Definition is_analysis (ev : event) : bool :=
  match ev with
  | EAnalyze _ => true
  | _ => false
  end.

(** The snapshot kept under the history key, parsed. *)
Definition persisted_history (w : World) : option json :=
  match getItem HISTORY_KEY w with
  | Some snapshot => JSON_parse snapshot
  | None => None
  end.


(** Every analysis of a sequence succeeds, each one started in the
    world and state that the one before has left. *)
Fixpoint each_succeeds (envs : list AnalyzeEnv) (ws : World * State) : Prop :=
  match envs with
  | [] => True
  | env :: rest =>
      succeeds env (fst ws) (snd ws)
      /\ each_succeeds rest (handleAnalyze env (fst ws) (snd ws))
  end.

(** ** What is rendered

    The elements that depend on the media: the one [renderMedia]
    returns, the content of the upload area, and whether the analyze
    button is disabled. *)

Inductive element :=
| img (src alt : jsstring) (className : option jsstring)
| video (src : jsstring) (className : option jsstring)
| audio (src : jsstring) (className : option jsstring)
| AudioIcon.

(** [renderMedia({dataUrl, type}, alt, className, inHistory)]; [None] is
    [null]. *)
Definition renderMedia (dataUrl type alt : jsstring)
  (className : option jsstring) (inHistory : bool) : option element :=
  if startsWith (lit "image/") type then Some (img dataUrl alt className)
  else if startsWith (lit "video/") type then Some (video dataUrl className)
  else if startsWith (lit "audio/") type then
    if inHistory then Some AudioIcon else Some (audio dataUrl className)
  else None.

Inductive upload_area :=
| Preview (media : option element)
| Instructions.

(** The child of the upload area: the preview when there are a
    (non-empty) preview URL and a file, the instructions otherwise. *)
Definition uploadArea (st : State) : upload_area :=
  match previewUrl st, file st with
  | Some (c :: url), Some f =>
      Preview (renderMedia (c :: url) (type f) (lit "Bulldog preview")
                 (Some (lit "preview-content")) false)
  | _, _ => Instructions
  end.

(** [disabled: loading || !file] *)
Definition analyzeDisabled (st : State) : bool :=
  loading st || match file st with
                | Some _ => false
                | None => true
                end.

(** What the media section shows under the mode switcher.  In upload
    mode it is the file input with the upload area; in live mode there
    is no upload area: the section shows the start button while the
    camera is off, and the video with the capture button while it is
    on. *)
Inductive media_section :=
| UploadArea (child : upload_area)
| StartCameraButton
| LiveVideo.

Definition mediaSection (st : State) : media_section :=
  match mode st with
  | upload => UploadArea (uploadArea st)
  | live => if isCameraOn st then LiveVideo else StartCameraButton
  end.

End App.

(* ================================================================== *)
(** * The first revision of the component                              *)
(* ================================================================== *)

(** The first revision has no camera and no audio.  Its state is the
    state of the second one in which [mode], [isCameraOn] and [stream]
    are never touched. *)
Module Rev1.

Import Js Browser App.
Open Scope N_scope.

Definition MSG_NO_FILE : jsstring :=
  lit "Please upload a photo or video first.".

Definition SYSTEM_INSTRUCTION : jsstring :=
  lit "You are a specialized bulldog behavior expert. Analyze the provided image or video and text to identify bulldog behaviors. Provide a concise, plain-language explanation and a simple, actionable tip for the owner. Your response must be in JSON format.".

Definition handleFileChange (selected : option File) (origin uuid : jsstring)
  (w : World) (st : State) : World * State :=
  match selected with
  | Some selectedFile =>
      (w,
       setError None
         (setResult JNull
            (setPreviewUrl (Some (createObjectURL origin uuid))
               (setFile (Some selectedFile) st))))
  | None => (w, st)
  end.

Definition request (f : File) (base64Data : option jsstring)
  (promptText : jsstring) : Request :=
  {| model := MODEL;
     systemInstruction := SYSTEM_INSTRUCTION;
     inline_mimeType := type f;
     inline_data := base64Data;
     text := contents_rev1 promptText;
     responseMimeType := lit "application/json";
     required := REQUIRED |}.

Definition analyze (env : AnalyzeEnv) (f : File) (st0 : State)
  (w : World) (st : State) : completion :=
  if client_ok env then
    match fileToBase64 (reader_ok env) f with
    | inl e => Thrown e w st
    | inr base64Data =>
        let req := request f base64Data (promptText st0) in
        let w1 := send req w in
        match respond env req with
        | None => Thrown RequestError w1 st
        | Some response_text =>
            match parse_response response_text with
            | None => Thrown JsonSyntaxError w1 st
            | Some analysisResult =>
                let st1 := setResult analysisResult st in
                let newHistoryItem :=
                  newHistoryItem analysisResult (now_iso env) (now_locale env)
                    (previewUrl st0) (type f) (promptText st0) in
                match iterate (history st0) with
                | None => Thrown NotIterable w1 st1
                | Some older =>
                    let updatedHistory :=
                      JArr (firstn HISTORY_LIMIT (newHistoryItem :: older)) in
                    let st2 := setHistory updatedHistory st1 in
                    let snapshot := JSON_stringify updatedHistory in
                    if storage_accepts env snapshot
                    then Normal (setItem HISTORY_KEY snapshot w1) st2
                    else Thrown QuotaExceededError w1 st2
                end
            end
        end
    end
  else Thrown RequestError w st.

Definition handleAnalyze (env : AnalyzeEnv) (w : World) (st : State)
  : World * State :=
  match file st with
  | None => (w, setError (Some MSG_NO_FILE) st)
  | Some f =>
      let st1 := setResult JNull (setError None (setLoading true st)) in
      let '(w2, st2) :=
        match analyze env f st w st1 with
        | Normal w' st' => (w', st')
        | Thrown e w' st' =>
            (console_error [LogExn e] w', setError (Some App.MSG_FAILED) st')
        end in
      (w2, setLoading false st2)
  end.

(** [renderMedia(file, alt, className)] *)
Definition renderMedia (dataUrl type alt : jsstring)
  (className : option jsstring) : option element :=
  if startsWith (lit "image/") type then Some (img dataUrl alt className)
  else if startsWith (lit "video/") type then Some (video dataUrl className)
  else None.

End Rev1.

(* ================================================================== *)
(** * Renders, closures and callbacks                                  *)
(* ================================================================== *)

(** The handlers are closures of a render: they read the cells as that
    render saw them, and the values they set are seen from the next
    render on.  [handleAnalyze] and [handleStartCamera] return at their
    first [await] and continue when the promise settles, and the
    callback of [toBlob] runs after [handleCapturePhoto] has returned;
    other events are handled in between.  This module follows the
    source at that grain: it keeps the state of the last render beside
    the cells, splits the three handlers where they wait, and has the
    effect that stops the tracks of a stream once the [stream] cell has
    changed from one render to the next.  A render shows every update
    made so far. *)

Module Async.

Import Js Browser App.
Open Scope N_scope.

(** A handler that waits.  [st0] is the state of the render whose
    closure waits; what the outside will contribute is carried along. *)
Inductive task :=
  (* handleAnalyze at: await fileToBase64(file) *)
| ReadingFile (env : AnalyzeEnv) (st0 : State) (f : File)
  (* handleAnalyze at: await ai.models.generateContent, request sent *)
| Requesting (env : AnalyzeEnv) (st0 : State) (f : File) (req : Request)
  (* handleStartCamera at: await getUserMedia *)
| AskingCamera (granted : option MediaStream)
  (* canvas.toBlob before it calls back *)
| Encoding (env : CaptureEnv).

Record Page := {
  shown : State;       (* the cells as the last render saw them *)
  cells : State;       (* the cells with every update made since *)
  tasks : list task    (* the handlers that wait, oldest first *)
}.

(** A page that has been rendered and waits for nothing. *)
Definition quiet (st : State) : Page :=
  {| shown := st; cells := st; tasks := [] |}.

Definition with_cells (st : State) (pg : Page) : Page :=
  {| shown := shown pg; cells := st; tasks := tasks pg |}.

Definition waiting (t : task) (st : State) (pg : Page) : Page :=
  {| shown := shown pg; cells := st; tasks := tasks pg ++ [t] |}.

(** ** The handlers, as closures of the render that saw [st0] *)

Definition handleStopCamera (st0 : State) (w : World) (st : State)
  : World * State :=
  let w' := match stream st0 with
            | Some ms => stop_tracks ms w
            | None => w
            end in
  (w', setStream None (setIsCameraOn false st)).

(** Up to the [await]: nothing is set before the promise settles. *)
Definition handleStartCamera (granted : option MediaStream)
  (w : World) (pg : Page) : World * Page :=
  if isCameraOn (shown pg) then (w, pg)
  else (w, waiting (AskingCamera granted) (cells pg) pg).

(** After the [await].  The tracks of a granted stream are live from
    the moment the promise resolves.  The assignment of the stream to
    the video element, when that is mounted, changes no cell. *)
Definition cameraAnswered (granted : option MediaStream)
  (w : World) (st : State) : World * State :=
  match granted with
  | Some ms =>
      (start_tracks ms w,
       setError None (setIsCameraOn true (setStream (Some ms) st)))
  | None =>
      (console_error [LogText MSG_CAMERA_LOG; LogExn CameraError] w,
       setError (Some MSG_CAMERA) st)
  end.

(** The handler asks for the blob when the elements and the context
    are there, and stops the camera before it returns. *)
Definition handleCapturePhoto (env : CaptureEnv) (w : World) (pg : Page)
  : World * Page :=
  let '(w1, st1) := handleStopCamera (shown pg) w (cells pg) in
  if refs_mounted (shown pg) && context2d env
  then (w1, waiting (Encoding env) st1 pg)
  else (w1, with_cells st1 pg).

(** The callback of [toBlob]. *)
Definition blobReady (env : CaptureEnv) (st : State) : State :=
  match blob env with
  | Some b =>
      let capturedFile := capturedFile env b in
      setMode upload
        (setError None
           (setResult JNull
              (setPreviewUrl
                 (Some (createObjectURL (capture_origin env) (capture_uuid env)))
                 (setFile (Some capturedFile) st))))
  | None => st
  end.

Definition handleFileChange (st0 : State) (selected : option File)
  (origin uuid : jsstring) (w : World) (st : State) : World * State :=
  let '(w1, st1) := handleStopCamera st0 w st in
  match selected with
  | Some selectedFile =>
      (w1,
       setError None
         (setResult JNull
            (setPreviewUrl (Some (createObjectURL origin uuid))
               (setFile (Some selectedFile) st1))))
  | None => (w1, st1)
  end.

Definition handleModeChange (st0 : State) (newMode : Mode) (w : World)
  (st : State) : World * State :=
  let st1 := setMode newMode st in
  match newMode with
  | upload => handleStopCamera st0 w st1
  | live => (w, st1)
  end.

(** The [catch] and [finally] blocks of [handleAnalyze]. *)
Definition finish (c : completion) : World * State :=
  match c with
  | Normal w st => (w, setLoading false st)
  | Thrown e w st =>
      (console_error [LogExn e] w,
       setLoading false (setError (Some MSG_FAILED) st))
  end.

(** [handleAnalyze] up to its first [await].  A client constructor that
    throws is caught before the handler returns. *)
Definition handleAnalyze (env : AnalyzeEnv) (w : World) (pg : Page)
  : World * Page :=
  match file (shown pg) with
  | None => (w, with_cells (setError (Some MSG_NO_FILE) (cells pg)) pg)
  | Some f =>
      let st1 := setResult JNull (setError None (setLoading true (cells pg))) in
      if client_ok env
      then (w, waiting (ReadingFile env (shown pg) f) st1 pg)
      else
        let '(w', st') := finish (Thrown RequestError w st1) in
        (w', with_cells st' pg)
  end.

(** From the answer of the endpoint to the end of the [try] block. *)
Definition afterResponse (env : AnalyzeEnv) (f : File) (st0 : State)
  (req : Request) (w : World) (st : State) : completion :=
  match respond env req with
  | None => Thrown RequestError w st
  | Some response_text =>
      match parse_response response_text with
      | None => Thrown JsonSyntaxError w st
      | Some analysisResult =>
          let st1 := setResult analysisResult st in
          let newHistoryItem :=
            newHistoryItem analysisResult (now_iso env) (now_locale env)
              (previewUrl st0) (type f) (promptText st0) in
          match iterate (history st0) with
          | None => Thrown NotIterable w st1
          | Some older =>
              let updatedHistory :=
                JArr (firstn HISTORY_LIMIT (newHistoryItem :: older)) in
              let st2 := setHistory updatedHistory st1 in
              let snapshot := JSON_stringify updatedHistory in
              if storage_accepts env snapshot
              then Normal (setItem HISTORY_KEY snapshot w) st2
              else Thrown QuotaExceededError w st2
          end
      end
  end.

(** ** Steps *)

(** A waiting handler goes on: the new world and cells, and the tasks
    it leaves waiting in its turn. *)
Definition resume (t : task) (w : World) (st : State)
  : World * State * list task :=
  match t with
  | ReadingFile env st0 f =>
      match fileToBase64 (reader_ok env) f with
      | inl e => (finish (Thrown e w st), [])
      | inr base64Data =>
          let req := request f base64Data (promptText st0) in
          (send req w, st, [Requesting env st0 f req])
      end
  | Requesting env st0 f req => (finish (afterResponse env f st0 req w st), [])
  | AskingCamera granted => (cameraAnswered granted w st, [])
  | Encoding env => (w, blobReady env st, [])
  end.

Definition without (i : nat) (l : list task) : list task :=
  firstn i l ++ skipn (S i) l.

(** The [i]-th waiting handler goes on; nothing happens when there is
    none. *)
Definition settle (i : nat) (w : World) (pg : Page) : World * Page :=
  match nth_error (tasks pg) i with
  | None => (w, pg)
  | Some t =>
      let '(w', st', new) := resume t w (cells pg) in
      (w', {| shown := shown pg; cells := st';
              tasks := without i (tasks pg) ++ new |})
  end.

Fixpoint same_tracks (a b : MediaStream) : bool :=
  match a, b with
  | [], [] => true
  | x :: a', y :: b' => (x =? y) && same_tracks a' b'
  | _, _ => false
  end.

(** The comparison of the dependency [stream] of the second effect.
    Streams are compared as objects; two streams that the browser has
    handed out are different objects with tracks of their own. *)
Definition same_stream (a b : option MediaStream) : bool :=
  match a, b with
  | None, None => true
  | Some x, Some y => same_tracks x y
  | _, _ => false
  end.

(** A render.  The closures made from now on see the cells as they
    are.  When the [stream] cell is not the one the last render saw,
    the cleanup that the last render installed runs: it stops the
    tracks of the stream that render saw. *)
Definition render (w : World) (pg : Page) : World * Page :=
  let w' := if same_stream (stream (shown pg)) (stream (cells pg)) then w
            else match stream (shown pg) with
                 | Some ms => stop_tracks ms w
                 | None => w
                 end in
  (w', {| shown := cells pg; cells := cells pg; tasks := tasks pg |}).

(** The handler of a user event, called on the page as it is shown.
    A disabled button does not call its handler. *)
Definition user (ev : event) (w : World) (pg : Page) : World * Page :=
  match ev with
  | EFileChange selected origin uuid =>
      let '(w', st') :=
        handleFileChange (shown pg) selected origin uuid w (cells pg) in
      (w', with_cells st' pg)
  | EPrompt value => (w, with_cells (setPromptText value (cells pg)) pg)
  | EAnalyze env =>
      if analyzeDisabled (shown pg) then (w, pg) else handleAnalyze env w pg
  | EModeChange newMode =>
      let '(w', st') := handleModeChange (shown pg) newMode w (cells pg) in
      (w', with_cells st' pg)
  | EStartCamera granted => handleStartCamera granted w pg
  | EStopCamera =>
      let '(w', st') := handleStopCamera (shown pg) w (cells pg) in
      (w', with_cells st' pg)
  | ECapturePhoto env => handleCapturePhoto env w pg
  end.

(** What happens to the page: a user event, after which the page is
    rendered before anything else is handled; a waiting handler that
    goes on, whose updates wait for a render; a render. *)
Inductive step :=
| User (ev : event)
| Settle (i : nat)
| Render.

Definition perform (s : step) (wp : World * Page) : World * Page :=
  match s with
  | User ev => let '(w', pg') := user ev (fst wp) (snd wp) in render w' pg'
  | Settle i => settle i (fst wp) (snd wp)
  | Render => render (fst wp) (snd wp)
  end.

Definition play (steps : list step) (wp : World * Page) : World * Page :=
  fold_left (fun wp s => perform s wp) steps wp.

(** The first render has seen the initial state, and the effect that
    loads the history has run. *)
Definition boot (readable : bool) (w : World) : World * Page :=
  let '(w', st) := startup readable w in
  (w', {| shown := initial_state; cells := st; tasks := [] |}).

(** The schedule in which the page is rendered after every step, so
    that no event meets updates that have not been rendered. *)
Definition promptly (steps : list step) : list step :=
  flat_map (fun s => [s; Render]) steps.

Definition analysis_task (t : task) : bool :=
  match t with
  | ReadingFile _ _ _ | Requesting _ _ _ _ => true
  | _ => false
  end.

(** The number of analyses that wait for the reader or the endpoint. *)
Definition in_flight (pg : Page) : nat :=
  List.length (filter analysis_task (tasks pg)).

(** The render whose closure a waiting analysis holds. *)
Definition closure (t : task) : option State :=
  match t with
  | ReadingFile _ st0 _ | Requesting _ st0 _ _ => Some st0
  | _ => None
  end.



(** ** Invariants of the runs *)

(** The analyses that wait. *)
Definition pending (pg : Page) : list task :=
  filter analysis_task (tasks pg).

(** At most one analysis waits, the loading flag is up exactly while
    one does, and a waiting analysis holds the current history. *)
Definition flight_cells (pg : Page) : Prop :=
  (in_flight pg <= 1)%nat
  /\ (loading (cells pg) = true <-> in_flight pg = 1%nat)
  /\ (forall t st0, In t (pending pg) -> closure t = Some st0 ->
                    history st0 = history (cells pg)).

(** Moreover the page as shown has the button disabled while an
    analysis waits, and shows the current history when the button is
    enabled. *)
Definition single_flight (pg : Page) : Prop :=
  flight_cells pg
  /\ (in_flight pg = 1%nat -> loading (shown pg) = true)
  /\ (analyzeDisabled (shown pg) = false ->
      history (shown pg) = history (cells pg)).

(** The camera flag is up exactly when a stream is held, and every
    live track belongs to the stream held. *)
Definition held (wp : World * Page) : Prop :=
  (isCameraOn (cells (snd wp)) = true <-> stream (cells (snd wp)) <> None)
  /\ (forall t, In t (live_tracks (fst wp)) ->
                exists ms, stream (cells (snd wp)) = Some ms /\ In t ms).

(** The camera cells are as the last render saw them. *)
Definition camera_rendered (pg : Page) : Prop :=
  stream (shown pg) = stream (cells pg)
  /\ isCameraOn (shown pg) = isCameraOn (cells pg).


End Async.

(* ================================================================== *)
(** * Concrete runs                                                    *)
(* ================================================================== *)

Module Scenario.

Import Js Browser App.
Open Scope N_scope.

Definition origin : jsstring := lit "https://bulldog.example".

Definition dog_jpg : File :=
  {| name := lit "dog.jpg"; type := lit "image/jpeg"; bytes := [255; 216; 255] |}.

Definition fresh_world : World :=
  {| localStorage := fun _ => None; console := []; requests := [];
     live_tracks := [] |}.

(** A browser whose storage holds [stored] under the history key. *)
Definition world_with (stored : string) : World :=
  setItem HISTORY_KEY (lit stored) fresh_world.

(** An endpoint that answers every request with [answer]. *)
Definition answering (answer : jsstring) : AnalyzeEnv :=
  {| client_ok := true;
     reader_ok := true;
     respond := fun _ => Some (Some answer);
     now_iso := lit "2025-01-01T00:00:00.000Z";
     now_locale := lit "1/1/2025, 12:00:00 AM";
     storage_accepts := fun _ => true |}.

(** An endpoint that cannot be reached. *)
Definition offline : AnalyzeEnv :=
  {| client_ok := true;
     reader_ok := true;
     respond := fun _ => None;
     now_iso := lit "2025-01-01T00:00:00.000Z";
     now_locale := lit "1/1/2025, 12:00:00 AM";
     storage_accepts := fun _ => true |}.

Definition comfort : jsstring :=
  json_text "{'behavior':'Comfort Seeking','explanation':'...','tip':'...'}".

(** A response in which [behavior] is a number too large for a
    binary64. *)
Definition overflowing : jsstring :=
  json_text "{'behavior':1e999,'explanation':'...','tip':'...'}".

(** The user has picked [dog.jpg] in a fresh browser. *)
Definition picked : World * State :=
  run [EFileChange (Some dog_jpg) origin (lit "0b7e")] (startup true fresh_world).

Definition shutter : CaptureEnv :=
  {| context2d := true; blob := Some [255; 216; 255; 217];
     now := 1735689600000; capture_origin := origin;
     capture_uuid := lit "51c2" |}.

(** The camera is on in live mode, with one video track. *)
Definition filming : World * State :=
  run [EModeChange live; EStartCamera (Some [7])] (startup true fresh_world).

(** Eleven stored entries. *)
Definition eleven : string := "[1,2,3,4,5,6,7,8,9,10,11]".

(** An endpoint that answers, and a storage that is full. *)
Definition full_storage (answer : jsstring) : AnalyzeEnv :=
  {| client_ok := true;
     reader_ok := true;
     respond := fun _ => Some (Some answer);
     now_iso := lit "2025-01-01T00:00:00.000Z";
     now_locale := lit "1/1/2025, 12:00:00 AM";
     storage_accepts := fun _ => false |}.

(** A file whose media type contains a comma. *)
Definition odd_type : File :=
  {| name := lit "odd.bin"; type := lit "a/b,c"; bytes := [1; 2; 3] |}.

(** A file of a type that [renderMedia] does not know. *)
Definition report_pdf : File :=
  {| name := lit "report.pdf"; type := lit "application/pdf";
     bytes := [37; 80; 68; 70] |}.

(** A browser whose storage holds a JSON object under the history key;
    its [length] is 0, so the history section takes it for an empty
    list. *)
Definition world_with_object : World :=
  setItem HISTORY_KEY (json_text "{'length':0}") fresh_world.

(** The user has picked [dog.jpg] in that browser. *)
Definition picked_over_object : World * State :=
  run [EFileChange (Some dog_jpg) origin (lit "0b7e")]
    (startup true world_with_object).

(** A capture for which [toBlob] delivers [null]. *)
Definition blank_shutter : CaptureEnv :=
  {| context2d := true; blob := None;
     now := 1735689600000; capture_origin := origin;
     capture_uuid := lit "51c2" |}.

(** Two clicks on the start button before the first request is
    answered, then the two answers. *)
Definition double_start : list Async.step :=
  [Async.User (EModeChange live);
   Async.User (EStartCamera (Some [7]));
   Async.User (EStartCamera (Some [8]));
   Async.Settle 0; Async.Settle 0].

(** The user picks [dog.jpg], asks for the analysis, and picks another
    file while the reader is at work. *)
Definition changed_while_waiting : list Async.step :=
  [Async.User (EFileChange (Some dog_jpg) origin (lit "0b7e"));
   Async.User (EAnalyze (answering comfort));
   Async.User (EFileChange (Some report_pdf) origin (lit "77aa"))].

End Scenario.

(* ================================================================== *)
(** * Facts about the language values                                  *)
(* ================================================================== *)

Import Js Browser App.
Open Scope N_scope.

(** Settles the comparisons of the goal that arithmetic decides. *)
Ltac ncmp :=
  repeat match goal with
  | |- context [N.leb ?a ?b] =>
      first [ replace (N.leb a b) with true by (symmetry; apply N.leb_le; lia)
            | replace (N.leb a b) with false by (symmetry; apply N.leb_gt; lia) ]
  | |- context [N.ltb ?a ?b] =>
      first [ replace (N.ltb a b) with true by (symmetry; apply N.ltb_lt; lia)
            | replace (N.ltb a b) with false by (symmetry; apply N.ltb_ge; lia) ]
  | |- context [N.eqb ?a ?b] =>
      first [ replace (N.eqb a b) with true by (symmetry; apply N.eqb_eq; lia)
            | replace (N.eqb a b) with false by (symmetry; apply N.eqb_neq; lia) ]
  end.

Ltac unfold_chars :=
  unfold QUOTE, BACKSLASH, SLASH, COMMA, COLON, LBRACKET, RBRACKET, LBRACE,
    RBRACE, MINUS, PLUS, DOT, ZERO, LOWER_E, UPPER_E, LOWER_U in *.

Section Strings.

Lemma str_eqb_eq (a b : jsstring) : str_eqb a b = true <-> a = b.
Proof.
  revert b; induction a as [|x a IH]; intros [|y b]; simpl; split;
    try congruence; try reflexivity.
  - intros H. apply andb_true_iff in H as [Hx Ha].
    apply N.eqb_eq in Hx. apply IH in Ha. congruence.
  - intros H. injection H as -> ->. rewrite N.eqb_refl. simpl. now apply IH.
Qed.

Lemma str_eqb_refl (a : jsstring) : str_eqb a a = true.
Proof. now apply str_eqb_eq. Qed.

Lemma str_eqb_neq (a b : jsstring) : str_eqb a b = false <-> a <> b.
Proof.
  split.
  - intros H E. apply str_eqb_eq in E. congruence.
  - intros H. destruct (str_eqb a b) eqn:E; [|reflexivity].
    apply str_eqb_eq in E. contradiction.
Qed.

Lemma hex_value_digit (d : N) : d < 16 -> hex_value (hex_digit d) = Some d.
Proof.
  intros H. unfold hex_value, hex_digit, is_digit.
  destruct (N.ltb_spec d 10).
  - ncmp. cbn [andb]. f_equal. lia.
  - ncmp. cbn [andb]. f_equal. lia.
Qed.

Lemma parse_unicode_escape (c : N) (r : jsstring) :
  c < 65536 ->
  parse_chars (unicode_escape c ++ r) = cons_fst c (parse_chars r).
Proof.
  intros H. unfold unicode_escape. simpl List.app. unfold_chars.
  cbn [parse_chars]. unfold_chars. ncmp.
  unfold hex4.
  rewrite !hex_value_digit by (apply N.mod_lt; discriminate).
  replace (4096 * (c / 4096 mod 16) + 256 * (c / 256 mod 16)
           + 16 * (c / 16 mod 16) + c mod 16) with c; [reflexivity|].
  zify. Z.to_euclidean_division_equations. lia.
Qed.

Lemma parse_escape_unit (c : N) (r : jsstring) :
  parse_chars (escape_unit c ++ r) = cons_fst c (parse_chars r).
Proof.
  unfold escape_unit, is_high_surrogate, is_low_surrogate. unfold_chars.
  destruct (N.eqb_spec c 34) as [->|]; [reflexivity|].
  destruct (N.eqb_spec c 92) as [->|]; [reflexivity|].
  destruct (N.eqb_spec c 8) as [->|]; [reflexivity|].
  destruct (N.eqb_spec c 12) as [->|]; [reflexivity|].
  destruct (N.eqb_spec c 10) as [->|]; [reflexivity|].
  destruct (N.eqb_spec c 13) as [->|]; [reflexivity|].
  destruct (N.eqb_spec c 9) as [->|]; [reflexivity|].
  destruct (N.ltb_spec c 32).
  { apply parse_unicode_escape. lia. }
  destruct ((55296 <=? c) && (c <=? 56319) || (56320 <=? c) && (c <=? 57343))
    eqn:Hs.
  { apply parse_unicode_escape.
    apply orb_true_iff in Hs as [Hs|Hs]; apply andb_true_iff in Hs as [_ Hs];
      apply N.leb_le in Hs; lia. }
  simpl List.app. cbn [parse_chars]. unfold_chars. ncmp. reflexivity.
Qed.

Lemma parse_raw_unit (c : N) (r : jsstring) :
  32 <= c -> c <> 34 -> c <> 92 ->
  parse_chars (c :: r) = cons_fst c (parse_chars r).
Proof.
  intros. cbn [parse_chars]. unfold_chars. ncmp. reflexivity.
Qed.

Lemma parse_chars_escape_bounded (n : nat) :
  forall s, (List.length s <= n)%nat ->
  forall rest, parse_chars (escape s ++ QUOTE :: rest) = Some (s, rest).
Proof.
  induction n as [|n IH]; intros s Hn rest.
  - destruct s; [reflexivity | simpl in Hn; lia].
  - destruct s as [|c r]; [reflexivity|].
    simpl in Hn. cbn [escape].
    destruct (is_high_surrogate c) eqn:Hc.
    + assert (Hc' : 55296 <= c <= 56319).
      { unfold is_high_surrogate in Hc. apply andb_true_iff in Hc as [A B].
        apply N.leb_le in A, B. lia. }
      destruct r as [|d r'].
      * rewrite parse_unicode_escape by lia. reflexivity.
      * destruct (is_low_surrogate d) eqn:Hd.
        -- assert (Hd' : 56320 <= d <= 57343).
           { unfold is_low_surrogate in Hd. apply andb_true_iff in Hd as [A B].
             apply N.leb_le in A, B. lia. }
           cbn [List.app]. rewrite parse_raw_unit by lia.
           rewrite parse_raw_unit by lia.
           rewrite IH by (simpl in Hn; lia). reflexivity.
        -- rewrite <- app_assoc, parse_unicode_escape by lia.
           rewrite IH by lia. reflexivity.
    + rewrite <- app_assoc, parse_escape_unit.
      rewrite IH by lia. reflexivity.
Qed.

(** A string literal reads back as the string it was made from. *)
Lemma parse_chars_escape (s rest : jsstring) :
  parse_chars (escape s ++ QUOTE :: rest) = Some (s, rest).
Proof. now apply (parse_chars_escape_bounded (List.length s)). Qed.

Lemma parse_chars_shorter_bounded (n : nat) :
  forall s k r, (List.length s <= n)%nat ->
  parse_chars s = Some (k, r) -> (List.length r < List.length s)%nat.
Proof.
  induction n as [|n IH]; intros s k r Hle H.
  - destruct s; [discriminate | simpl in Hle; lia].
  - assert (Hcons : forall u t, (List.length t <= n)%nat ->
              cons_fst u (parse_chars t) = Some (k, r) ->
              (List.length r < List.length t)%nat).
    { intros u t Ht E. destruct (parse_chars t) as [[l b]|] eqn:Et;
        [|discriminate].
      simpl in E. injection E as _ <-. eapply IH; eauto. }
    destruct s as [|c s]; [discriminate|]. simpl in Hle. cbn [parse_chars] in H.
    destruct (c =? QUOTE).
    { injection H as _ <-. simpl. lia. }
    destruct (c =? BACKSLASH).
    { destruct s as [|e s1]; [discriminate|].
      destruct (e =? LOWER_U).
      - destruct s1 as [|h1 [|h2 [|h3 [|h4 r2]]]]; try discriminate.
        destruct (hex4 h1 h2 h3 h4); [|discriminate].
        apply Hcons in H; simpl in *; lia.
      - destruct (simple_escape e); [|discriminate].
        apply Hcons in H; simpl in *; lia. }
    destruct (c <? 32); [discriminate|].
    apply Hcons in H; simpl in *; lia.
Qed.

Lemma parse_chars_shorter (s k r : jsstring) :
  parse_chars s = Some (k, r) -> (List.length r < List.length s)%nat.
Proof. now apply (parse_chars_shorter_bounded (List.length s)). Qed.

End Strings.

Section ParserFuel.

(** Induction over values, with the elements of arrays and the values of
    properties as induction hypotheses. *)
Lemma json_ind (P : json -> Prop)
  (Hnull : P JNull) (Hbool : forall b, P (JBool b))
  (Hnum : forall x, P (JNum x)) (Hstr : forall s, P (JStr s))
  (Harr : forall l, Forall P l -> P (JArr l))
  (Hobj : forall o, Forall (fun kv => P (snd kv)) o -> P (JObj o))
  : forall v, P v.
Proof.
  fix F 1. intros [|b|x|s|l|o].
  - exact Hnull.
  - exact (Hbool b).
  - exact (Hnum x).
  - exact (Hstr s).
  - apply Harr. induction l as [|y l IH]; constructor; [apply F | exact IH].
  - apply Hobj. induction o as [|kv o IH]; constructor; [apply F | exact IH].
Qed.

Lemma skip_ws_length (s : jsstring) :
  (List.length (skip_ws s) <= List.length s)%nat.
Proof.
  induction s as [|c s IH]; simpl; [lia|].
  destruct (is_ws c); simpl; lia.
Qed.

Lemma span_number_length (s t r : jsstring) :
  span_number s = (t, r) ->
  List.length s = (List.length t + List.length r)%nat.
Proof.
  revert t r; induction s as [|c s IH]; intros t r H; simpl in H.
  - injection H as <- <-. reflexivity.
  - destruct (is_number_char c).
    + destruct (span_number s) as [t' r'] eqn:E. injection H as <- <-.
      simpl. rewrite (IH _ _ eq_refl). reflexivity.
    + injection H as <- <-. reflexivity.
Qed.

Lemma parse_number_shorter (s : jsstring) (v : json) (r : jsstring) :
  parse_number s = Parsed (v, r) -> (List.length r < List.length s)%nat.
Proof.
  unfold parse_number. destruct (span_number s) as [t r'] eqn:E.
  destruct (number_of_literal t) eqn:El; [|discriminate].
  intros H. injection H as _ <-.
  apply span_number_length in E. destruct t; [discriminate|].
  simpl in E. lia.
Qed.

Lemma parse_keyword_shorter (kw : jsstring) (x v : json) (s r : jsstring) :
  kw <> [] ->
  parse_keyword kw x s = Parsed (v, r) -> (List.length r < List.length s)%nat.
Proof.
  unfold parse_keyword. intros Hkw.
  destruct (startsWith kw s) eqn:E; [|discriminate].
  intros H. injection H as _ <-.
  destruct kw as [|a kw]; [contradiction|].
  destruct s as [|b s]; [discriminate|].
  simpl. pose proof (length_skipn (List.length kw) s). lia.
Qed.

Ltac case_scrutinee H :=
  match type of H with
  | context [match skip_ws ?s with _ => _ end] =>
      let E := fresh "E" in
      pose proof (skip_ws_length s);
      destruct (skip_ws s) eqn:E
  | context [match parse_chars ?s with _ => _ end] =>
      let E := fresh "E" in
      destruct (parse_chars s) as [[? ?]|] eqn:E;
      [apply parse_chars_shorter in E|]
  | context [match parse_value ?f ?s with _ => _ end] =>
      let E := fresh "E" in
      destruct (parse_value f s) as [[? ?]| |] eqn:E;
      [match goal with IH : shorter (parse_value f) |- _ => apply IH in E end
      | |]
  | context [match parse_elements ?f ?s with _ => _ end] =>
      let E := fresh "E" in
      destruct (parse_elements f s) as [[? ?]| |] eqn:E;
      [match goal with IH : shorter (parse_elements f) |- _ => apply IH in E end
      | |]
  | context [match parse_members ?f ?s with _ => _ end] =>
      let E := fresh "E" in
      destruct (parse_members f s) as [[? ?]| |] eqn:E;
      [match goal with IH : shorter (parse_members f) |- _ => apply IH in E end
      | |]
  | context [if ?b then _ else _] => destruct b
  end.

Ltac finish_shorter H :=
  first
    [ discriminate
    | injection H as _ <-; simpl in *; lia
    | apply parse_keyword_shorter in H; [simpl in *; lia | discriminate]
    | apply parse_number_shorter in H; simpl in *; lia ].

Lemma parsers_shorter (fuel : nat) :
  shorter (parse_value fuel) /\ shorter (parse_elements fuel)
  /\ shorter (parse_members fuel).
Proof.
  induction fuel as [|fuel (IHv & IHe & IHm)].
  - repeat split; intros s a r H; discriminate.
  - repeat split; intros s a r H;
      cbn [parse_value parse_elements parse_members] in H;
      repeat case_scrutinee H; finish_shorter H.
Qed.

Lemma parse_value_shorter (fuel : nat) (s : jsstring) (v : json) (r : jsstring) :
  parse_value fuel s = Parsed (v, r) -> (List.length r < List.length s)%nat.
Proof. apply (parsers_shorter fuel). Qed.

Lemma parse_elements_shorter (fuel : nat) (s : jsstring) (l : list json)
  (r : jsstring) :
  parse_elements fuel s = Parsed (l, r) -> (List.length r < List.length s)%nat.
Proof. apply (parsers_shorter fuel). Qed.

Lemma parse_members_shorter (fuel : nat) (s : jsstring)
  (m : list (jsstring * json)) (r : jsstring) :
  parse_members fuel s = Parsed (m, r) -> (List.length r < List.length s)%nat.
Proof. apply (parsers_shorter fuel). Qed.

Lemma parse_keyword_fuel (kw : jsstring) (x : json) (s : jsstring) :
  parse_keyword kw x s <> OutOfFuel.
Proof. unfold parse_keyword. destruct (startsWith kw s); discriminate. Qed.

Lemma parse_number_fuel (s : jsstring) : parse_number s <> OutOfFuel.
Proof.
  unfold parse_number. destruct (span_number s) as [t r].
  destruct (number_of_literal t); discriminate.
Qed.

(** With fuel above twice the length of the text, no parser runs out. *)
Ltac case_fuel H IHv IHe IHm :=
  match type of H with
  | context [match skip_ws ?s with _ => _ end] =>
      let E := fresh "E" in
      pose proof (skip_ws_length s);
      destruct (skip_ws s) eqn:E
  | context [match parse_chars ?s with _ => _ end] =>
      let E := fresh "E" in
      destruct (parse_chars s) as [[? ?]|] eqn:E;
      [apply parse_chars_shorter in E|]
  | context [match parse_value ?f ?s with _ => _ end] =>
      let E := fresh "E" in
      destruct (parse_value f s) as [[? ?]| |] eqn:E;
      [apply parse_value_shorter in E | |
       exfalso; revert E; apply IHv; cbn [List.length] in *; lia]
  | context [match parse_elements ?f ?s with _ => _ end] =>
      let E := fresh "E" in
      destruct (parse_elements f s) as [[? ?]| |] eqn:E;
      [apply parse_elements_shorter in E | |
       exfalso; revert E; apply IHe; cbn [List.length] in *; lia]
  | context [match parse_members ?f ?s with _ => _ end] =>
      let E := fresh "E" in
      destruct (parse_members f s) as [[? ?]| |] eqn:E;
      [apply parse_members_shorter in E | |
       exfalso; revert E; apply IHm; cbn [List.length] in *; lia]
  | context [if ?b then _ else _] => destruct b
  end.

Lemma parsers_fuel (fuel : nat) :
  (forall s, (2 * List.length s + 1 <= fuel)%nat ->
             parse_value fuel s <> OutOfFuel)
  /\ (forall s, (2 * List.length s + 2 <= fuel)%nat ->
                parse_elements fuel s <> OutOfFuel)
  /\ (forall s, (2 * List.length s + 2 <= fuel)%nat ->
                parse_members fuel s <> OutOfFuel).
Proof.
  induction fuel as [|fuel (IHv & IHe & IHm)].
  - repeat split; intros s Hs; lia.
  - repeat split; intros s Hs H;
      cbn [parse_value parse_elements parse_members] in H;
      repeat case_fuel H IHv IHe IHm;
      first [ discriminate
            | now apply parse_keyword_fuel in H
            | now apply parse_number_fuel in H ].
Qed.

(** The fuel that [JSON_parse] gives is never exhausted. *)
Lemma parse_value_fuel (s : jsstring) :
  parse_value (2 * List.length s + 1) s <> OutOfFuel.
Proof. now apply (parsers_fuel (2 * List.length s + 1)). Qed.

Ltac case_stable f' Hle Hne IHv IHe IHm :=
  match type of Hne with
  | context [match skip_ws ?s with _ => _ end] => destruct (skip_ws s)
  | context [match parse_chars ?s with _ => _ end] =>
      destruct (parse_chars s) as [[? ?]|]
  | context [match parse_value ?f ?s with _ => _ end] =>
      let E := fresh "E" in
      destruct (parse_value f s) as [[? ?]| |] eqn:E;
      [ rewrite (IHv s f' Hle) by (rewrite E; discriminate); rewrite E
      | rewrite (IHv s f' Hle) by (rewrite E; discriminate); rewrite E
      | exfalso; apply Hne; reflexivity ]
  | context [match parse_elements ?f ?s with _ => _ end] =>
      let E := fresh "E" in
      destruct (parse_elements f s) as [[? ?]| |] eqn:E;
      [ rewrite (IHe s f' Hle) by (rewrite E; discriminate); rewrite E
      | rewrite (IHe s f' Hle) by (rewrite E; discriminate); rewrite E
      | exfalso; apply Hne; reflexivity ]
  | context [match parse_members ?f ?s with _ => _ end] =>
      let E := fresh "E" in
      destruct (parse_members f s) as [[? ?]| |] eqn:E;
      [ rewrite (IHm s f' Hle) by (rewrite E; discriminate); rewrite E
      | rewrite (IHm s f' Hle) by (rewrite E; discriminate); rewrite E
      | exfalso; apply Hne; reflexivity ]
  | context [if ?b then _ else _] => destruct b
  end.

Lemma parsers_stable (fuel : nat) :
  stable parse_value fuel /\ stable parse_elements fuel
  /\ stable parse_members fuel.
Proof.
  induction fuel as [|fuel (IHv & IHe & IHm)].
  - repeat split; intros s f' Hle Hne; exfalso; apply Hne; reflexivity.
  - repeat split; intros s f' Hle Hne;
      (destruct f' as [|f']; [lia|]);
      assert (Hle' : (fuel <= f')%nat) by lia;
      cbn [parse_value parse_elements parse_members] in *;
      repeat case_stable f' Hle' Hne IHv IHe IHm; reflexivity.
Qed.

Lemma parse_value_stable (fuel fuel' : nat) (s : jsstring)
  (x : json * jsstring) :
  parse_value fuel s = Parsed x -> (fuel <= fuel')%nat ->
  parse_value fuel' s = Parsed x.
Proof.
  intros H Hle. rewrite <- H. apply (parsers_stable fuel); [assumption|].
  rewrite H. discriminate.
Qed.

End ParserFuel.

Section Objects.

Lemma keys_ok_cons (k : jsstring) (r : list jsstring) :
  keys_ok (k :: r) = true <->
  ~ In k r /\ (forall k', In k' r -> rank k <= rank k') /\ keys_ok r = true.
Proof.
  cbn [keys_ok]. rewrite !andb_true_iff, negb_true_iff, forallb_forall.
  split.
  - intros [[Hn Hs] Hr]. repeat split; try assumption.
    + intros Hin. assert (existsb (str_eqb k) r = true); [|congruence].
      apply existsb_exists. exists k. split; [assumption | apply str_eqb_refl].
    + intros k' Hin. apply N.leb_le. now apply Hs.
  - intros (Hn & Hs & Hr). repeat split; try assumption.
    + destruct (existsb (str_eqb k) r) eqn:E; [|reflexivity].
      apply existsb_exists in E as (x & Hin & Hx).
      apply str_eqb_eq in Hx. subst x. contradiction.
    + intros k' Hin. apply N.leb_le. now apply Hs.
Qed.

Lemma has_key_In (k : jsstring) (o : list (jsstring * json)) :
  has_key k o = true <-> In k (List.map fst o).
Proof.
  induction o as [|[k' v'] o IH]; simpl.
  - split; [discriminate | contradiction].
  - rewrite orb_true_iff, IH, str_eqb_eq. intuition congruence.
Qed.

Lemma replace_value_keys (k : jsstring) (v : json) (o : list (jsstring * json)) :
  List.map fst (replace_value k v o) = List.map fst o.
Proof.
  induction o as [|[k' v'] o IH]; simpl; [reflexivity|].
  destruct (str_eqb k k'); simpl; congruence.
Qed.

Lemma insert_key_In (k : jsstring) (v : json) (o : list (jsstring * json))
  (x : jsstring) :
  In x (List.map fst (insert_key k v o)) <-> x = k \/ In x (List.map fst o).
Proof.
  induction o as [|[k' v'] o IH]; simpl.
  - intuition.
  - destruct (rank k <? rank k'); simpl; [intuition|].
    rewrite IH. intuition.
Qed.

Lemma insert_key_ok (k : jsstring) (v : json) (o : list (jsstring * json)) :
  ~ In k (List.map fst o) ->
  keys_ok (List.map fst o) = true ->
  keys_ok (List.map fst (insert_key k v o)) = true.
Proof.
  induction o as [|[k' v'] o IH]; intros Hn Hok.
  - reflexivity.
  - cbn [insert_key]. cbn [List.map fst] in Hn, Hok.
    apply keys_ok_cons in Hok as (Hn' & Hs & Hr).
    destruct (N.ltb_spec (rank k) (rank k')) as [Hlt|Hge].
    + cbn [List.map fst]. apply keys_ok_cons. repeat split.
      * assumption.
      * intros x [<-|Hx]; [lia|]. specialize (Hs x Hx). lia.
      * apply keys_ok_cons. auto.
    + cbn [List.map fst]. apply keys_ok_cons. repeat split.
      * rewrite insert_key_In. intros [->|Hx]; [|contradiction].
        apply Hn. now left.
      * intros x Hx. apply insert_key_In in Hx as [->|Hx]; [lia|auto].
      * apply IH; [|assumption]. intros Hin. apply Hn. now right.
Qed.

Lemma obj_set_ok (o : list (jsstring * json)) (k : jsstring) (v : json) :
  keys_ok (List.map fst o) = true ->
  keys_ok (List.map fst (obj_set o k v)) = true.
Proof.
  intros Hok. unfold obj_set. destruct (has_key k o) eqn:E.
  - now rewrite replace_value_keys.
  - apply insert_key_ok; [|assumption].
    intros Hin. apply has_key_In in Hin. congruence.
Qed.

Lemma obj_set_all_ok (kvs o : list (jsstring * json)) :
  keys_ok (List.map fst o) = true ->
  keys_ok (List.map fst (obj_set_all o kvs)) = true.
Proof.
  revert o; induction kvs as [|[k v] kvs IH]; intros o Hok; simpl.
  - assumption.
  - apply IH. now apply obj_set_ok.
Qed.

(** The values of an object after an assignment are the old ones and
    the new one. *)
Lemma obj_set_values (P : json -> Prop) (o : list (jsstring * json))
  (k : jsstring) (v : json) :
  Forall (fun kv => P (snd kv)) o -> P v ->
  Forall (fun kv => P (snd kv)) (obj_set o k v).
Proof.
  intros Ho Hv. unfold obj_set. destruct (has_key k o).
  - induction Ho as [|[k' v'] o Hk Ho IH]; simpl; [constructor|].
    destruct (str_eqb k k'); constructor; auto.
  - induction Ho as [|[k' v'] o Hk Ho IH]; simpl.
    + constructor; [assumption | constructor].
    + destruct (rank k <? rank k'); repeat constructor; auto.
Qed.

Lemma obj_set_all_values (P : json -> Prop) (kvs o : list (jsstring * json)) :
  Forall (fun kv => P (snd kv)) o ->
  Forall (fun kv => P (snd kv)) kvs ->
  Forall (fun kv => P (snd kv)) (obj_set_all o kvs).
Proof.
  revert o; induction kvs as [|[k v] kvs IH]; intros o Ho Hk; simpl.
  - assumption.
  - inversion Hk; subst. apply IH; [|assumption].
    now apply obj_set_values.
Qed.

Lemma insert_key_last (k : jsstring) (v : json) (o : list (jsstring * json)) :
  (forall k', In k' (List.map fst o) -> rank k' <= rank k) ->
  insert_key k v o = o ++ [(k, v)].
Proof.
  induction o as [|[k' v'] o IH]; intros H; simpl; [reflexivity|].
  assert (rank k' <= rank k) by (apply H; now left).
  ncmp. rewrite IH; [reflexivity|]. intros x Hx. apply H. now right.
Qed.

Lemma keys_ok_middle (a b : list jsstring) (k : jsstring) :
  keys_ok (a ++ k :: b) = true ->
  ~ In k a /\ forall k', In k' a -> rank k' <= rank k.
Proof.
  induction a as [|x a IH]; intros H.
  - split; [auto | contradiction].
  - cbn [List.app] in H. apply keys_ok_cons in H as (Hn & Hs & Hr).
    destruct (IH Hr) as [Hn' Hs']. split.
    + intros [->|Hin]; [|contradiction].
      apply Hn. apply in_or_app. right. now left.
    + intros k' [<-|Hin]; [|auto].
      apply Hs. apply in_or_app. right. now left.
Qed.

(** Creating the properties of a well-formed object one after the other
    gives the same object. *)
Lemma obj_set_all_app (o acc : list (jsstring * json)) :
  keys_ok (List.map fst (acc ++ o)) = true ->
  obj_set_all acc o = acc ++ o.
Proof.
  revert acc; induction o as [|[k v] o IH]; intros acc H; simpl.
  - now rewrite app_nil_r.
  - rewrite map_app in H. cbn [List.map fst] in H.
    destruct (keys_ok_middle _ _ _ H) as [Hn Hs].
    unfold obj_set at 1.
    destruct (has_key k acc) eqn:E.
    { apply has_key_In in E. contradiction. }
    rewrite insert_key_last by assumption.
    rewrite IH.
    + now rewrite <- app_assoc.
    + rewrite <- app_assoc, map_app. exact H.
Qed.

Lemma obj_set_all_id (o : list (jsstring * json)) :
  keys_ok (List.map fst o) = true -> obj_set_all [] o = o.
Proof. intros H. now apply (obj_set_all_app o []). Qed.

End Objects.

Section RoundTrip.

Lemma number_eqb_eq (x y : number) : number_eqb x y = true -> x = y.
Proof.
  destruct x, y; simpl; try discriminate; try reflexivity.
  - intros H. apply Bool.eqb_prop in H. congruence.
  - intros H. apply Bool.eqb_prop in H. congruence.
  - intros H. apply andb_true_iff in H as [H He].
    apply andb_true_iff in H as [Hs Hm].
    apply Bool.eqb_prop in Hs. apply Pos.eqb_eq in Hm. apply Z.eqb_eq in He.
    congruence.
Qed.

Lemma is_number_char_cases (c : N) :
  is_number_char c = true ->
  48 <= c <= 57 \/ c = 45 \/ c = 43 \/ c = 46 \/ c = 101 \/ c = 69.
Proof.
  unfold is_number_char, is_digit. unfold_chars.
  rewrite !orb_true_iff, andb_true_iff, !N.eqb_eq, !N.leb_le. tauto.
Qed.

Lemma span_number_app (t rest : jsstring) :
  forallb is_number_char t = true -> ends_number rest = true ->
  span_number (t ++ rest) = (t, rest).
Proof.
  intros Ht Hr. induction t as [|c t IH]; simpl.
  - destruct rest as [|d rest]; [reflexivity|].
    simpl in Hr. apply negb_true_iff in Hr. simpl. now rewrite Hr.
  - simpl in Ht. apply andb_true_iff in Ht as [Hc Ht].
    rewrite Hc, (IH Ht). reflexivity.
Qed.

Lemma number_text_head (x : number) :
  number_survives x = true ->
  exists c r, number_to_json x = c :: r /\ is_number_char c = true.
Proof.
  unfold number_survives. intros H. apply andb_true_iff in H as [Hc Hl].
  destruct (number_to_json x) as [|c r].
  - discriminate.
  - exists c, r. simpl in Hc. apply andb_true_iff in Hc as [Hc _]. auto.
Qed.

Lemma stringify_starts (v : json) :
  numbers_survive v = true -> starts_value (stringify v).
Proof.
  unfold starts_value. destruct v as [|[|]|x|s|l|o]; intros H.
  - eexists _, _; repeat split; try reflexivity; discriminate.
  - eexists _, _; repeat split; try reflexivity; discriminate.
  - eexists _, _; repeat split; try reflexivity; discriminate.
  - destruct (number_text_head x H) as (c & r & E & Hc).
    exists c, r. cbn [stringify]. split; [assumption|].
    apply is_number_char_cases in Hc. unfold is_ws. unfold_chars.
    repeat split; [ncmp; reflexivity | lia | lia].
  - eexists _, _; repeat split; try reflexivity; discriminate.
  - eexists _, _; repeat split; try reflexivity; discriminate.
  - eexists _, _; repeat split; try reflexivity; discriminate.
Qed.

Lemma skip_ws_starts (s rest : jsstring) :
  starts_value s -> skip_ws (s ++ rest) = s ++ rest.
Proof.
  intros (c & r & -> & Hc & _). simpl. now rewrite Hc.
Qed.

Lemma number_reads_back (x : number) :
  number_survives x = true -> reads_back (JNum x).
Proof.
  intros H rest Hrest. exists 1%nat. intros [|f] Hf; [lia|].
  destruct (number_text_head x H) as (c & r & E & Hc).
  pose proof H as H'. unfold number_survives in H'.
  apply andb_true_iff in H' as [Hall Hlit].
  cbn [stringify parse_value]. rewrite E. cbn [List.app skip_ws].
  pose proof (is_number_char_cases c Hc) as Hcases.
  assert (Hws : is_ws c = false).
  { unfold is_ws. ncmp. reflexivity. }
  rewrite Hws. unfold_chars.
  replace (c =? 91) with false by (symmetry; apply N.eqb_neq; lia).
  replace (c =? 123) with false by (symmetry; apply N.eqb_neq; lia).
  replace (c =? 34) with false by (symmetry; apply N.eqb_neq; lia).
  replace (c =? 110) with false by (symmetry; apply N.eqb_neq; lia).
  replace (c =? 116) with false by (symmetry; apply N.eqb_neq; lia).
  replace (c =? 102) with false by (symmetry; apply N.eqb_neq; lia).
  unfold parse_number.
  change (c :: r ++ rest) with ((c :: r) ++ rest). rewrite <- E.
  rewrite (span_number_app _ _ Hall Hrest).
  destruct (number_of_literal (number_to_json x)) as [y|]; [|discriminate].
  apply number_eqb_eq in Hlit. now subst y.
Qed.

Lemma string_reads_back (s : jsstring) : reads_back (JStr s).
Proof.
  intros rest _. exists 1%nat. intros [|f] Hf; [lia|].
  cbn [stringify]. unfold quote. rewrite <- app_comm_cons, <- app_assoc.
  cbn [List.app]. cbn [parse_value skip_ws].
  change (is_ws QUOTE) with false. cbn iota.
  change (QUOTE =? LBRACKET) with false.
  change (QUOTE =? LBRACE) with false.
  change (QUOTE =? QUOTE) with true. cbn iota.
  now rewrite parse_chars_escape.
Qed.

Lemma elements_read_back (l : list json) (rest : jsstring) :
  l <> [] -> Forall reads_back l ->
  exists fuel, forall fuel', (fuel <= fuel')%nat ->
    parse_elements fuel' (join (List.map stringify l) ++ RBRACKET :: rest)
    = Parsed (l, rest).
Proof.
  intros Hne Hall. induction Hall as [|x l Hx Hl IH]; [contradiction|].
  destruct l as [|y l'].
  - destruct (Hx (RBRACKET :: rest) eq_refl) as [fx Hfx].
    exists (S fx). intros [|f] Hf; [lia|].
    cbn [List.map join parse_elements]. rewrite Hfx by lia.
    reflexivity.
  - destruct (IH ltac:(discriminate)) as [fl Hfl].
    destruct (Hx (COMMA :: join (List.map stringify (y :: l'))
                    ++ RBRACKET :: rest) eq_refl) as [fx Hfx].
    exists (S (Nat.max fx fl)). intros [|f] Hf; [lia|].
    change (join (List.map stringify (x :: y :: l')))
      with (stringify x ++ COMMA :: join (List.map stringify (y :: l'))).
    rewrite <- app_assoc. cbn [List.app parse_elements].
    rewrite Hfx by lia.
    change (skip_ws (COMMA :: ?t)) with (COMMA :: t).
    cbn iota. change (COMMA =? COMMA) with true. cbn iota.
    rewrite Hfl by lia. reflexivity.
Qed.

Lemma members_read_back (o : list (jsstring * json)) (rest : jsstring) :
  o <> [] -> Forall (fun kv => reads_back (snd kv)) o ->
  exists fuel, forall fuel', (fuel <= fuel')%nat ->
    parse_members fuel'
      (join (List.map (fun kv => quote (fst kv) ++ COLON :: stringify (snd kv)) o)
         ++ RBRACE :: rest)
    = Parsed (o, rest).
Proof.
  intros Hne Hall. induction Hall as [|[k v] o Hx Hl IH]; [contradiction|].
  cbn [fst snd] in Hx.
  destruct o as [|kv' o'].
  - destruct (Hx (RBRACE :: rest) eq_refl) as [fx Hfx].
    exists (S fx). intros [|f] Hf; [lia|].
    cbn [List.map join fst snd]. unfold quote.
    rewrite <- !app_comm_cons, <- !app_assoc. cbn [List.app].
    cbn [parse_members skip_ws].
    change (is_ws QUOTE) with false. cbn iota.
    change (QUOTE =? QUOTE) with true. cbn iota.
    rewrite parse_chars_escape.
    change (skip_ws (COLON :: ?t)) with (COLON :: t).
    cbn iota. change (COLON =? COLON) with true. cbn iota.
    rewrite Hfx by lia. reflexivity.
  - destruct (IH ltac:(discriminate)) as [fl Hfl].
    set (tail := join (List.map
                   (fun kv => quote (fst kv) ++ COLON :: stringify (snd kv))
                   (kv' :: o'))) in *.
    destruct (Hx (COMMA :: tail ++ RBRACE :: rest) eq_refl) as [fx Hfx].
    exists (S (Nat.max fx fl)). intros [|f] Hf; [lia|].
    change (join (List.map
              (fun kv => quote (fst kv) ++ COLON :: stringify (snd kv))
              ((k, v) :: kv' :: o')))
      with ((quote k ++ COLON :: stringify v) ++ COMMA :: tail).
    unfold quote.
    rewrite <- !app_comm_cons, <- !app_assoc. cbn [List.app].
    cbn [parse_members skip_ws].
    change (is_ws QUOTE) with false. cbn iota.
    change (QUOTE =? QUOTE) with true. cbn iota.
    rewrite parse_chars_escape.
    change (skip_ws (COLON :: ?t)) with (COLON :: t).
    cbn iota. change (COLON =? COLON) with true. cbn iota.
    cbn [List.app]. rewrite Hfx by lia.
    change (skip_ws (COMMA :: ?t)) with (COMMA :: t).
    cbn iota. change (COMMA =? COMMA) with true. cbn iota.
    rewrite Hfl by lia. reflexivity.
Qed.

Lemma join_starts (x : json) (l : list json) :
  starts_value (stringify x) ->
  starts_value (join (List.map stringify (x :: l))).
Proof.
  intros (c & r & E & H). destruct l as [|y l]; cbn [List.map join].
  - exists c, r. auto.
  - rewrite E. exists c, (r ++ COMMA :: join (List.map stringify (y :: l))).
    auto.
Qed.

Lemma parse_value_array (f : nat) (u rest : jsstring) :
  starts_value u ->
  parse_value (S f) (LBRACKET :: u ++ rest)
  = match parse_elements f (u ++ rest) with
    | Parsed (l, r2) => Parsed (JArr l, r2)
    | SyntaxError => SyntaxError
    | OutOfFuel => OutOfFuel
    end.
Proof.
  intros (c & r & -> & Hws & Hb & _).
  cbn [parse_value skip_ws List.app].
  change (is_ws LBRACKET) with false. cbn iota.
  change (LBRACKET =? LBRACKET) with true. cbn iota.
  cbn [skip_ws]. rewrite Hws. apply N.eqb_neq in Hb. rewrite Hb. reflexivity.
Qed.

Lemma parse_value_object (f : nat) (k rest : jsstring) :
  parse_value (S f) (LBRACE :: quote k ++ rest)
  = match parse_members f (quote k ++ rest) with
    | Parsed (m, r2) => Parsed (JObj (obj_set_all [] m), r2)
    | SyntaxError => SyntaxError
    | OutOfFuel => OutOfFuel
    end.
Proof.
  unfold quote. cbn [parse_value skip_ws List.app].
  change (is_ws LBRACE) with false. cbn iota.
  change (LBRACE =? LBRACKET) with false.
  change (LBRACE =? LBRACE) with true. cbn iota.
  cbn [skip_ws]. change (is_ws QUOTE) with false. cbn iota.
  change (QUOTE =? RBRACE) with false. reflexivity.
Qed.

Lemma forallb_Forall {A} (p : A -> bool) (l : list A) :
  forallb p l = true <-> Forall (fun x => p x = true) l.
Proof. rewrite forallb_forall, Forall_forall. reflexivity. Qed.

(** ** Every well-formed value whose numbers survive reads back *)
Lemma value_reads_back (v : json) :
  well_formed v = true -> numbers_survive v = true -> reads_back v.
Proof.
  induction v as [| b | x | s | l IH | o IH] using json_ind; intros Hwf Hnum.
  - intros rest _. exists 1%nat. intros [|f] Hf; [lia|]. reflexivity.
  - intros rest _. exists 1%nat. intros [|f] Hf; [lia|].
    destruct b; reflexivity.
  - now apply number_reads_back.
  - apply string_reads_back.
  - cbn [well_formed numbers_survive] in Hwf, Hnum.
    apply forallb_Forall in Hwf, Hnum.
    assert (Hall : Forall reads_back l).
    { rewrite Forall_forall in *. auto. }
    intros rest Hrest. destruct l as [|x l].
    + exists 1%nat. intros [|f] Hf; [lia|]. reflexivity.
    + destruct (@elements_read_back (x :: l) rest) as [fl Hfl];
        [discriminate | assumption |].
      exists (S fl). intros [|f] Hf; [lia|].
      cbn [stringify]. rewrite <- app_comm_cons, <- app_assoc.
      cbn [List.app]. rewrite parse_value_array.
      * rewrite Hfl by lia. reflexivity.
      * apply join_starts. apply stringify_starts.
        now inversion Hnum.
  - cbn [well_formed numbers_survive] in Hwf, Hnum.
    apply andb_true_iff in Hwf as [Hkeys Hwf].
    apply forallb_Forall in Hwf, Hnum.
    assert (Hall : Forall (fun kv => reads_back (snd kv)) o).
    { rewrite Forall_forall in *. auto. }
    intros rest Hrest. destruct o as [|[k v] o].
    + exists 1%nat. intros [|f] Hf; [lia|]. reflexivity.
    + destruct (@members_read_back ((k, v) :: o) rest) as [fl Hfl];
        [discriminate | assumption |].
      exists (S fl). intros [|f] Hf; [lia|].
      cbn [stringify]. rewrite <- app_comm_cons, <- app_assoc.
      cbn [List.app].
      assert (E : exists t,
                 join (List.map
                   (fun kv => quote (fst kv) ++ COLON :: stringify (snd kv))
                   ((k, v) :: o)) = quote k ++ t).
      { destruct o as [|kv' o']; cbn [List.map join fst snd].
        - eexists. reflexivity.
        - eexists. rewrite <- app_assoc. reflexivity. }
      destruct E as [t E]. specialize (Hfl f ltac:(lia)).
      rewrite E in *. rewrite <- app_assoc in *.
      rewrite parse_value_object, Hfl.
      now rewrite (obj_set_all_id _ Hkeys).
Qed.

(** [JSON.parse(JSON.stringify(v))] is [v]. *)
Lemma JSON_roundtrip (v : json) :
  well_formed v = true -> numbers_survive v = true ->
  JSON_parse (JSON_stringify v) = Some v.
Proof.
  intros Hwf Hnum.
  destruct (value_reads_back v Hwf Hnum [] eq_refl) as [f0 Hf0].
  rewrite app_nil_r in Hf0.
  unfold JSON_parse, JSON_stringify.
  set (s := stringify v) in *.
  set (F := (2 * List.length s + 1)%nat).
  assert (E : parse_value F s = Parsed (v, [])).
  { transitivity (parse_value (Nat.max F f0) s).
    - symmetry. apply (parsers_stable F); [lia | apply parse_value_fuel].
    - apply Hf0. lia. }
  rewrite E. reflexivity.
Qed.

(** Numbers that survive, and numbers that do not: 42, 0.1 and the
    largest finite number do; a literal that overflows to Infinity and
    negative zero do not. *)
Lemma number_survives_examples :
  option_map number_survives (number_of_literal (lit "42")) = Some true
  /\ option_map number_survives (number_of_literal (lit "0.1")) = Some true
  /\ option_map number_survives
       (number_of_literal (lit "1.7976931348623157e308")) = Some true
  /\ option_map number_survives (number_of_literal (lit "1e999")) = Some false
  /\ option_map number_survives (number_of_literal (lit "-0")) = Some false.
Proof. repeat split; vm_compute; reflexivity. Qed.

End RoundTrip.

Section WellFormed.

Lemma well_formed_object (m : list (jsstring * json)) :
  forallb (fun kv => well_formed (snd kv)) m = true ->
  well_formed (JObj (obj_set_all [] m)) = true.
Proof.
  intros H. cbn [well_formed]. apply andb_true_iff. split.
  - now apply obj_set_all_ok.
  - apply forallb_Forall.
    apply (obj_set_all_values (fun v => well_formed v = true)).
    + constructor.
    + now apply forallb_Forall.
Qed.

Lemma parse_keyword_value (kw : jsstring) (x v : json) (s r : jsstring) :
  parse_keyword kw x s = Parsed (v, r) -> v = x.
Proof.
  unfold parse_keyword. destruct (startsWith kw s); [|discriminate].
  now intros [= <- _].
Qed.

Lemma parse_number_value (s r : jsstring) (v : json) :
  parse_number s = Parsed (v, r) -> exists x, v = JNum x.
Proof.
  unfold parse_number. destruct (span_number s) as [t r'].
  destruct (number_of_literal t) as [x|]; [|discriminate].
  intros [= <- _]. now exists x.
Qed.

Ltac case_parsed H IHv IHe IHm :=
  match type of H with
  | context [match skip_ws ?s with _ => _ end] => destruct (skip_ws s)
  | context [match parse_chars ?s with _ => _ end] =>
      destruct (parse_chars s) as [[? ?]|]
  | context [match parse_value ?f ?s with _ => _ end] =>
      let E := fresh "E" in
      destruct (parse_value f s) as [[? ?]| |] eqn:E; [apply IHv in E | |]
  | context [match parse_elements ?f ?s with _ => _ end] =>
      let E := fresh "E" in
      destruct (parse_elements f s) as [[? ?]| |] eqn:E; [apply IHe in E | |]
  | context [match parse_members ?f ?s with _ => _ end] =>
      let E := fresh "E" in
      destruct (parse_members f s) as [[? ?]| |] eqn:E; [apply IHm in E | |]
  | context [if ?b then _ else _] => destruct b
  end.

(** What the parser returns is well formed. *)
Lemma parsers_well_formed (fuel : nat) :
  (forall s v r, parse_value fuel s = Parsed (v, r) -> well_formed v = true)
  /\ (forall s l r, parse_elements fuel s = Parsed (l, r) ->
                    forallb well_formed l = true)
  /\ (forall s m r, parse_members fuel s = Parsed (m, r) ->
                    forallb (fun kv => well_formed (snd kv)) m = true).
Proof.
  induction fuel as [|fuel (IHv & IHe & IHm)].
  - repeat split; intros; discriminate.
  - repeat split; intros s a r H;
      cbn [parse_value parse_elements parse_members] in H;
      repeat case_parsed H IHv IHe IHm; try discriminate;
      first
        [ apply parse_keyword_value in H; subst; reflexivity
        | apply parse_number_value in H as [x ->]; reflexivity
        | injection H as <- _;
          first [ reflexivity
                | assumption
                | now apply well_formed_object
                | cbn [forallb snd];
                  repeat match goal with
                         | Hx : _ = true |- _ => rewrite Hx
                         end; reflexivity ] ].
Qed.

Lemma JSON_parse_well_formed (s : jsstring) (v : json) :
  JSON_parse s = Some v -> well_formed v = true.
Proof.
  unfold JSON_parse.
  destruct (parse_value (2 * List.length s + 1) s) as [[v' r]| |] eqn:E;
    try discriminate.
  destruct (skip_ws r); [|discriminate].
  intros [= <-]. now apply (parsers_well_formed _) in E.
Qed.

Lemma JSON_parse_empty : JSON_parse [] = None.
Proof. reflexivity. Qed.

Lemma indexed_values {A} (P : json -> Prop) (f : A -> json) (l : list A) :
  (forall x, In x l -> P (f x)) ->
  forall i, Forall (fun kv => P (snd kv)) (indexed f i l).
Proof.
  induction l as [|x l IH]; intros H i; simpl; constructor.
  - apply H. now left.
  - apply IH. intros y Hy. apply H. now right.
Qed.

Lemma own_properties_well_formed (v : json) :
  well_formed v = true ->
  forallb (fun kv => well_formed (snd kv)) (own_properties v) = true.
Proof.
  intros H. apply forallb_Forall. destruct v as [|b|x|s|l|o]; simpl;
    try constructor.
  - apply (indexed_values (fun v => well_formed v = true)). reflexivity.
  - apply (indexed_values (fun v => well_formed v = true)).
    cbn [well_formed] in H. rewrite forallb_forall in H. auto.
  - cbn [well_formed] in H. apply andb_true_iff in H as [_ H].
    now apply forallb_Forall in H.
Qed.

Lemma code_points_well_formed (s : jsstring) :
  forallb well_formed (code_points s) = true.
Proof.
  assert (H : forall n s, (List.length s <= n)%nat ->
                          forallb well_formed (code_points s) = true).
  { clear s. induction n as [|n IH]; intros s Hn.
    - destruct s; [reflexivity | simpl in Hn; lia].
    - destruct s as [|c r]; [reflexivity|]. simpl in Hn. cbn [code_points].
      destruct (is_high_surrogate c).
      + destruct r as [|d r']; [reflexivity|].
        destruct (is_low_surrogate d); cbn [forallb well_formed andb];
          apply IH; simpl in *; lia.
      + cbn [forallb well_formed andb]. apply IH. lia. }
  now apply (H (List.length s)).
Qed.

Lemma iterate_well_formed (v : json) (l : list json) :
  well_formed v = true -> iterate v = Some l -> forallb well_formed l = true.
Proof.
  destruct v; simpl; try discriminate; intros H [= <-].
  - apply code_points_well_formed.
  - assumption.
Qed.

Lemma forallb_firstn {A} (p : A -> bool) (n : nat) (l : list A) :
  forallb p l = true -> forallb p (firstn n l) = true.
Proof.
  revert n; induction l as [|x l IH]; intros [|n] H; try reflexivity.
  simpl in *. apply andb_true_iff in H as [Hx Hl].
  now rewrite Hx, IH.
Qed.

End WellFormed.

(* ================================================================== *)
(** * Facts about the component                                        *)
(* ================================================================== *)

Section Analysis.

(** What a completed [try] block has done. *)
Lemma analyze_Normal (env : AnalyzeEnv) (f : File) (st0 : State)
  (w : World) (st : State) (w' : World) (st' : State) :
  analyze env f st0 w st = Normal w' st' ->
  exists t analysisResult older,
    client_ok env = true /\ reader_ok env = true
    /\ respond env (request_for f st0) = Some t
    /\ parse_response t = Some analysisResult
    /\ iterate (history st0) = Some older
    /\ let updatedHistory :=
         JArr (firstn HISTORY_LIMIT
                 (newHistoryItem analysisResult (now_iso env) (now_locale env)
                    (previewUrl st0) (type f) (promptText st0) :: older)) in
       storage_accepts env (JSON_stringify updatedHistory) = true
       /\ w' = setItem HISTORY_KEY (JSON_stringify updatedHistory)
                 (send (request_for f st0) w)
       /\ st' = setHistory updatedHistory (setResult analysisResult st).
Proof.
  unfold analyze, fileToBase64, request_for.
  destruct (client_ok env); [|discriminate].
  destruct (reader_ok env); [|discriminate].
  destruct (respond env _) as [t|] eqn:Et; [|discriminate].
  destruct (parse_response t) as [a|] eqn:Ea; [|discriminate].
  destruct (iterate (history st0)) as [older|] eqn:Ei; [|discriminate].
  destruct (storage_accepts env _) eqn:Es; [|discriminate].
  intros [= <- <-]. exists t, a, older. cbv zeta. auto 10.
Qed.

(** The conditions under which the [try] block completes. *)
Lemma analyze_completes (env : AnalyzeEnv) (f : File) (st0 : State)
  (w : World) (st : State) (t : option jsstring) (analysisResult : json)
  (older : list json) :
  client_ok env = true -> reader_ok env = true ->
  respond env (request_for f st0) = Some t ->
  parse_response t = Some analysisResult ->
  iterate (history st0) = Some older ->
  let updatedHistory :=
    JArr (firstn HISTORY_LIMIT
            (newHistoryItem analysisResult (now_iso env) (now_locale env)
               (previewUrl st0) (type f) (promptText st0) :: older)) in
  storage_accepts env (JSON_stringify updatedHistory) = true ->
  analyze env f st0 w st
  = Normal (setItem HISTORY_KEY (JSON_stringify updatedHistory)
              (send (request_for f st0) w))
      (setHistory updatedHistory (setResult analysisResult st)).
Proof.
  intros Hc Hr Ht Ha Hi updated Hs.
  unfold analyze, fileToBase64. rewrite Hc, Hr.
  fold (request_for f st0). rewrite Ht, Ha, Hi.
  fold updated. rewrite Hs. reflexivity.
Qed.

(** The ways in which the [try] block ends before it has a result. *)
Lemma analyze_early (env : AnalyzeEnv) (f : File) (st0 : State)
  (w : World) (st : State) :
  client_ok env = false
  \/ reader_ok env = false
  \/ respond env (request_for f st0) = None
  \/ (exists t, respond env (request_for f st0) = Some t
                /\ parse_response t = None) ->
  exists e w', analyze env f st0 w st = Thrown e w' st
               /\ localStorage w' = localStorage w.
Proof.
  intros H. unfold analyze, fileToBase64. fold (request_for f st0).
  destruct (client_ok env) eqn:Hc; [|eexists _, _; split; reflexivity].
  destruct (reader_ok env) eqn:Hr; [|eexists _, _; split; reflexivity].
  cbv zeta. fold (request_for f st0).
  destruct (respond env (request_for f st0)) as [t|] eqn:Ht;
    [|eexists _, _; split; reflexivity].
  destruct (parse_response t) as [a|] eqn:Hp;
    [|eexists _, _; split; reflexivity].
  exfalso. destruct H as [H|[H|[H|(t' & H & Hn)]]]; try discriminate.
  congruence.
Qed.

(** A run of the handler succeeds exactly when it ends without an error
    message. *)
Lemma succeeds_iff_no_error (env : AnalyzeEnv) (w : World) (st : State) :
  succeeds env w st <-> error (snd (handleAnalyze env w st)) = None.
Proof.
  unfold succeeds, handleAnalyze. split.
  - intros (f & w' & st' & Hf & Ha). rewrite Hf, Ha. cbn.
    apply analyze_Normal in Ha as (t & a & older & _ & _ & _ & _ & _ & Hrest).
    cbv zeta in Hrest. destruct Hrest as (_ & _ & ->). reflexivity.
  - destruct (file st) as [f|]; [|discriminate].
    destruct (analyze env f st w _) as [w' st'|e w' st'] eqn:Ea.
    + intros _. now exists f, w', st'.
    + discriminate.
Qed.

(** The history that a successful analysis leaves. *)
Lemma history_after_success (env : AnalyzeEnv) (w : World) (st : State)
  (older : list json) :
  succeeds env w st -> iterate (history st) = Some older ->
  exists f t analysisResult,
    file st = Some f
    /\ respond env (request_for f st) = Some t
    /\ parse_response t = Some analysisResult
    /\ history (snd (handleAnalyze env w st))
       = JArr (firstn HISTORY_LIMIT
                 (newHistoryItem analysisResult (now_iso env) (now_locale env)
                    (previewUrl st) (type f) (promptText st) :: older)).
Proof.
  intros (f & w' & st' & Hf & Ha) Hh.
  pose proof Ha as Hn.
  apply analyze_Normal in Hn
    as (t & a & older' & _ & _ & Ht & Hp & Hi & Hrest).
  cbv zeta in Hrest. destruct Hrest as (_ & _ & Hst).
  rewrite Hh in Hi. injection Hi as <-.
  exists f, t, a. repeat split; try assumption.
  unfold handleAnalyze. rewrite Hf, Ha. cbn. now rewrite Hst.
Qed.

End Analysis.

Section Handlers.

Lemma obj_get_replace (k : jsstring) (v : json) (o : list (jsstring * json)) :
  has_key k o = true -> obj_get k (replace_value k v o) = Some v.
Proof.
  induction o as [|[k' v'] o IH]; simpl; [discriminate|].
  destruct (str_eqb k k') eqn:E; simpl; rewrite E; auto.
Qed.

Lemma obj_get_insert (k : jsstring) (v : json) (o : list (jsstring * json)) :
  has_key k o = false -> obj_get k (insert_key k v o) = Some v.
Proof.
  induction o as [|[k' v'] o IH]; simpl.
  - now rewrite str_eqb_refl.
  - intros H. apply orb_false_iff in H as [E H].
    destruct (rank k <? rank k'); simpl.
    + now rewrite str_eqb_refl.
    + rewrite E. auto.
Qed.

(** Reading a property that has just been assigned. *)
Lemma obj_get_set (o : list (jsstring * json)) (k : jsstring) (v : json) :
  obj_get k (obj_set o k v) = Some v.
Proof.
  unfold obj_set. destruct (has_key k o) eqn:E.
  - now apply obj_get_replace.
  - now apply obj_get_insert.
Qed.

(** Reading another property than the one assigned. *)
Lemma obj_get_set_other (o : list (jsstring * json)) (k k' : jsstring)
  (v : json) :
  str_eqb k k' = false -> obj_get k (obj_set o k' v) = obj_get k o.
Proof.
  intros Hk. unfold obj_set. destruct (has_key k' o).
  - induction o as [|[k0 v0] o IH]; simpl; [reflexivity|].
    destruct (str_eqb k' k0) eqn:E; simpl.
    + apply str_eqb_eq in E. subst k0. now rewrite Hk.
    + now rewrite IH.
  - induction o as [|[k0 v0] o IH]; simpl.
    + now rewrite Hk.
    + destruct (rank k' <? rank k0); simpl.
      * now rewrite Hk.
      * now rewrite IH.
Qed.

(** The [file] property of a new item, and the [prompt] one. *)
Lemma newHistoryItem_file (a : json) (id ts : jsstring)
  (url : option jsstring) (ty p : jsstring) :
  get (lit "file") (newHistoryItem a id ts url ty p)
  = Some (JObj [(lit "dataUrl", nullable url); (lit "type", JStr ty)]).
Proof.
  unfold newHistoryItem, get. cbn [obj_set_all fold_left fst snd].
  rewrite obj_get_set_other by reflexivity.
  rewrite obj_get_set. reflexivity.
Qed.

Lemma newHistoryItem_prompt (a : json) (id ts : jsstring)
  (url : option jsstring) (ty p : jsstring) :
  get (lit "prompt") (newHistoryItem a id ts url ty p) = Some (JStr p).
Proof.
  unfold newHistoryItem, get. cbn [obj_set_all fold_left fst snd].
  now rewrite obj_get_set.
Qed.

Lemma newHistoryItem_well_formed (a : json) (id ts : jsstring)
  (url : option jsstring) (ty p : jsstring) :
  well_formed a = true ->
  well_formed (newHistoryItem a id ts url ty p) = true.
Proof.
  intros Ha. unfold newHistoryItem. cbn [well_formed].
  apply andb_true_iff. split.
  - apply obj_set_all_ok. now apply obj_set_all_ok.
  - apply forallb_Forall.
    apply (obj_set_all_values (fun v => well_formed v = true)).
    + apply (obj_set_all_values (fun v => well_formed v = true)).
      * constructor.
      * apply forallb_Forall. now apply own_properties_well_formed.
    + repeat constructor. destruct url; reflexivity.
Qed.

(** However the [try] block ends, a well-formed history stays so. *)
Lemma analyze_well_formed (env : AnalyzeEnv) (f : File) (st0 : State)
  (w : World) (st : State) :
  well_formed (history st0) = true -> well_formed (history st) = true ->
  match analyze env f st0 w st with
  | Normal _ st' => well_formed (history st') = true
  | Thrown _ _ st' => well_formed (history st') = true
  end.
Proof.
  intros H0 H. unfold analyze.
  destruct (client_ok env); [|assumption].
  destruct (fileToBase64 (reader_ok env) f) as [e|b]; [assumption|].
  cbv zeta. destruct (respond env _) as [t|]; [|assumption].
  destruct (parse_response t) as [a|] eqn:Ea; [|assumption].
  destruct (iterate (history st0)) as [older|] eqn:Ei; [|assumption].
  assert (Hu : well_formed
                 (JArr (firstn HISTORY_LIMIT
                          (newHistoryItem a (now_iso env) (now_locale env)
                             (previewUrl st0) (type f) (promptText st0)
                           :: older))) = true).
  { cbn [well_formed]. apply forallb_firstn. cbn [forallb].
    apply andb_true_iff. split.
    - apply newHistoryItem_well_formed.
      unfold parse_response in Ea. now apply JSON_parse_well_formed in Ea.
    - now apply (iterate_well_formed (history st0)). }
  destruct (storage_accepts env _); exact Hu.
Qed.

Lemma own_properties_survive (v : json) :
  numbers_survive v = true ->
  forallb (fun kv => numbers_survive (snd kv)) (own_properties v) = true.
Proof.
  intros H. apply forallb_Forall. destruct v as [|b|x|s|l|o]; simpl;
    try constructor.
  - apply (indexed_values (fun v => numbers_survive v = true)). reflexivity.
  - apply (indexed_values (fun v => numbers_survive v = true)).
    cbn [numbers_survive] in H. rewrite forallb_forall in H. auto.
  - cbn [numbers_survive] in H. now apply forallb_Forall in H.
Qed.

(** A new item adds only strings to what the response brought. *)
Lemma newHistoryItem_survives (a : json) (id ts : jsstring)
  (url : option jsstring) (ty p : jsstring) :
  numbers_survive a = true ->
  numbers_survive (newHistoryItem a id ts url ty p) = true.
Proof.
  intros Ha. unfold newHistoryItem. cbn [numbers_survive].
  apply forallb_Forall.
  apply (obj_set_all_values (fun v => numbers_survive v = true)).
  - apply (obj_set_all_values (fun v => numbers_survive v = true)).
    + constructor.
    + apply forallb_Forall. now apply own_properties_survive.
  - repeat constructor. destruct url; reflexivity.
Qed.

Lemma code_points_survive (s : jsstring) :
  forallb numbers_survive (code_points s) = true.
Proof.
  assert (H : forall n s, (List.length s <= n)%nat ->
                          forallb numbers_survive (code_points s) = true).
  { clear s. induction n as [|n IH]; intros s Hn.
    - destruct s; [reflexivity | simpl in Hn; lia].
    - destruct s as [|c r]; [reflexivity|]. simpl in Hn. cbn [code_points].
      destruct (is_high_surrogate c).
      + destruct r as [|d r']; [reflexivity|].
        destruct (is_low_surrogate d); cbn [forallb numbers_survive andb];
          apply IH; simpl in *; lia.
      + cbn [forallb numbers_survive andb]. apply IH. lia. }
  now apply (H (List.length s)).
Qed.

(** The proviso of the round trip, in terms of what goes in: when the
    numbers of the previous history and of the response survive, and in
    particular when there are none, those of the new history do. *)
Lemma numbers_survive_analysis (env : AnalyzeEnv) (w : World) (st : State)
  (f : File) (t : option jsstring) (a : json) :
  succeeds env w st ->
  file st = Some f -> respond env (request_for f st) = Some t ->
  parse_response t = Some a ->
  numbers_survive (history st) = true -> numbers_survive a = true ->
  numbers_survive (history (snd (handleAnalyze env w st))) = true.
Proof.
  intros Hs Hf Ht Hp Hh Ha.
  destruct Hs as (f' & w' & st' & Hf' & Hn).
  pose proof Hn as Hd.
  apply analyze_Normal in Hd
    as (t' & a' & older & _ & _ & Ht' & Hp' & Hi & Hrest).
  cbv zeta in Hrest. destruct Hrest as (_ & _ & Hst).
  unfold handleAnalyze. rewrite Hf', Hn. cbn [snd]. subst st'.
  cbn [history setLoading setHistory numbers_survive].
  assert (f' = f) by congruence. subst f'.
  assert (t' = t) by congruence. subst t'.
  assert (a' = a) by congruence. subst a'.
  apply forallb_firstn. cbn [forallb]. apply andb_true_iff. split.
  - now apply newHistoryItem_survives.
  - destruct (history st) as [| | |s|l|]; try discriminate;
      injection Hi as <-.
    + apply code_points_survive.
    + exact Hh.
Qed.

(** Only an analysis changes the history. *)
Lemma handle_keeps_history (ev : event) (w : World) (st : State) :
  is_analysis ev = false -> history (snd (handle ev w st)) = history st.
Proof.
  destruct ev as [sel o u | p | env | m | g | | env]; intros H;
    try discriminate; cbn.
  - destruct sel; reflexivity.
  - reflexivity.
  - destruct m; reflexivity.
  - unfold handleStartCamera. destruct (isCameraOn st); [reflexivity|].
    destruct g; reflexivity.
  - reflexivity.
  - unfold handleCapturePhoto. cbn.
    destruct (refs_mounted st && context2d env); [|reflexivity].
    destruct (blob env); reflexivity.
Qed.


Lemma handle_well_formed (ev : event) (w : World) (st : State) :
  well_formed (history st) = true ->
  well_formed (history (snd (handle ev w st))) = true.
Proof.
  intros H. destruct (is_analysis ev) eqn:E.
  - destruct ev; try discriminate. cbn [handle]. unfold handleAnalyze.
    destruct (file st) as [f|]; [|assumption].
    pose proof (analyze_well_formed env f st w
                  (setResult JNull (setError None (setLoading true st)))
                  H H) as Ha.
    destruct (analyze env f st w _); exact Ha.
  - now rewrite handle_keeps_history.
Qed.

Lemma startup_well_formed (readable : bool) (w : World) :
  well_formed (history (snd (startup readable w))) = true.
Proof.
  unfold startup, loadHistory. destruct readable; [|reflexivity].
  destruct (getItem HISTORY_KEY w) as [[|c r]|]; try reflexivity.
  destruct (JSON_parse (c :: r)) as [v|] eqn:E; [|reflexivity].
  cbn. now apply JSON_parse_well_formed in E.
Qed.

(** In every run the history is a well-formed value. *)
Lemma run_well_formed (evs : list event) (readable : bool) (w : World) :
  well_formed (history (snd (run evs (startup readable w)))) = true.
Proof.
  assert (H : forall evs ws, well_formed (history (snd ws)) = true ->
                             well_formed (history (snd (run evs ws))) = true).
  { clear evs. induction evs as [|ev evs IH]; intros ws Hws; [assumption|].
    cbn [run fold_left]. fold (run evs (handle ev (fst ws) (snd ws))).
    apply IH. now apply handle_well_formed. }
  apply H. apply startup_well_formed.
Qed.

Lemma getItem_setItem (k v : jsstring) (w : World) :
  getItem k (setItem k v w) = Some v.
Proof. unfold getItem, setItem. cbn. now rewrite str_eqb_refl. Qed.

(** The requests that one call of the handler adds. *)
Lemma handleAnalyze_requests (env : AnalyzeEnv) (w : World) (st : State) :
  requests (fst (handleAnalyze env w st)) = requests w
  \/ exists f, file st = Some f
               /\ requests (fst (handleAnalyze env w st))
                  = requests w ++ [request_for f st].
Proof.
  unfold handleAnalyze. destruct (file st) as [f|]; [|now left].
  unfold analyze, fileToBase64, request_for.
  destruct (client_ok env); [|now left].
  destruct (reader_ok env); [|now left].
  right. exists f. split; [reflexivity|]. cbv zeta.
  destruct (respond env _) as [t|]; [|reflexivity].
  destruct (parse_response t); [|reflexivity].
  destruct (iterate (history st)); [|reflexivity].
  destruct (storage_accepts env _); reflexivity.
Qed.

End Handlers.

(* ================================================================== *)
(** * The claims                                                       *)
(* ================================================================== *)

Section Claims.

(** C1.  After every successful analysis of a history that is a list,
    the history is the list of the first ten of: the newly built item,
    then the previous items.  Its length is the smaller of 10 and the
    previous length plus one, the new item is at index 0, the item that
    was at index [i] is at index [i + 1] as long as that is below 10,
    and nothing is kept from index 10 on. *)
Theorem history_prepended_and_capped (env : AnalyzeEnv) (w : World)
  (st : State) (older : list json) :
  succeeds env w st -> history st = JArr older ->
  exists f t analysisResult updated,
    file st = Some f
    /\ respond env (request_for f st) = Some t
    /\ parse_response t = Some analysisResult
    /\ history (snd (handleAnalyze env w st)) = JArr updated
    /\ List.length updated = Nat.min 10 (List.length older + 1)
    /\ nth_error updated 0
       = Some (newHistoryItem analysisResult (now_iso env) (now_locale env)
                 (previewUrl st) (type f) (promptText st))
    /\ (forall i, (i + 1 < 10)%nat ->
                  nth_error updated (i + 1) = nth_error older i)
    /\ (forall i, (10 <= i + 1)%nat -> nth_error updated (i + 1) = None).
Proof.
  intros Hs Hh.
  assert (Hi : iterate (history st) = Some older) by now rewrite Hh.
  destruct (history_after_success env w st older Hs Hi)
    as (f & t & a & Hf & Ht & Hp & Hu).
  exists f, t, a, (firstn HISTORY_LIMIT
                     (newHistoryItem a (now_iso env) (now_locale env)
                        (previewUrl st) (type f) (promptText st) :: older)).
  split; [exact Hf|]. split; [exact Ht|]. split; [exact Hp|].
  split; [exact Hu|]. unfold HISTORY_LIMIT. split; [|split; [|split]].
  - rewrite length_firstn. cbn [List.length]. lia.
  - reflexivity.
  - intros i Hlt. rewrite nth_error_firstn.
    destruct (Nat.ltb_spec (i + 1) 10); [|lia].
    rewrite Nat.add_1_r. reflexivity.
  - intros i Hge. rewrite nth_error_firstn.
    destruct (Nat.ltb_spec (i + 1) 10); [lia | reflexivity].
Qed.

Lemma history_prepended_and_capped_witness :
  succeeds (Scenario.answering Scenario.comfort)
    (fst Scenario.picked) (snd Scenario.picked)
  /\ exists updated,
       history (snd (handleAnalyze (Scenario.answering Scenario.comfort)
                       (fst Scenario.picked) (snd Scenario.picked)))
       = JArr updated
       /\ List.length updated = 1%nat.
Proof.
  assert (H : succeeds (Scenario.answering Scenario.comfort)
                (fst Scenario.picked) (snd Scenario.picked)).
  { eexists _, _, _. split; vm_compute; reflexivity. }
  split; [exact H|].
  destruct (history_prepended_and_capped
              (Scenario.answering Scenario.comfort)
              (fst Scenario.picked) (snd Scenario.picked) [] H eq_refl)
    as (f & t & a & updated & _ & _ & _ & Hu & Hlen & _).
  exists updated. split; [exact Hu | exact Hlen].
Defined.

(** C3, as the code has it.  A response whose text parses as JSON is
    accepted whatever fields it has: the result is the parsed value, no
    error message is set, and an item built from it is put in front of
    the history.  (The history must be iterable and the storage must
    take the snapshot, as in every successful analysis.) *)
Theorem parsed_response_is_accepted (env : AnalyzeEnv) (w : World)
  (st : State) (f : File) (t : option jsstring) (v : json)
  (older : list json) :
  file st = Some f -> client_ok env = true -> reader_ok env = true ->
  respond env (request_for f st) = Some t ->
  parse_response t = Some v ->
  iterate (history st) = Some older ->
  (forall s, storage_accepts env s = true) ->
  result (snd (handleAnalyze env w st)) = v
  /\ error (snd (handleAnalyze env w st)) = None
  /\ loading (snd (handleAnalyze env w st)) = false
  /\ history (snd (handleAnalyze env w st))
     = JArr (firstn 10
               (newHistoryItem v (now_iso env) (now_locale env)
                  (previewUrl st) (type f) (promptText st) :: older)).
Proof.
  intros Hf Hc Hr Ht Hp Hi Hs.
  unfold handleAnalyze. rewrite Hf.
  rewrite (analyze_completes env f st w _ t v older Hc Hr Ht Hp Hi (Hs _)).
  cbn. auto.
Qed.

Lemma parsed_response_is_accepted_witness :
  result (snd (handleAnalyze (Scenario.answering (lit "{}"))
                 (fst Scenario.picked) (snd Scenario.picked))) = JObj []
  /\ error (snd (handleAnalyze (Scenario.answering (lit "{}"))
                   (fst Scenario.picked) (snd Scenario.picked))) = None.
Proof.
  destruct (parsed_response_is_accepted (Scenario.answering (lit "{}"))
              (fst Scenario.picked) (snd Scenario.picked)
              Scenario.dog_jpg (Some (lit "{}")) (JObj []) []
              eq_refl eq_refl eq_refl eq_refl eq_refl eq_refl
              (fun _ => eq_refl))
    as (Hres & Herr & _).
  split; [exact Hres | exact Herr].
Defined.

(** C3, as stated, fails: the response [{}] parses, has none of the
    three fields, and yet the result is set, no error is shown and the
    history changes. *)
Lemma missing_fields_are_not_a_failure :
  parse_response (Some (lit "{}")) = Some (JObj [])
  /\ get (lit "behavior") (JObj []) = None
  /\ ~ (result (snd (handleAnalyze (Scenario.answering (lit "{}"))
                       (fst Scenario.picked) (snd Scenario.picked))) = JNull
        /\ error (snd (handleAnalyze (Scenario.answering (lit "{}"))
                         (fst Scenario.picked) (snd Scenario.picked)))
           = Some MSG_FAILED
        /\ history (snd (handleAnalyze (Scenario.answering (lit "{}"))
                           (fst Scenario.picked) (snd Scenario.picked)))
           = history (snd Scenario.picked)).
Proof.
  split; [reflexivity|]. split; [reflexivity|].
  intros (H & _). vm_compute in H. discriminate.
Qed.

(** C4.  When the attempt fails because the client cannot be built, the
    file cannot be read, the request is rejected or the response text
    is not JSON, the handler leaves the failure message, a null result
    and a cleared loading flag; the history, the selected media and the
    context are what they were, and the storage is untouched. *)
Theorem failed_analysis_is_atomic (env : AnalyzeEnv) (w : World)
  (st : State) (f : File) :
  file st = Some f ->
  client_ok env = false
  \/ reader_ok env = false
  \/ respond env (request_for f st) = None
  \/ (exists t, respond env (request_for f st) = Some t
                /\ parse_response t = None) ->
  error (snd (handleAnalyze env w st)) = Some MSG_FAILED
  /\ result (snd (handleAnalyze env w st)) = JNull
  /\ loading (snd (handleAnalyze env w st)) = false
  /\ history (snd (handleAnalyze env w st)) = history st
  /\ localStorage (fst (handleAnalyze env w st)) = localStorage w
  /\ file (snd (handleAnalyze env w st)) = file st
  /\ previewUrl (snd (handleAnalyze env w st)) = previewUrl st
  /\ promptText (snd (handleAnalyze env w st)) = promptText st.
Proof.
  intros Hf H. unfold handleAnalyze. rewrite Hf.
  destruct (analyze_early env f st w
              (setResult JNull (setError None (setLoading true st))) H)
    as (e & w' & -> & Hw).
  cbn. rewrite Hw, Hf. auto 10.
Qed.

Lemma failed_analysis_is_atomic_witness :
  error (snd (handleAnalyze Scenario.offline
                (fst Scenario.picked) (snd Scenario.picked)))
  = Some MSG_FAILED
  /\ history (snd (handleAnalyze Scenario.offline
                     (fst Scenario.picked) (snd Scenario.picked)))
     = JArr [].
Proof.
  destruct (failed_analysis_is_atomic Scenario.offline
              (fst Scenario.picked) (snd Scenario.picked)
              Scenario.dog_jpg eq_refl
              (or_intror (or_intror (or_introl eq_refl))))
    as (He & _ & _ & Hh & _).
  split; [exact He | exact Hh].
Defined.

(** C5.  With no media selected the handler only sets the message that
    asks for one.  The world is the same afterwards, so no request was
    sent and nothing was stored, and every other cell of the state,
    among them the history, the result and the loading flag, keeps its
    value. *)
Theorem analyze_without_media (env : AnalyzeEnv) (w : World) (st : State) :
  file st = None ->
  handleAnalyze env w st = (w, setError (Some MSG_NO_FILE) st)
  /\ requests (fst (handleAnalyze env w st)) = requests w
  /\ error (snd (handleAnalyze env w st)) = Some MSG_NO_FILE
  /\ history (snd (handleAnalyze env w st)) = history st
  /\ result (snd (handleAnalyze env w st)) = result st
  /\ loading (snd (handleAnalyze env w st)) = loading st.
Proof.
  intros Hf. unfold handleAnalyze. rewrite Hf. cbn. auto 10.
Qed.

Lemma analyze_without_media_witness :
  file initial_state = None
  /\ handleAnalyze (Scenario.answering Scenario.comfort)
       Scenario.fresh_world initial_state
     = (Scenario.fresh_world, setError (Some MSG_NO_FILE) initial_state).
Proof.
  split; [reflexivity|].
  exact (proj1 (analyze_without_media (Scenario.answering Scenario.comfort)
                  Scenario.fresh_world initial_state eq_refl)).
Defined.

(** C2, as the code has it.  In every run of the component, after a
    successful analysis the snapshot stored under the history key parses
    back to exactly the history in memory, provided every number in
    that history is one that JSON text can carry (finite and not
    negative zero), which is the case when the fields of the items are
    strings. *)
Theorem snapshot_reads_back (readable : bool) (w0 : World)
  (evs : list event) (env : AnalyzeEnv) :
  succeeds env (fst (run evs (startup readable w0)))
    (snd (run evs (startup readable w0))) ->
  numbers_survive
    (history (snd (handleAnalyze env (fst (run evs (startup readable w0)))
                     (snd (run evs (startup readable w0)))))) = true ->
  persisted_history
    (fst (handleAnalyze env (fst (run evs (startup readable w0)))
            (snd (run evs (startup readable w0)))))
  = Some (history (snd (handleAnalyze env (fst (run evs (startup readable w0)))
                          (snd (run evs (startup readable w0)))))).
Proof.
  pose proof (run_well_formed evs readable w0) as Hwf.
  destruct (run evs (startup readable w0)) as [w st]. cbn [fst snd] in *.
  intros (f & w' & st' & Hf & Ha) Hnum.
  pose proof (handle_well_formed (EAnalyze env) w st Hwf) as Hwf'.
  cbn [handle] in Hwf'.
  pose proof Ha as Hn.
  apply analyze_Normal in Hn as (t & a & older & _ & _ & _ & _ & _ & Hrest).
  cbv zeta in Hrest. destruct Hrest as (_ & Hw' & Hst').
  unfold handleAnalyze in *. rewrite Hf, Ha in *. cbn [fst snd] in *.
  subst w' st'. cbn [history setLoading setHistory] in *.
  unfold persisted_history. rewrite getItem_setItem.
  now apply JSON_roundtrip.
Qed.

Lemma snapshot_reads_back_witness :
  persisted_history
    (fst (handleAnalyze (Scenario.answering Scenario.comfort)
            (fst Scenario.picked) (snd Scenario.picked)))
  = Some (history (snd (handleAnalyze (Scenario.answering Scenario.comfort)
                          (fst Scenario.picked) (snd Scenario.picked)))).
Proof.
  apply (snapshot_reads_back true Scenario.fresh_world
           [EFileChange (Some Scenario.dog_jpg) Scenario.origin (lit "0b7e")]
           (Scenario.answering Scenario.comfort)).
  - eexists _, _, _. split; vm_compute; reflexivity.
  - vm_compute. reflexivity.
Defined.

(** C2, as stated, fails: a response whose [behavior] is the number
    [1e999] parses (the number is Infinity), the analysis succeeds, and
    the stored snapshot holds [null] where the history in memory holds
    Infinity. *)
Lemma snapshot_loses_infinity :
  succeeds (Scenario.answering Scenario.overflowing)
    (fst Scenario.picked) (snd Scenario.picked)
  /\ persisted_history
       (fst (handleAnalyze (Scenario.answering Scenario.overflowing)
               (fst Scenario.picked) (snd Scenario.picked)))
     <> Some (history (snd (handleAnalyze
                              (Scenario.answering Scenario.overflowing)
                              (fst Scenario.picked) (snd Scenario.picked)))).
Proof.
  split.
  - eexists _, _, _. split; vm_compute; reflexivity.
  - vm_compute. discriminate.
Qed.

(** C6, as the code has it.  Every request that the handler sends has
    as its text the fixed sentence about "this media", with the context
    of the user between double quotes, or [None] when the context is
    empty. *)
Theorem request_text_follows_template (env : AnalyzeEnv) (w : World)
  (st : State) (r : Request) :
  In r (requests (fst (handleAnalyze env w st))) ->
  ~ In r (requests w) ->
  text r
  = lit "Analyze the bulldog's behavior in this media. Additional context from the owner: "
      ++ QUOTE
      :: (match promptText st with
          | [] => lit "None"
          | c :: p => c :: p
          end)
      ++ QUOTE :: lit ".".
Proof.
  intros Hin Hnew.
  destruct (handleAnalyze_requests env w st) as [E|(f & _ & E)];
    rewrite E in Hin.
  - contradiction.
  - apply in_app_or in Hin as [Hin|[<-|[]]]; [contradiction|].
    cbn [request_for request text]. unfold contents.
    destruct (promptText st); reflexivity.
Qed.

Lemma request_text_follows_template_witness :
  exists r,
    requests (fst (handleAnalyze (Scenario.answering Scenario.comfort)
                     (fst Scenario.picked) (snd Scenario.picked))) = [r]
    /\ text r
       = lit "Analyze the bulldog's behavior in this media. Additional context from the owner: "
           ++ QUOTE :: lit "None" ++ QUOTE :: lit ".".
Proof.
  exists (request_for Scenario.dog_jpg (snd Scenario.picked)).
  split; [reflexivity|].
  apply (request_text_follows_template (Scenario.answering Scenario.comfort)
           (fst Scenario.picked) (snd Scenario.picked)).
  - left. reflexivity.
  - intros H. exact H.
Defined.

(** C6, as stated, fails: with an empty context the text of the request
    is not the sentence about "this image/video".  That sentence is the
    one of the first revision of the source. *)
Lemma request_text_is_not_the_stated_one :
  promptText (snd Scenario.picked) = []
  /\ contents_rev1 []
     = lit "Analyze the bulldog's behavior in this image/video. Additional context from the owner: "
         ++ QUOTE :: lit "None" ++ QUOTE :: lit "."
  /\ exists r,
       In r (requests (fst (handleAnalyze (Scenario.answering Scenario.comfort)
                              (fst Scenario.picked) (snd Scenario.picked))))
       /\ text r
          <> lit "Analyze the bulldog's behavior in this image/video. Additional context from the owner: "
               ++ QUOTE :: lit "None" ++ QUOTE :: lit ".".
Proof.
  split; [reflexivity|]. split; [reflexivity|].
  exists (request_for Scenario.dog_jpg (snd Scenario.picked)).
  split; [left; reflexivity|].
  vm_compute. discriminate.
Qed.

(** C7 does not hold of the code.  After the analysis of [dog.jpg] the
    [file.dataUrl] of the new item is the object URL of the preview: it
    starts with [blob:], it is not the data URL of the file, and it
    carries none of the content.  The data URL that the reader made for
    the same file is only used for the request, and dropped. *)
Theorem history_item_holds_object_url :
  exists item fileobj,
    history (snd (handleAnalyze (Scenario.answering Scenario.comfort)
                    (fst Scenario.picked) (snd Scenario.picked)))
    = JArr [item]
    /\ get (lit "file") item = Some fileobj
    /\ get (lit "type") fileobj = Some (JStr (lit "image/jpeg"))
    /\ get (lit "dataUrl") fileobj
       = Some (JStr (createObjectURL Scenario.origin (lit "0b7e")))
    /\ createObjectURL Scenario.origin (lit "0b7e")
       = lit "blob:https://bulldog.example/0b7e"
    /\ startsWith (lit "data:") (createObjectURL Scenario.origin (lit "0b7e"))
       = false
    /\ data_url Scenario.dog_jpg = lit "data:image/jpeg;base64,/9j/"
    /\ fileToBase64 true Scenario.dog_jpg = inr (Some (lit "/9j/")).
Proof.
  eexists _, _. repeat split; vm_compute; reflexivity.
Qed.

(** The same in every run: the [file.dataUrl] of the item that a
    successful analysis builds is the preview URL of the state. *)
Lemma new_item_holds_preview_url (env : AnalyzeEnv) (w : World) (st : State) :
  succeeds env w st ->
  exists item rest fileobj,
    history (snd (handleAnalyze env w st)) = JArr (item :: rest)
    /\ get (lit "file") item = Some fileobj
    /\ get (lit "dataUrl") fileobj = Some (nullable (previewUrl st)).
Proof.
  intros (f & w' & st' & Hf & Ha).
  pose proof Ha as Hn.
  apply analyze_Normal in Hn as (t & a & older & _ & _ & _ & _ & _ & Hrest).
  cbv zeta in Hrest. destruct Hrest as (_ & _ & Hst).
  unfold handleAnalyze. rewrite Hf, Ha. cbn [snd].
  subst st'. cbn [history setLoading setHistory].
  unfold HISTORY_LIMIT. cbn [firstn].
  eexists _, _, _. split; [reflexivity|]. split.
  - apply newHistoryItem_file.
  - reflexivity.
Qed.

(** In every run the preview URL is an object URL, and there is one
    whenever a file is selected. *)
Lemma preview_is_object_url (evs : list event) (readable : bool) (w : World) :
  match previewUrl (snd (run evs (startup readable w))) with
  | Some url => startsWith (lit "blob:") url = true
  | None => file (snd (run evs (startup readable w))) = None
  end.
Proof.
  assert (H : forall evs ws,
             match previewUrl (snd ws) with
             | Some url => startsWith (lit "blob:") url = true
             | None => file (snd ws) = None
             end ->
             match previewUrl (snd (run evs ws)) with
             | Some url => startsWith (lit "blob:") url = true
             | None => file (snd (run evs ws)) = None
             end).
  { clear evs. induction evs as [|ev evs IH]; intros [w1 st] Hws; [assumption|].
    cbn [run fold_left]. fold (run evs (handle ev w1 st)).
    apply IH. cbn [fst snd] in *.
    destruct ev as [sel o u | p | env | m | g | | env]; cbn [handle].
    - unfold handleFileChange. cbn. destruct sel; [reflexivity | assumption].
    - assumption.
    - unfold handleAnalyze. destruct (file st) as [f|] eqn:Ef;
        [|cbn; now rewrite Ef].
      destruct (analyze env f st w1 _) as [w' st'|e w' st'] eqn:Ea.
      + apply analyze_Normal in Ea
          as (t & a & older & _ & _ & _ & _ & _ & Hrest).
        cbv zeta in Hrest. destruct Hrest as (_ & _ & ->).
        cbn. now rewrite Ef.
      + cbn. revert Ea. unfold analyze.
        destruct (client_ok env);
          [|intros [= <- <- <-]; cbn; now rewrite Ef].
        destruct (fileToBase64 (reader_ok env) f);
          [intros [= <- <- <-]; cbn; now rewrite Ef|].
        cbv zeta. destruct (respond env _) as [t|];
          [|intros [= <- <- <-]; cbn; now rewrite Ef].
        destruct (parse_response t);
          [|intros [= <- <- <-]; cbn; now rewrite Ef].
        destruct (iterate (history st));
          [|intros [= <- <- <-]; cbn; now rewrite Ef].
        destruct (storage_accepts env _); [discriminate|].
        intros [= <- <- <-]. cbn. now rewrite Ef.
    - destruct m; assumption.
    - unfold handleStartCamera. destruct (isCameraOn st); [assumption|].
      destruct g; assumption.
    - assumption.
    - unfold handleCapturePhoto. cbn.
      destruct (refs_mounted st && context2d env); [|assumption].
      destruct (blob env); [reflexivity | assumption]. }
  apply H. unfold startup, loadHistory. destruct readable; [|reflexivity].
  destruct (getItem HISTORY_KEY w) as [[|c r]|]; try reflexivity.
  destruct (JSON_parse (c :: r)); reflexivity.
Qed.

(** So in every run the [file.dataUrl] of the item that a successful
    analysis builds is a [blob:] URL, and not a data URL. *)
Lemma new_item_never_holds_data_url (evs : list event) (readable : bool)
  (w0 : World) (env : AnalyzeEnv) :
  succeeds env (fst (run evs (startup readable w0)))
    (snd (run evs (startup readable w0))) ->
  exists item rest fileobj url,
    history (snd (handleAnalyze env (fst (run evs (startup readable w0)))
                    (snd (run evs (startup readable w0)))))
    = JArr (item :: rest)
    /\ get (lit "file") item = Some fileobj
    /\ get (lit "dataUrl") fileobj = Some (JStr url)
    /\ startsWith (lit "blob:") url = true
    /\ startsWith (lit "data:") url = false.
Proof.
  intros Hs. pose proof (preview_is_object_url evs readable w0) as Hinv.
  destruct (new_item_holds_preview_url env _ _ Hs)
    as (item & rest & fileobj & Hh & Hfile & Hurl).
  destruct Hs as (f & _ & _ & Hf & _).
  destruct (previewUrl (snd (run evs (startup readable w0)))) as [url|];
    [|congruence].
  exists item, rest, fileobj, url. repeat split; try assumption.
  destruct url as [|c url]; [discriminate|].
  change (lit "blob:") with [98; 108; 111; 98; 58] in Hinv.
  change (lit "data:") with [100; 97; 116; 97; 58].
  cbn [startsWith] in Hinv |- *. apply andb_true_iff in Hinv as [Hc _].
  apply N.eqb_eq in Hc. subst c. reflexivity.
Qed.

(** C8.  When the capture gives a photo (the video and the canvas are
    mounted, the canvas has a 2D context and [toBlob] delivers a blob),
    the selected file has the type [image/jpeg] and a name that starts
    with [capture-]; afterwards the mode is upload, the camera is off,
    no stream is held, and no track of the former stream is live. *)
Theorem capture_gives_jpeg_and_stops_camera (env : CaptureEnv) (w : World)
  (st : State) (b : list N) :
  refs_mounted st = true -> context2d env = true -> blob env = Some b ->
  (exists f, file (snd (handleCapturePhoto env w st)) = Some f
             /\ type f = lit "image/jpeg"
             /\ startsWith (lit "capture-") (name f) = true
             /\ bytes f = b)
  /\ mode (snd (handleCapturePhoto env w st)) = upload
  /\ isCameraOn (snd (handleCapturePhoto env w st)) = false
  /\ stream (snd (handleCapturePhoto env w st)) = None
  /\ (forall ms t, stream st = Some ms -> In t ms ->
                   ~ In t (live_tracks (fst (handleCapturePhoto env w st)))).
Proof.
  intros Hm Hc Hb. unfold handleCapturePhoto, handleStopCamera.
  rewrite Hm, Hc, Hb. cbn. repeat split.
  - eexists. repeat split.
  - intros ms t Hs Hin. rewrite Hs. cbn. intros Hl.
    apply filter_In in Hl as [_ Hl]. apply negb_true_iff in Hl.
    assert (is_track_of ms t = true); [|congruence].
    apply existsb_exists. exists t. split; [assumption | apply N.eqb_refl].
Qed.

Lemma capture_gives_jpeg_and_stops_camera_witness :
  (exists f, file (snd (handleCapturePhoto Scenario.shutter
                          (fst Scenario.filming) (snd Scenario.filming)))
             = Some f
             /\ type f = lit "image/jpeg"
             /\ name f = lit "capture-1735689600000.jpg")
  /\ live_tracks (fst Scenario.filming) = [7]
  /\ ~ In 7 (live_tracks (fst (handleCapturePhoto Scenario.shutter
                                 (fst Scenario.filming)
                                 (snd Scenario.filming)))).
Proof.
  destruct (capture_gives_jpeg_and_stops_camera Scenario.shutter
              (fst Scenario.filming) (snd Scenario.filming)
              [255; 216; 255; 217] eq_refl eq_refl eq_refl)
    as ((f & Hf & Ht & _) & _ & _ & _ & Hl).
  split; [|split].
  - exists f. split; [exact Hf|]. split; [exact Ht|].
    vm_compute in Hf. injection Hf as <-. reflexivity.
  - reflexivity.
  - apply (Hl [7] 7); [reflexivity | left; reflexivity].
Defined.

(** C9.  When the storage cannot be read, holds nothing under the
    history key, or holds a text that is not JSON, the component starts
    in its initial state: the history is the empty list and no error
    message is set.  The storage is not written.  A failure is logged,
    once and with the message of the source: a storage that cannot be
    read appends the entry with its exception, and so does a stored
    text that is not empty and does not parse.  When nothing is stored,
    or the empty text, nothing was attempted and the console is as it
    was. *)
Theorem startup_with_unusable_storage (readable : bool) (w : World) :
  readable = false
  \/ getItem HISTORY_KEY w = None
  \/ (exists stored, getItem HISTORY_KEY w = Some stored
                     /\ JSON_parse stored = None) ->
  snd (startup readable w) = initial_state
  /\ history (snd (startup readable w)) = JArr []
  /\ error (snd (startup readable w)) = None
  /\ localStorage (fst (startup readable w)) = localStorage w
  /\ (readable = false ->
      console (fst (startup readable w))
      = console w ++ [[LogText MSG_LOAD; LogExn SecurityError]])
  /\ (readable = true ->
      forall stored, getItem HISTORY_KEY w = Some stored -> stored <> [] ->
      console (fst (startup readable w))
      = console w ++ [[LogText MSG_LOAD; LogExn JsonSyntaxError]])
  /\ (readable = true ->
      getItem HISTORY_KEY w = None \/ getItem HISTORY_KEY w = Some [] ->
      console (fst (startup readable w)) = console w).
Proof.
  intros H. unfold startup, loadHistory.
  destruct readable.
  - destruct (getItem HISTORY_KEY w) as [[|c r]|] eqn:Eg.
    + cbn. repeat split; try discriminate.
      intros _ stored [= <-] Hne. now destruct Hne.
    + destruct (JSON_parse (c :: r)) as [v|] eqn:Ep.
      * exfalso. destruct H as [H|[H|(stored & H & Hn)]]; try discriminate.
        congruence.
      * cbn. repeat split; try discriminate.
        intros _ [Hs|Hs]; discriminate.
    + cbn. repeat split; discriminate.
  - cbn. repeat split; discriminate.
Qed.

Lemma startup_with_unusable_storage_witness :
  JSON_parse (lit "{oops") = None
  /\ history (snd (startup true (Scenario.world_with "{oops"))) = JArr []
  /\ error (snd (startup true (Scenario.world_with "{oops"))) = None
  /\ console (fst (startup true (Scenario.world_with "{oops")))
     = [[LogText MSG_LOAD; LogExn JsonSyntaxError]].
Proof.
  split; [reflexivity|].
  destruct (startup_with_unusable_storage true (Scenario.world_with "{oops")
              (or_intror (or_intror
                 (ex_intro _ (lit "{oops") (conj eq_refl eq_refl)))))
    as (_ & Hh & He & _ & _ & Hc & _).
  split; [exact Hh|]. split; [exact He|].
  apply (Hc eq_refl (lit "{oops") eq_refl). discriminate.
Defined.



End Claims.

(* ================================================================== *)
(** * Further properties of the code                                   *)
(* ================================================================== *)

Section Encoding.

Lemma split_without (sep : N) (s : jsstring) :
  ~ In sep s -> split sep s = [s].
Proof.
  induction s as [|c s IH]; intros H; [reflexivity|].
  cbn [split]. destruct (N.eqb_spec c sep) as [->|Hc].
  - exfalso. apply H. now left.
  - rewrite IH; [reflexivity|]. intros Hin. apply H. now right.
Qed.

Lemma split_at_first (sep : N) (a r : jsstring) :
  ~ In sep a -> split sep (a ++ sep :: r) = a :: split sep r.
Proof.
  induction a as [|c a IH]; intros H.
  - cbn [List.app split]. now rewrite N.eqb_refl.
  - cbn [List.app split]. destruct (N.eqb_spec c sep) as [->|Hc].
    + exfalso. apply H. now left.
    + rewrite IH; [reflexivity|]. intros Hin. apply H. now right.
Qed.

Lemma base64_char_range (i : N) :
  base64_char i = 43 \/ base64_char i = 47
  \/ 48 <= base64_char i <= 57 \/ 65 <= base64_char i <= 90
  \/ 97 <= base64_char i <= 122.
Proof.
  unfold base64_char.
  destruct (N.ltb_spec i 26); [lia|].
  destruct (N.ltb_spec i 52); [lia|].
  destruct (N.ltb_spec i 62); [lia|].
  destruct (N.eqb_spec i 62); auto.
Qed.

(** The characters of a base64 text are letters, digits, [+], [/] and
    the padding [=]. *)
Lemma base64_alphabet (data : list N) (c : N) :
  In c (base64 data) ->
  c = 61 \/ c = 43 \/ c = 47 \/ 48 <= c <= 57 \/ 65 <= c <= 90
  \/ 97 <= c <= 122.
Proof.
  assert (H : forall n data, (List.length data <= n)%nat ->
                In c (base64 data) ->
                c = 61 \/ c = 43 \/ c = 47 \/ 48 <= c <= 57
                \/ 65 <= c <= 90 \/ 97 <= c <= 122).
  { clear data. induction n as [|n IH]; intros data Hn Hin.
    - destruct data; [contradiction | simpl in Hn; lia].
    - destruct data as [|a [|b [|d r]]]; cbn [base64] in Hin.
      + contradiction.
      + unfold PAD in Hin.
        destruct Hin as [<-|[<-|[<-|[<-|[]]]]];
          try (right; apply base64_char_range); now left.
      + unfold PAD in Hin.
        destruct Hin as [<-|[<-|[<-|[<-|[]]]]];
          try (right; apply base64_char_range); now left.
      + destruct Hin as [<-|[<-|[<-|[<-|Hin]]]];
          try (right; apply base64_char_range).
        apply (IH r); [simpl in Hn; lia | assumption]. }
  now apply (H (List.length data) data).
Qed.

Lemma base64_without (c : N) (data : list N) :
  c = 44 \/ c = 59 -> ~ In c (base64 data).
Proof.
  intros Hc Hin. apply base64_alphabet in Hin. lia.
Qed.

Lemma data_url_shape (f : File) :
  data_url f
  = (lit "data:"
       ++ (match type f with
           | [] => lit "application/octet-stream"
           | t => t
           end) ++ lit ";base64") ++ COMMA :: base64 (bytes f).
Proof.
  unfold data_url. rewrite <- !app_assoc. reflexivity.
Qed.

Lemma payload_of_data_url (f : File) :
  ~ In COMMA (type f) ->
  nth_error (split COMMA (data_url f)) 1 = Some (base64 (bytes f)).
Proof.
  intros Ht. rewrite data_url_shape.
  rewrite split_at_first.
  - rewrite split_without by (apply base64_without; now left). reflexivity.
  - intros Hin. apply in_app_or in Hin as [Hin|Hin].
    + vm_compute in Hin. intuition discriminate.
    + apply in_app_or in Hin as [Hin|Hin].
      * destruct (type f) as [|c t]; [|contradiction].
        vm_compute in Hin. intuition discriminate.
      * vm_compute in Hin. intuition discriminate.
Qed.

(** X1.  For a file whose media type has no comma, [fileToBase64]
    resolves with the base64 text of the content of the file. *)
Theorem fileToBase64_gives_payload (f : File) :
  ~ In COMMA (type f) ->
  fileToBase64 true f = inr (Some (base64 (bytes f))).
Proof.
  intros Ht. unfold fileToBase64. now rewrite payload_of_data_url.
Qed.

Lemma fileToBase64_gives_payload_witness :
  fileToBase64 true Scenario.dog_jpg = inr (Some (lit "/9j/")).
Proof.
  apply (fileToBase64_gives_payload Scenario.dog_jpg).
  vm_compute. intuition discriminate.
Defined.

(** X2.  For a file whose media type has one comma, [fileToBase64]
    resolves with the part of the type after the comma followed by
    [;base64], which is not the base64 text of the content. *)
Theorem fileToBase64_cut_by_type (f : File) (a b : jsstring) :
  type f = a ++ COMMA :: b -> ~ In COMMA a -> ~ In COMMA b ->
  fileToBase64 true f = inr (Some (b ++ lit ";base64"))
  /\ b ++ lit ";base64" <> base64 (bytes f).
Proof.
  intros Ht Ha Hb. split.
  - unfold fileToBase64. rewrite data_url_shape, Ht.
    destruct (a ++ COMMA :: b) as [|c t] eqn:E.
    { destruct a; discriminate. }
    rewrite <- E.
    replace ((lit "data:" ++ (a ++ COMMA :: b) ++ lit ";base64")
             ++ COMMA :: base64 (bytes f))
      with ((lit "data:" ++ a)
            ++ COMMA :: (b ++ lit ";base64") ++ COMMA :: base64 (bytes f)).
    2:{ rewrite <- !app_assoc. reflexivity. }
    rewrite split_at_first.
    + rewrite split_at_first; [reflexivity|].
      intros Hin. apply in_app_or in Hin as [Hin|Hin]; [contradiction|].
      vm_compute in Hin. intuition discriminate.
    + intros Hin. apply in_app_or in Hin as [Hin|Hin]; [|contradiction].
      vm_compute in Hin. intuition discriminate.
  - intros E.
    apply (base64_without 59 (bytes f)); [now right|].
    rewrite <- E. apply in_or_app. right. now left.
Qed.

Lemma fileToBase64_cut_by_type_witness :
  fileToBase64 true Scenario.odd_type = inr (Some (lit "c;base64")).
Proof.
  apply (fileToBase64_cut_by_type Scenario.odd_type (lit "a/b") (lit "c")).
  - reflexivity.
  - vm_compute. intuition discriminate.
  - vm_compute. intuition discriminate.
Defined.

End Encoding.

Section MoreAnalysis.

(** Everything a successful call of the handler does. *)
Lemma success_shape (env : AnalyzeEnv) (w : World) (st : State) :
  succeeds env w st ->
  exists f t a older,
    file st = Some f
    /\ respond env (request_for f st) = Some t
    /\ parse_response t = Some a
    /\ iterate (history st) = Some older
    /\ handleAnalyze env w st
       = (setItem HISTORY_KEY
            (JSON_stringify
               (JArr (firstn HISTORY_LIMIT
                        (newHistoryItem a (now_iso env) (now_locale env)
                           (previewUrl st) (type f) (promptText st)
                         :: older))))
            (send (request_for f st) w),
          setLoading false
            (setHistory
               (JArr (firstn HISTORY_LIMIT
                        (newHistoryItem a (now_iso env) (now_locale env)
                           (previewUrl st) (type f) (promptText st)
                         :: older)))
               (setResult a
                  (setResult JNull (setError None (setLoading true st)))))).
Proof.
  intros (f & w' & st' & Hf & Ha).
  pose proof Ha as Hn.
  apply analyze_Normal in Hn
    as (t & a & older & _ & _ & Ht & Hp & Hi & Hrest).
  cbv zeta in Hrest. destruct Hrest as (_ & Hw & Hst).
  exists f, t, a, older. repeat split; try assumption.
  unfold handleAnalyze. rewrite Hf, Ha. now rewrite Hw, Hst.
Qed.

(** What the [try] block does once the response has been parsed. *)
Lemma analyze_after_parse (env : AnalyzeEnv) (f : File) (st0 : State)
  (w : World) (st : State) (t : option jsstring) (a : json) :
  client_ok env = true -> reader_ok env = true ->
  respond env (request_for f st0) = Some t ->
  parse_response t = Some a ->
  analyze env f st0 w st
  = match iterate (history st0) with
    | None => Thrown NotIterable (send (request_for f st0) w) (setResult a st)
    | Some older =>
        if storage_accepts env
             (JSON_stringify
                (JArr (firstn HISTORY_LIMIT
                         (newHistoryItem a (now_iso env) (now_locale env)
                            (previewUrl st0) (type f) (promptText st0)
                          :: older))))
        then Normal
               (setItem HISTORY_KEY
                  (JSON_stringify
                     (JArr (firstn HISTORY_LIMIT
                              (newHistoryItem a (now_iso env) (now_locale env)
                                 (previewUrl st0) (type f) (promptText st0)
                               :: older))))
                  (send (request_for f st0) w))
               (setHistory
                  (JArr (firstn HISTORY_LIMIT
                           (newHistoryItem a (now_iso env) (now_locale env)
                              (previewUrl st0) (type f) (promptText st0)
                            :: older)))
                  (setResult a st))
        else Thrown QuotaExceededError (send (request_for f st0) w)
               (setHistory
                  (JArr (firstn HISTORY_LIMIT
                           (newHistoryItem a (now_iso env) (now_locale env)
                              (previewUrl st0) (type f) (promptText st0)
                            :: older)))
                  (setResult a st))
    end.
Proof.
  intros Hc Hr Ht Hp. unfold analyze, fileToBase64. rewrite Hc, Hr.
  fold (request_for f st0). rewrite Ht, Hp. reflexivity.
Qed.

(** However the [try] block ends, the history is the one before or the
    capped list with a new item in front. *)
Lemma analyze_history (env : AnalyzeEnv) (f : File) (st0 : State)
  (w : World) (st : State) :
  history st = history st0 ->
  forall st', (exists w', analyze env f st0 w st = Normal w' st')
              \/ (exists e w', analyze env f st0 w st = Thrown e w' st') ->
  history st' = history st0
  \/ exists a older,
       iterate (history st0) = Some older
       /\ history st'
          = JArr (firstn HISTORY_LIMIT
                    (newHistoryItem a (now_iso env) (now_locale env)
                       (previewUrl st0) (type f) (promptText st0) :: older)).
Proof.
  intros Hh st' H. revert H. unfold analyze.
  destruct (client_ok env).
  2:{ intros [(w' & E)|(e & w' & E)]; [discriminate|].
      injection E as _ _ <-. now left. }
  destruct (fileToBase64 (reader_ok env) f) as [e0|b].
  { intros [(w' & E)|(e & w' & E)]; [discriminate|].
    injection E as _ _ <-. now left. }
  cbv zeta. destruct (respond env _) as [t|].
  2:{ intros [(w' & E)|(e & w' & E)]; [discriminate|].
      injection E as _ _ <-. now left. }
  destruct (parse_response t) as [a|].
  2:{ intros [(w' & E)|(e & w' & E)]; [discriminate|].
      injection E as _ _ <-. now left. }
  destruct (iterate (history st0)) as [older|] eqn:Ei.
  2:{ intros [(w' & E)|(e & w' & E)]; [discriminate|].
      injection E as _ _ <-. now left. }
  destruct (storage_accepts env _).
  - intros [(w' & E)|(e & w' & E)]; [|discriminate].
    injection E as _ <-. right. now exists a, older.
  - intros [(w' & E)|(e & w' & E)]; [discriminate|].
    injection E as _ _ <-. right. now exists a, older.
Qed.

(** The same for a call of the handler. *)
Lemma handleAnalyze_history (env : AnalyzeEnv) (w : World) (st : State) :
  history (snd (handleAnalyze env w st)) = history st
  \/ exists f a older,
       file st = Some f
       /\ iterate (history st) = Some older
       /\ history (snd (handleAnalyze env w st))
          = JArr (firstn HISTORY_LIMIT
                    (newHistoryItem a (now_iso env) (now_locale env)
                       (previewUrl st) (type f) (promptText st) :: older)).
Proof.
  unfold handleAnalyze. destruct (file st) as [f|] eqn:Ef; [|now left].
  pose proof (analyze_history env f st w
                (setResult JNull (setError None (setLoading true st)))
                eq_refl) as H.
  destruct (analyze env f st w _) as [w' st'|e w' st'] eqn:Ea.
  - destruct (H st') as [Hh|(a & older & Hi & Hh)].
    + left. exists w'. reflexivity.
    + now left.
    + right. now exists f, a, older.
  - destruct (H st') as [Hh|(a & older & Hi & Hh)].
    + right. exists e, w'. reflexivity.
    + now left.
    + right. now exists f, a, older.
Qed.

(** X3.  One call of the handler sends exactly one request when a file
    is selected, the client can be built and the reader loads the file,
    whatever happens to that request afterwards; otherwise it sends
    none. *)
Theorem one_request_per_analysis (env : AnalyzeEnv) (w : World) (st : State) :
  requests (fst (handleAnalyze env w st))
  = requests w
      ++ match file st with
         | Some f =>
             if client_ok env && reader_ok env then [request_for f st] else []
         | None => []
         end.
Proof.
  unfold handleAnalyze. destruct (file st) as [f|]; [|now rewrite app_nil_r].
  unfold analyze, fileToBase64, request_for.
  destruct (client_ok env); [|now rewrite app_nil_r].
  destruct (reader_ok env); [|now rewrite app_nil_r].
  cbv zeta. cbn [andb].
  destruct (respond env _) as [t|]; [|reflexivity].
  destruct (parse_response t); [|reflexivity].
  destruct (iterate (history st)); [|reflexivity].
  destruct (storage_accepts env _); reflexivity.
Qed.

(** X4.  Whatever the outcome, the handler leaves every storage key
    other than the history key as it was. *)
Theorem analysis_keeps_other_keys (env : AnalyzeEnv) (w : World)
  (st : State) (k : jsstring) :
  k <> HISTORY_KEY ->
  getItem k (fst (handleAnalyze env w st)) = getItem k w.
Proof.
  intros Hk. apply str_eqb_neq in Hk.
  unfold handleAnalyze. destruct (file st) as [f|]; [|reflexivity].
  unfold analyze, fileToBase64.
  destruct (client_ok env); [|reflexivity].
  destruct (reader_ok env); [|reflexivity].
  cbv zeta.
  destruct (respond env _) as [t|]; [|reflexivity].
  destruct (parse_response t); [|reflexivity].
  destruct (iterate (history st)); [|reflexivity].
  destruct (storage_accepts env _); [|reflexivity].
  cbn [fst]. unfold getItem, setItem, send. cbn [localStorage].
  now rewrite Hk.
Qed.

Lemma analysis_keeps_other_keys_witness :
  getItem (lit "theme")
    (fst (handleAnalyze (Scenario.answering Scenario.comfort)
            (fst Scenario.picked) (snd Scenario.picked)))
  = getItem (lit "theme") (fst Scenario.picked).
Proof.
  apply (analysis_keeps_other_keys (Scenario.answering Scenario.comfort)
           (fst Scenario.picked) (snd Scenario.picked) (lit "theme")).
  vm_compute. discriminate.
Defined.

(** X5.  When the storage refuses the snapshot, the handler reports the
    failure although it has already set the result and put the new item
    in the history: the message, the result and the longer history are
    all in the state, and the storage still holds the old snapshot. *)
Theorem refused_snapshot_leaves_result (env : AnalyzeEnv) (w : World)
  (st : State) (f : File) (t : option jsstring) (a : json)
  (older : list json) :
  file st = Some f -> client_ok env = true -> reader_ok env = true ->
  respond env (request_for f st) = Some t ->
  parse_response t = Some a ->
  iterate (history st) = Some older ->
  storage_accepts env
    (JSON_stringify
       (JArr (firstn 10
                (newHistoryItem a (now_iso env) (now_locale env)
                   (previewUrl st) (type f) (promptText st) :: older))))
  = false ->
  error (snd (handleAnalyze env w st)) = Some MSG_FAILED
  /\ result (snd (handleAnalyze env w st)) = a
  /\ history (snd (handleAnalyze env w st))
     = JArr (firstn 10
               (newHistoryItem a (now_iso env) (now_locale env)
                  (previewUrl st) (type f) (promptText st) :: older))
  /\ loading (snd (handleAnalyze env w st)) = false
  /\ localStorage (fst (handleAnalyze env w st)) = localStorage w.
Proof.
  intros Hf Hc Hr Ht Hp Hi Hs. unfold handleAnalyze. rewrite Hf.
  rewrite (analyze_after_parse env f st w _ t a Hc Hr Ht Hp), Hi.
  unfold HISTORY_LIMIT. rewrite Hs. cbn. auto.
Qed.

Lemma refused_snapshot_leaves_result_witness :
  error (snd (handleAnalyze (Scenario.full_storage Scenario.comfort)
                (fst Scenario.picked) (snd Scenario.picked)))
  = Some MSG_FAILED
  /\ result (snd (handleAnalyze (Scenario.full_storage Scenario.comfort)
                    (fst Scenario.picked) (snd Scenario.picked)))
     <> JNull.
Proof.
  destruct (JSON_parse Scenario.comfort) as [a|] eqn:E;
    [|vm_compute in E; discriminate].
  destruct (refused_snapshot_leaves_result
              (Scenario.full_storage Scenario.comfort)
              (fst Scenario.picked) (snd Scenario.picked)
              Scenario.dog_jpg (Some Scenario.comfort) a []
              eq_refl eq_refl eq_refl eq_refl E eq_refl eq_refl)
    as (He & Hres & _).
  split; [exact He|]. rewrite Hres.
  vm_compute in E. injection E as <-. discriminate.
Defined.

(** X6.  When the history is not iterable (it is [null], a boolean, a
    number or an object), the handler fails after the request has been
    sent and the result set: the failure message and the result are
    both in the state, the history and the storage are as before. *)
Theorem uniterable_history_fails_late (env : AnalyzeEnv) (w : World)
  (st : State) (f : File) (t : option jsstring) (a : json) :
  file st = Some f -> client_ok env = true -> reader_ok env = true ->
  respond env (request_for f st) = Some t ->
  parse_response t = Some a ->
  iterate (history st) = None ->
  error (snd (handleAnalyze env w st)) = Some MSG_FAILED
  /\ result (snd (handleAnalyze env w st)) = a
  /\ history (snd (handleAnalyze env w st)) = history st
  /\ localStorage (fst (handleAnalyze env w st)) = localStorage w
  /\ requests (fst (handleAnalyze env w st))
     = requests w ++ [request_for f st].
Proof.
  intros Hf Hc Hr Ht Hp Hi. unfold handleAnalyze. rewrite Hf.
  rewrite (analyze_after_parse env f st w _ t a Hc Hr Ht Hp), Hi.
  cbn. auto.
Qed.

Lemma uniterable_history_fails_late_witness :
  iterate (history (snd Scenario.picked_over_object)) = None
  /\ error (snd (handleAnalyze (Scenario.answering Scenario.comfort)
                   (fst Scenario.picked_over_object)
                   (snd Scenario.picked_over_object)))
     = Some MSG_FAILED.
Proof.
  split; [reflexivity|].
  destruct (JSON_parse Scenario.comfort) as [a|] eqn:E;
    [|vm_compute in E; discriminate].
  exact (proj1 (uniterable_history_fails_late
                  (Scenario.answering Scenario.comfort)
                  (fst Scenario.picked_over_object)
                  (snd Scenario.picked_over_object)
                  Scenario.dog_jpg (Some Scenario.comfort) a
                  eq_refl eq_refl eq_refl eq_refl E eq_refl)).
Defined.

End MoreAnalysis.

Section MoreRuns.

Lemma run_cons (ev : event) (evs : list event) (ws : World * State) :
  run (ev :: evs) ws = run evs (handle ev (fst ws) (snd ws)).
Proof. reflexivity. Qed.

(** A property of the history that every handler keeps is kept by every
    run. *)
Lemma run_history_invariant (P : json -> Prop) :
  (forall ev w st, P (history st) -> P (history (snd (handle ev w st)))) ->
  forall evs ws, P (history (snd ws)) -> P (history (snd (run evs ws))).
Proof.
  intros Hstep. induction evs as [|ev evs IH]; intros ws H; [assumption|].
  rewrite run_cons. apply IH. now apply Hstep.
Qed.

Lemma handle_history (ev : event) (w : World) (st : State) :
  history (snd (handle ev w st)) = history st
  \/ exists env f a older,
       ev = EAnalyze env
       /\ file st = Some f
       /\ iterate (history st) = Some older
       /\ history (snd (handle ev w st))
          = JArr (firstn HISTORY_LIMIT
                    (newHistoryItem a (now_iso env) (now_locale env)
                       (previewUrl st) (type f) (promptText st) :: older)).
Proof.
  destruct (is_analysis ev) eqn:E.
  - destruct ev; try discriminate. cbn [handle].
    destruct (handleAnalyze_history env w st) as [H|(f & a & older & H)].
    + now left.
    + right. now exists env, f, a, older.
  - left. now apply handle_keeps_history.
Qed.

(** X7.  A stored value that parses but is not iterable is installed at
    startup and then stays: through every run the history is that
    value, and no analysis succeeds. *)
Theorem uniterable_store_blocks_analysis (w : World) (stored : jsstring)
  (v : json) :
  getItem HISTORY_KEY w = Some stored -> JSON_parse stored = Some v ->
  iterate v = None ->
  forall evs,
    history (snd (run evs (startup true w))) = v
    /\ forall env, ~ succeeds env (fst (run evs (startup true w)))
                     (snd (run evs (startup true w))).
Proof.
  intros Hg Hp Hi evs.
  assert (Hh : history (snd (run evs (startup true w))) = v).
  { apply (run_history_invariant (fun h => h = v)).
    - intros ev w1 st Hst.
      destruct (handle_history ev w1 st)
        as [H|(env & f & a & older & _ & _ & Hit & _)].
      + congruence.
      + rewrite Hst, Hi in Hit. discriminate.
    - unfold startup, loadHistory. rewrite Hg.
      destruct stored as [|c r]; [discriminate|]. now rewrite Hp. }
  split; [exact Hh|].
  intros env Hs. apply success_shape in Hs
    as (f & t & a & older & _ & _ & _ & Hit & _).
  rewrite Hh, Hi in Hit. discriminate.
Qed.

Lemma uniterable_store_blocks_analysis_witness :
  iterate (history (snd Scenario.picked_over_object)) = None
  /\ ~ succeeds (Scenario.answering Scenario.comfort)
         (fst Scenario.picked_over_object) (snd Scenario.picked_over_object).
Proof.
  destruct (JSON_parse (json_text "{'length':0}")) as [v|] eqn:E;
    [|vm_compute in E; discriminate].
  assert (Hi : iterate v = None).
  { vm_compute in E. injection E as <-. reflexivity. }
  destruct (uniterable_store_blocks_analysis Scenario.world_with_object
              (json_text "{'length':0}") v eq_refl E Hi
              [EFileChange (Some Scenario.dog_jpg) Scenario.origin
                 (lit "0b7e")])
    as [Hh Hn].
  split; [|exact (Hn (Scenario.answering Scenario.comfort))].
  unfold Scenario.picked_over_object. rewrite Hh. exact Hi.
Defined.

(** X8.  Once the history is a list of at most ten items it remains
    one through every run, whatever the events and their outcomes. *)
Theorem history_stays_capped (evs : list event) (ws : World * State)
  (l : list json) :
  history (snd ws) = JArr l -> (List.length l <= 10)%nat ->
  exists l', history (snd (run evs ws)) = JArr l'
             /\ (List.length l' <= 10)%nat.
Proof.
  intros Hl Hlen.
  apply (run_history_invariant
           (fun h => exists l', h = JArr l' /\ (List.length l' <= 10)%nat)).
  - intros ev w st (l0 & H0 & Hlen0).
    destruct (handle_history ev w st)
      as [H|(env & f & a & older & _ & _ & _ & H)].
    + rewrite H. now exists l0.
    + rewrite H. eexists. split; [reflexivity|].
      rewrite length_firstn. unfold HISTORY_LIMIT. lia.
  - now exists l.
Qed.

Lemma history_stays_capped_witness :
  exists l',
    history (snd (run [EFileChange (Some Scenario.dog_jpg) Scenario.origin
                         (lit "0b7e");
                       EAnalyze (Scenario.answering Scenario.comfort);
                       EAnalyze (Scenario.full_storage Scenario.comfort)]
                    (startup true Scenario.fresh_world)))
    = JArr l'
    /\ (List.length l' <= 10)%nat.
Proof.
  apply (history_stays_capped _ (startup true Scenario.fresh_world) []).
  - reflexivity.
  - simpl. lia.
Defined.

(** The snapshot that a successful call stores is the text of the
    history it leaves, which is a list. *)
Lemma stored_after_success (env : AnalyzeEnv) (w : World) (st : State) :
  succeeds env w st ->
  exists l,
    history (snd (handleAnalyze env w st)) = JArr l
    /\ getItem HISTORY_KEY (fst (handleAnalyze env w st))
       = Some (JSON_stringify (JArr l)).
Proof.
  intros Hs. apply success_shape in Hs
    as (f & t & a & older & _ & _ & _ & _ & ->).
  eexists. split; [reflexivity|]. cbn [fst]. apply getItem_setItem.
Qed.

(** X9.  Reloading the page after a successful analysis restores the
    history: started on the world that the analysis left, the component
    has exactly the history that was in memory (under the proviso on
    numbers of the round trip). *)
Theorem reload_restores_history (readable : bool) (w0 : World)
  (evs : list event) (env : AnalyzeEnv) :
  succeeds env (fst (run evs (startup readable w0)))
    (snd (run evs (startup readable w0))) ->
  numbers_survive
    (history (snd (handleAnalyze env (fst (run evs (startup readable w0)))
                     (snd (run evs (startup readable w0)))))) = true ->
  history
    (snd (startup true
            (fst (handleAnalyze env (fst (run evs (startup readable w0)))
                    (snd (run evs (startup readable w0)))))))
  = history (snd (handleAnalyze env (fst (run evs (startup readable w0)))
                    (snd (run evs (startup readable w0))))).
Proof.
  intros Hs Hnum.
  pose proof (run_well_formed evs readable w0) as Hwf.
  pose proof (handle_well_formed (EAnalyze env)
                (fst (run evs (startup readable w0))) _ Hwf) as Hwf'.
  cbn [handle] in Hwf'.
  destruct (stored_after_success env _ _ Hs) as (l & Hh & Hg).
  destruct (handleAnalyze env (fst (run evs (startup readable w0)))
              (snd (run evs (startup readable w0)))) as [w' st'].
  cbn [fst snd] in *. rewrite Hh in *.
  unfold startup, loadHistory. rewrite Hg.
  pose proof (JSON_roundtrip (JArr l) Hwf' Hnum) as Hrt.
  destruct (JSON_stringify (JArr l)) as [|c r] eqn:E; [discriminate|].
  rewrite Hrt. reflexivity.
Qed.

Lemma reload_restores_history_witness :
  history
    (snd (startup true
            (fst (handleAnalyze (Scenario.answering Scenario.comfort)
                    (fst Scenario.picked) (snd Scenario.picked)))))
  = history (snd (handleAnalyze (Scenario.answering Scenario.comfort)
                    (fst Scenario.picked) (snd Scenario.picked))).
Proof.
  apply (reload_restores_history true Scenario.fresh_world
           [EFileChange (Some Scenario.dog_jpg) Scenario.origin (lit "0b7e")]
           (Scenario.answering Scenario.comfort)).
  - eexists _, _, _. split; vm_compute; reflexivity.
  - vm_compute. reflexivity.
Defined.

(** X11.  The item that a successful analysis puts in front of the
    history has the identifier, the timestamp, the context and the file
    description of the component, whatever the response contains, even
    properties of the same names. *)
Theorem new_item_has_own_fields (env : AnalyzeEnv) (w : World) (st : State) :
  succeeds env w st ->
  exists f item rest,
    file st = Some f
    /\ history (snd (handleAnalyze env w st)) = JArr (item :: rest)
    /\ get (lit "id") item = Some (JStr (now_iso env))
    /\ get (lit "timestamp") item = Some (JStr (now_locale env))
    /\ get (lit "prompt") item = Some (JStr (promptText st))
    /\ get (lit "file") item
       = Some (JObj [(lit "dataUrl", nullable (previewUrl st));
                     (lit "type", JStr (type f))]).
Proof.
  intros Hs. apply success_shape in Hs
    as (f & t & a & older & Hf & _ & _ & _ & ->).
  unfold HISTORY_LIMIT. cbn [firstn snd history setLoading setHistory].
  eexists f, _, _. split; [exact Hf|]. split; [reflexivity|].
  repeat split.
  - unfold newHistoryItem, get. cbn [obj_set_all fold_left fst snd].
    rewrite !obj_get_set_other by reflexivity. apply obj_get_set.
  - unfold newHistoryItem, get. cbn [obj_set_all fold_left fst snd].
    rewrite !obj_get_set_other by reflexivity. apply obj_get_set.
  - apply newHistoryItem_prompt.
  - apply newHistoryItem_file.
Qed.

Lemma new_item_has_own_fields_witness :
  exists item rest,
    history (snd (handleAnalyze
                    (Scenario.answering
                       (json_text "{'id':'x','prompt':7,'file':null}"))
                    (fst Scenario.picked) (snd Scenario.picked)))
    = JArr (item :: rest)
    /\ get (lit "id") item = Some (JStr (lit "2025-01-01T00:00:00.000Z"))
    /\ get (lit "prompt") item = Some (JStr []).
Proof.
  destruct (new_item_has_own_fields
              (Scenario.answering
                 (json_text "{'id':'x','prompt':7,'file':null}"))
              (fst Scenario.picked) (snd Scenario.picked))
    as (f & item & rest & _ & Hh & Hid & _ & Hp & _).
  { eexists _, _, _. split; vm_compute; reflexivity. }
  exists item, rest. split; [exact Hh|]. split; [exact Hid | exact Hp].
Defined.

(** X12.  When the response is an object, every property of it other
    than [id], [timestamp], [file] and [prompt] reads the same in the
    new item as in the response. *)
Theorem new_item_carries_response (env : AnalyzeEnv) (w : World)
  (st : State) (f : File) (t : option jsstring)
  (o : list (jsstring * json)) (k : jsstring) :
  succeeds env w st ->
  file st = Some f -> respond env (request_for f st) = Some t ->
  parse_response t = Some (JObj o) ->
  k <> lit "id" -> k <> lit "timestamp" -> k <> lit "file" ->
  k <> lit "prompt" ->
  exists item rest,
    history (snd (handleAnalyze env w st)) = JArr (item :: rest)
    /\ get k item = get k (JObj o).
Proof.
  intros Hs Hf Ht Hp K1 K2 K3 K4.
  apply success_shape in Hs
    as (f' & t' & a & older & Hf' & Ht' & Hp' & _ & ->).
  assert (f' = f) by congruence. subst f'.
  assert (t' = t) by congruence. subst t'.
  assert (a = JObj o) by congruence. subst a.
  unfold HISTORY_LIMIT. cbn [firstn snd history setLoading setHistory].
  eexists _, _. split; [reflexivity|].
  unfold newHistoryItem, get. cbn [obj_set_all fold_left fst snd].
  rewrite !obj_get_set_other by now apply str_eqb_neq.
  cbn [own_properties].
  change (fold_left (fun acc kv => obj_set acc (fst kv) (snd kv)) o [])
    with (obj_set_all [] o).
  rewrite obj_set_all_id; [reflexivity|].
  unfold parse_response in Hp. apply JSON_parse_well_formed in Hp.
  cbn [well_formed] in Hp. now apply andb_true_iff in Hp as [Hk _].
Qed.

Lemma new_item_carries_response_witness :
  exists item rest,
    history (snd (handleAnalyze (Scenario.answering Scenario.comfort)
                    (fst Scenario.picked) (snd Scenario.picked)))
    = JArr (item :: rest)
    /\ get (lit "behavior") item = Some (JStr (lit "Comfort Seeking")).
Proof.
  destruct (JSON_parse Scenario.comfort) as [[| | | | |o]|] eqn:E;
    try (vm_compute in E; discriminate).
  destruct (new_item_carries_response (Scenario.answering Scenario.comfort)
              (fst Scenario.picked) (snd Scenario.picked)
              Scenario.dog_jpg (Some Scenario.comfort) o (lit "behavior"))
    as (item & rest & Hh & Hk); try (vm_compute; discriminate).
  - eexists _, _, _. split; vm_compute; reflexivity.
  - reflexivity.
  - reflexivity.
  - exact E.
  - exists item, rest. split; [exact Hh|]. rewrite Hk.
    vm_compute in E. injection E as <-. reflexivity.
Defined.

End MoreRuns.

Section Camera.




(** X15.  A capture that gives no photo (the elements are not mounted,
    the canvas has no 2D context, or [toBlob] delivers [null]) does
    what stopping the camera does and nothing else: the selected media,
    the result, the message and the mode are untouched, so the
    component stays in live mode with the camera off. *)
Theorem capture_without_photo (env : CaptureEnv) (w : World) (st : State) :
  refs_mounted st = false \/ context2d env = false \/ blob env = None ->
  handleCapturePhoto env w st = handleStopCamera w st.
Proof.
  intros H. unfold handleCapturePhoto.
  destruct (handleStopCamera w st) as [w1 st1].
  destruct (refs_mounted st) eqn:Em; [|reflexivity].
  destruct (context2d env) eqn:Ec; [|reflexivity].
  destruct (blob env) eqn:Eb; [|reflexivity].
  destruct H as [H|[H|H]]; discriminate.
Qed.

Lemma capture_without_photo_witness :
  mode (snd (handleCapturePhoto Scenario.blank_shutter
               (fst Scenario.filming) (snd Scenario.filming))) = live
  /\ isCameraOn (snd (handleCapturePhoto Scenario.blank_shutter
                        (fst Scenario.filming) (snd Scenario.filming)))
     = false.
Proof.
  rewrite (capture_without_photo Scenario.blank_shutter
             (fst Scenario.filming) (snd Scenario.filming)
             (or_intror (or_intror eq_refl))).
  split; reflexivity.
Defined.

(** X16.  No event other than an analysis writes the storage, sends a
    request or changes the history. *)
Theorem only_analysis_reaches_outside (ev : event) (w : World) (st : State) :
  is_analysis ev = false ->
  localStorage (fst (handle ev w st)) = localStorage w
  /\ requests (fst (handle ev w st)) = requests w
  /\ history (snd (handle ev w st)) = history st.
Proof.
  intros H. split; [|split; [|now apply handle_keeps_history]];
    destruct ev as [sel o u | p | env | m | g | | env];
    try discriminate; cbn [handle].
  all: try reflexivity.
  - unfold handleFileChange, handleStopCamera.
    destruct sel; destruct (stream st); reflexivity.
  - unfold handleModeChange, handleStopCamera.
    destruct m; cbn; destruct (stream st); reflexivity.
  - unfold handleStartCamera. destruct (isCameraOn st); [reflexivity|].
    destruct g; reflexivity.
  - unfold handleStopCamera. destruct (stream st); reflexivity.
  - unfold handleCapturePhoto, handleStopCamera.
    destruct (refs_mounted st && context2d env);
      [destruct (blob env)|]; destruct (stream st); reflexivity.
  - unfold handleFileChange, handleStopCamera.
    destruct sel; destruct (stream st); reflexivity.
  - unfold handleModeChange, handleStopCamera.
    destruct m; cbn; destruct (stream st); reflexivity.
  - unfold handleStartCamera. destruct (isCameraOn st); [reflexivity|].
    destruct g; reflexivity.
  - unfold handleStopCamera. destruct (stream st); reflexivity.
  - unfold handleCapturePhoto, handleStopCamera.
    destruct (refs_mounted st && context2d env);
      [destruct (blob env)|]; destruct (stream st); reflexivity.
Qed.

Lemma only_analysis_reaches_outside_witness :
  requests (fst (handle (ECapturePhoto Scenario.shutter)
                   (fst Scenario.filming) (snd Scenario.filming))) = []
  /\ history (snd (handle (ECapturePhoto Scenario.shutter)
                     (fst Scenario.filming) (snd Scenario.filming)))
     = JArr [].
Proof.
  destruct (only_analysis_reaches_outside (ECapturePhoto Scenario.shutter)
              (fst Scenario.filming) (snd Scenario.filming) eq_refl)
    as (_ & Hr & Hh).
  split; [exact Hr | exact Hh].
Defined.

End Camera.

Section Rendering.

Lemma media_prefixes_exclusive (t : jsstring) :
  (startsWith (lit "image/") t = true ->
   startsWith (lit "video/") t = false /\ startsWith (lit "audio/") t = false)
  /\ (startsWith (lit "video/") t = true ->
      startsWith (lit "image/") t = false
      /\ startsWith (lit "audio/") t = false)
  /\ (startsWith (lit "audio/") t = true ->
      startsWith (lit "image/") t = false
      /\ startsWith (lit "video/") t = false).
Proof.
  change (lit "image/") with [105; 109; 97; 103; 101; 47].
  change (lit "video/") with [118; 105; 100; 101; 111; 47].
  change (lit "audio/") with [97; 117; 100; 105; 111; 47].
  destruct t as [|c t]; [repeat split; discriminate|].
  cbn [startsWith]. repeat split;
    apply andb_true_iff in H as [Hc _]; apply N.eqb_eq in Hc; subst c;
    reflexivity.
Qed.

(** X17.  In the history list [renderMedia] differs from the preview
    only for audio: an audio item is shown as the icon instead of a
    player, and every other type gives the same element, or nothing,
    in both places. *)
Theorem history_media_differs_for_audio_only (dataUrl type alt : jsstring)
  (className : option jsstring) :
  (startsWith (lit "audio/") type = false ->
   renderMedia dataUrl type alt className true
   = renderMedia dataUrl type alt className false)
  /\ (startsWith (lit "audio/") type = true ->
      renderMedia dataUrl type alt className true = Some AudioIcon
      /\ renderMedia dataUrl type alt className false
         = Some (audio dataUrl className)).
Proof.
  unfold renderMedia. split; intros H.
  - rewrite H. reflexivity.
  - destruct (media_prefixes_exclusive type) as (_ & _ & Ha).
    destruct (Ha H) as [-> ->]. rewrite H. auto.
Qed.

(** X18.  When the user picks a file whose type is none of image, video
    and audio, the upload area shows neither a preview nor the
    instructions (the preview is [null]), and the analyze button is
    enabled all the same. *)
Theorem unknown_type_leaves_area_blank (f : File) (origin uuid : jsstring)
  (w : World) (st : State) :
  loading st = false ->
  startsWith (lit "image/") (type f) = false ->
  startsWith (lit "video/") (type f) = false ->
  startsWith (lit "audio/") (type f) = false ->
  uploadArea (snd (handleFileChange (Some f) origin uuid w st)) = Preview None
  /\ analyzeDisabled (snd (handleFileChange (Some f) origin uuid w st))
     = false.
Proof.
  intros Hl Hi Hv Ha. unfold handleFileChange, handleStopCamera.
  cbn [fst snd]. unfold uploadArea, analyzeDisabled.
  cbn [previewUrl file loading setError setResult setPreviewUrl setFile
       setStream setIsCameraOn].
  unfold createObjectURL. change (lit "blob:") with [98; 108; 111; 98; 58].
  cbn [List.app]. unfold renderMedia. rewrite Hi, Hv, Ha, Hl. auto.
Qed.

Lemma unknown_type_leaves_area_blank_witness :
  uploadArea (snd (handleFileChange (Some Scenario.report_pdf)
                     Scenario.origin (lit "77aa")
                     Scenario.fresh_world initial_state)) = Preview None.
Proof.
  exact (proj1 (unknown_type_leaves_area_blank Scenario.report_pdf
                  Scenario.origin (lit "77aa") Scenario.fresh_world
                  initial_state eq_refl eq_refl eq_refl eq_refl)).
Defined.

(** X19.  After a capture that gives a photo, the upload area shows
    that photo as an image whose source is the object URL made for it,
    and the analyze button is enabled unless a request is pending. *)
Theorem captured_photo_is_previewed (env : CaptureEnv) (w : World)
  (st : State) (b : list N) :
  refs_mounted st = true -> context2d env = true -> blob env = Some b ->
  uploadArea (snd (handleCapturePhoto env w st))
  = Preview (Some (img (createObjectURL (capture_origin env) (capture_uuid env))
                     (lit "Bulldog preview") (Some (lit "preview-content"))))
  /\ analyzeDisabled (snd (handleCapturePhoto env w st)) = loading st.
Proof.
  intros Hm Hc Hb. unfold handleCapturePhoto, handleStopCamera.
  rewrite Hm, Hc, Hb. cbn [fst snd andb]. unfold uploadArea, analyzeDisabled.
  cbn [previewUrl file loading setMode setError setResult setPreviewUrl
       setFile setStream setIsCameraOn].
  unfold createObjectURL. change (lit "blob:") with [98; 108; 111; 98; 58].
  cbn [List.app]. split; [reflexivity|]. now rewrite orb_false_r.
Qed.

Lemma captured_photo_is_previewed_witness :
  uploadArea (snd (handleCapturePhoto Scenario.shutter
                     (fst Scenario.filming) (snd Scenario.filming)))
  = Preview (Some (img (lit "blob:https://bulldog.example/51c2")
                     (lit "Bulldog preview") (Some (lit "preview-content")))).
Proof.
  exact (proj1 (captured_photo_is_previewed Scenario.shutter
                  (fst Scenario.filming) (snd Scenario.filming)
                  [255; 216; 255; 217] eq_refl eq_refl eq_refl)).
Defined.

Lemma handle_media (ev : event) (w : World) (st : State) :
  (file (snd (handle ev w st)) = file st
   /\ previewUrl (snd (handle ev w st)) = previewUrl st)
  \/ exists f o u,
       file (snd (handle ev w st)) = Some f
       /\ previewUrl (snd (handle ev w st)) = Some (createObjectURL o u).
Proof.
  destruct ev as [sel o u | p | env | m | g | | env]; cbn [handle].
  - unfold handleFileChange. cbn. destruct sel as [f|]; cbn.
    + right. now exists f, o, u.
    + now left.
  - now left.
  - left. unfold handleAnalyze. destruct (file st) as [f|] eqn:Ef;
      [|cbn; now rewrite Ef].
    unfold analyze, fileToBase64.
    destruct (client_ok env); [|cbn; now rewrite Ef].
    destruct (reader_ok env); [|cbn; now rewrite Ef].
    cbv zeta.
    destruct (respond env _) as [t|]; [|cbn; now rewrite Ef].
    destruct (parse_response t); [|cbn; now rewrite Ef].
    destruct (iterate (history st)); [|cbn; now rewrite Ef].
    destruct (storage_accepts env _); cbn; now rewrite Ef.
  - left. destruct m; split; reflexivity.
  - left. unfold handleStartCamera. destruct (isCameraOn st); [auto|].
    destruct g; split; reflexivity.
  - now left.
  - unfold handleCapturePhoto. cbn.
    destruct (refs_mounted st && context2d env); [|now left].
    destruct (blob env) as [b|]; [|now left].
    right. eexists _, _, _. split; reflexivity.
Qed.

(** X20.  In every run a file is selected exactly when there is a
    preview URL.  The media section shows the instructions exactly when
    the component is in upload mode and no file is selected; in upload
    mode with a file it shows the preview of that file; in live mode it
    shows no upload area at all, only the start button or the video,
    whatever is selected. *)
Theorem preview_follows_selection (evs : list event) (readable : bool)
  (w : World) :
  (file (snd (run evs (startup readable w))) = None
   <-> previewUrl (snd (run evs (startup readable w))) = None)
  /\ (mediaSection (snd (run evs (startup readable w)))
      = UploadArea Instructions
      <-> mode (snd (run evs (startup readable w))) = upload
          /\ file (snd (run evs (startup readable w))) = None)
  /\ (forall f, mode (snd (run evs (startup readable w))) = upload ->
                file (snd (run evs (startup readable w))) = Some f ->
                exists url,
                  previewUrl (snd (run evs (startup readable w))) = Some url
                  /\ mediaSection (snd (run evs (startup readable w)))
                     = UploadArea
                         (Preview (renderMedia url (type f)
                                     (lit "Bulldog preview")
                                     (Some (lit "preview-content")) false)))
  /\ (mode (snd (run evs (startup readable w))) = live ->
      forall child,
        mediaSection (snd (run evs (startup readable w)))
        <> UploadArea child).
Proof.
  assert (H : forall evs ws,
            (file (snd ws) = None /\ previewUrl (snd ws) = None
             \/ exists f o u, file (snd ws) = Some f
                              /\ previewUrl (snd ws)
                                 = Some (createObjectURL o u)) ->
            file (snd (run evs ws)) = None
            /\ previewUrl (snd (run evs ws)) = None
            \/ exists f o u, file (snd (run evs ws)) = Some f
                             /\ previewUrl (snd (run evs ws))
                                = Some (createObjectURL o u)).
  { clear evs. induction evs as [|ev evs IH]; intros ws Hws; [assumption|].
    rewrite run_cons. apply IH.
    destruct (handle_media ev (fst ws) (snd ws)) as [[-> ->]|Hnew];
      [assumption | now right]. }
  assert (Hlive : forall st, mode st = live ->
                    forall child, mediaSection st <> UploadArea child).
  { intros st Hm child. unfold mediaSection. rewrite Hm.
    destruct (isCameraOn st); discriminate. }
  destruct (H evs (startup readable w)) as [[Hf Hp]|(f & o & u & Hf & Hp)].
  { left. unfold startup, loadHistory. destruct readable; [|cbn; auto].
    destruct (getItem HISTORY_KEY w) as [[|c r]|]; try (cbn; auto).
    destruct (JSON_parse (c :: r)); cbn; auto. }
  - split; [now rewrite Hf, Hp|]. split; [|split; [|now apply Hlive]].
    + unfold mediaSection, uploadArea. rewrite Hf, Hp.
      destruct (mode (snd (run evs (startup readable w)))).
      * now split.
      * destruct (isCameraOn _); split; try discriminate;
          intros [Hm _]; discriminate.
    + intros f Hm Hf'. congruence.
  - split; [rewrite Hf, Hp; split; discriminate|].
    split; [|split; [|now apply Hlive]].
    + split; [|intros [_ Hn]; congruence].
      unfold mediaSection, uploadArea. rewrite Hf, Hp. unfold createObjectURL.
      change (lit "blob:") with [98; 108; 111; 98; 58]. cbn [List.app].
      destruct (mode (snd (run evs (startup readable w))));
        [|destruct (isCameraOn _)]; discriminate.
    + intros f' Hm Hf'. assert (f' = f) by congruence. subst f'.
      exists (createObjectURL o u). split; [exact Hp|].
      unfold mediaSection, uploadArea. rewrite Hm, Hf, Hp.
      unfold createObjectURL. change (lit "blob:") with [98; 108; 111; 98; 58].
      reflexivity.
Qed.

End Rendering.

Section Revisions.

(** X21.  The two revisions of [handleAnalyze] agree.  When the
    endpoint answers the request of the first revision as it answers
    the request of the second, both leave the same history, result,
    loading flag, storage and console, and, when a file is selected,
    the same message. *)
Theorem revisions_agree (env : AnalyzeEnv) (w : World) (st : State) :
  (forall f b, respond env (Rev1.request f b (promptText st))
               = respond env (request f b (promptText st))) ->
  history (snd (Rev1.handleAnalyze env w st))
  = history (snd (handleAnalyze env w st))
  /\ result (snd (Rev1.handleAnalyze env w st))
     = result (snd (handleAnalyze env w st))
  /\ loading (snd (Rev1.handleAnalyze env w st))
     = loading (snd (handleAnalyze env w st))
  /\ localStorage (fst (Rev1.handleAnalyze env w st))
     = localStorage (fst (handleAnalyze env w st))
  /\ console (fst (Rev1.handleAnalyze env w st))
     = console (fst (handleAnalyze env w st))
  /\ (file st <> None ->
      error (snd (Rev1.handleAnalyze env w st))
      = error (snd (handleAnalyze env w st))).
Proof.
  intros H. unfold Rev1.handleAnalyze, handleAnalyze.
  destruct (file st) as [f|]; [|cbn; intuition congruence].
  unfold Rev1.analyze, analyze, fileToBase64.
  destruct (client_ok env); [|cbn; auto 10].
  destruct (reader_ok env); [|cbn; auto 10].
  cbv zeta. rewrite H.
  destruct (respond env _) as [t|]; [|cbn; auto 10].
  destruct (parse_response t); [|cbn; auto 10].
  destruct (iterate (history st)); [|cbn; auto 10].
  destruct (storage_accepts env _); cbn; auto 10.
Qed.

Lemma revisions_agree_witness :
  history (snd (Rev1.handleAnalyze (Scenario.answering Scenario.comfort)
                  (fst Scenario.picked) (snd Scenario.picked)))
  = history (snd (handleAnalyze (Scenario.answering Scenario.comfort)
                    (fst Scenario.picked) (snd Scenario.picked))).
Proof.
  exact (proj1 (revisions_agree (Scenario.answering Scenario.comfort)
                  (fst Scenario.picked) (snd Scenario.picked)
                  (fun _ _ => eq_refl))).
Defined.

(** X22.  The [renderMedia] of the second revision extends that of the
    first: outside the history they give the same element for every
    type but audio, for which the first revision gives nothing. *)
Theorem renderMedia_extends_first_revision (dataUrl type alt : jsstring)
  (className : option jsstring) :
  Rev1.renderMedia dataUrl type alt className
  = if startsWith (lit "audio/") type then None
    else renderMedia dataUrl type alt className false.
Proof.
  unfold Rev1.renderMedia, renderMedia.
  destruct (media_prefixes_exclusive type) as (Hi & Hv & Ha).
  destruct (startsWith (lit "audio/") type) eqn:Ea.
  - destruct (Ha eq_refl) as [-> ->]. reflexivity.
  - reflexivity.
Qed.

End Revisions.

Section Sequences.

Lemma history_media_differs_for_audio_only_witness :
  renderMedia (lit "blob:x") (lit "audio/mpeg") (lit "alt") None true
  = Some AudioIcon
  /\ renderMedia (lit "blob:x") (lit "audio/mpeg") (lit "alt") None false
     = Some (audio (lit "blob:x") None).
Proof.
  exact (proj2 (history_media_differs_for_audio_only (lit "blob:x")
                  (lit "audio/mpeg") (lit "alt") None) eq_refl).
Defined.

Lemma successive_analyses_capped (envs : list AnalyzeEnv)
  (ws : World * State) (l : list json) :
  history (snd ws) = JArr l -> (List.length l <= 10)%nat ->
  each_succeeds envs ws ->
  exists l',
    history (snd (run (List.map EAnalyze envs) ws)) = JArr l'
    /\ List.length l' = Nat.min 10 (List.length l + List.length envs).
Proof.
  revert ws l. induction envs as [|env envs IH]; intros ws l Hl Hlen Hs.
  - exists l. split; [exact Hl|]. cbn [List.length]. lia.
  - destruct Hs as [Hs Hrest]. cbn [List.map]. rewrite run_cons.
    cbn [handle].
    assert (Hi : iterate (history (snd ws)) = Some l) by now rewrite Hl.
    destruct (history_after_success env _ _ l Hs Hi)
      as (f & t & a & _ & _ & _ & Hu).
    destruct (IH _ _ Hu) as (l' & Hl' & Hlen'); [|exact Hrest|].
    + rewrite length_firstn. unfold HISTORY_LIMIT. lia.
    + exists l'. split; [exact Hl'|]. rewrite Hlen', length_firstn.
      unfold HISTORY_LIMIT. cbn [List.length]. lia.
Qed.

(** X23.  A non-empty sequence of successful analyses on a history that
    is a list leaves a list whose length is the smaller of 10 and the
    previous length plus the number of analyses. *)
Theorem successive_analyses_fill_history (env : AnalyzeEnv)
  (envs : list AnalyzeEnv) (ws : World * State) (l : list json) :
  history (snd ws) = JArr l -> each_succeeds (env :: envs) ws ->
  exists l',
    history (snd (run (List.map EAnalyze (env :: envs)) ws)) = JArr l'
    /\ List.length l'
       = Nat.min 10 (List.length l + List.length (env :: envs)).
Proof.
  intros Hl [Hs Hrest]. cbn [List.map]. rewrite run_cons. cbn [handle].
  assert (Hi : iterate (history (snd ws)) = Some l) by now rewrite Hl.
  destruct (history_after_success env _ _ l Hs Hi)
    as (f & t & a & _ & _ & _ & Hu).
  destruct (successive_analyses_capped envs _ _ Hu) as (l' & Hl' & Hlen');
    [|exact Hrest|].
  - rewrite length_firstn. unfold HISTORY_LIMIT. lia.
  - exists l'. split; [exact Hl'|]. rewrite Hlen', length_firstn.
    unfold HISTORY_LIMIT. cbn [List.length]. lia.
Qed.

Lemma successive_analyses_fill_history_witness :
  exists l',
    history (snd (run [EAnalyze (Scenario.answering Scenario.comfort);
                       EAnalyze (Scenario.answering (lit "{}"))]
                    Scenario.picked)) = JArr l'
    /\ List.length l' = 2%nat.
Proof.
  apply (successive_analyses_fill_history
           (Scenario.answering Scenario.comfort)
           [Scenario.answering (lit "{}")] Scenario.picked []).
  - reflexivity.
  - split; [|split; [|exact I]];
      eexists _, _, _; split; vm_compute; reflexivity.
Defined.

(** X24.  The request that the handler sends for a file whose media
    type has no comma carries that type and the base64 text of the
    content of the file, and asks for the three fields [behavior],
    [explanation] and [tip]. *)
Theorem request_carries_media (env : AnalyzeEnv) (w : World) (st : State)
  (f : File) (r : Request) :
  file st = Some f -> ~ In COMMA (type f) ->
  In r (requests (fst (handleAnalyze env w st))) ->
  ~ In r (requests w) ->
  inline_mimeType r = type f
  /\ inline_data r = Some (base64 (bytes f))
  /\ required r = [lit "behavior"; lit "explanation"; lit "tip"]
  /\ responseMimeType r = lit "application/json".
Proof.
  intros Hf Ht Hin Hnew.
  destruct (handleAnalyze_requests env w st) as [E|(f' & Hf' & E)];
    rewrite E in Hin; [contradiction|].
  assert (f' = f) by congruence. subst f'.
  apply in_app_or in Hin as [Hin|[<-|[]]]; [contradiction|].
  unfold request_for. cbn [request inline_mimeType inline_data required
                           responseMimeType].
  rewrite payload_of_data_url by assumption. auto.
Qed.

Lemma request_carries_media_witness :
  exists r,
    requests (fst (handleAnalyze (Scenario.answering Scenario.comfort)
                     (fst Scenario.picked) (snd Scenario.picked))) = [r]
    /\ inline_data r = Some (lit "/9j/").
Proof.
  exists (request_for Scenario.dog_jpg (snd Scenario.picked)).
  split; [reflexivity|].
  apply (request_carries_media (Scenario.answering Scenario.comfort)
           (fst Scenario.picked) (snd Scenario.picked) Scenario.dog_jpg).
  - reflexivity.
  - vm_compute. intuition discriminate.
  - left. reflexivity.
  - intros H. exact H.
Defined.

End Sequences.

(* ================================================================== *)
(** * Runs with callbacks and renders                                  *)
(* ================================================================== *)

Section Steps.

Lemma play_cons (s : Async.step) (steps : list Async.step)
  (wp : World * Async.Page) :
  Async.play (s :: steps) wp = Async.play steps (Async.perform s wp).
Proof. reflexivity. Qed.


Lemma same_tracks_eq (a b : MediaStream) :
  Async.same_tracks a b = true <-> a = b.
Proof.
  revert b. induction a as [|x a IH]; intros [|y b]; cbn; split;
    try discriminate; try reflexivity.
  - intros H. apply andb_true_iff in H as [H1 H2].
    apply N.eqb_eq in H1. apply IH in H2. congruence.
  - intros [= -> ->]. apply andb_true_iff. split; [apply N.eqb_refl|].
    now apply IH.
Qed.

Lemma same_stream_eq (a b : option MediaStream) :
  Async.same_stream a b = true <-> a = b.
Proof.
  destruct a as [x|], b as [y|]; cbn; split; try discriminate;
    try reflexivity.
  - intros H. apply same_tracks_eq in H. congruence.
  - intros [= ->]. now apply same_tracks_eq.
Qed.

Lemma filter_twice {A} (p : A -> bool) (l : list A) :
  filter p (filter p l) = filter p l.
Proof.
  induction l as [|x l IH]; [reflexivity|]. cbn.
  destruct (p x) eqn:E; [cbn; rewrite E; now f_equal | exact IH].
Qed.

Lemma stop_tracks_twice (ms : MediaStream) (w : World) :
  stop_tracks ms (stop_tracks ms w) = stop_tracks ms w.
Proof. unfold stop_tracks. cbn. now rewrite filter_twice. Qed.

Lemma is_track_of_In (ms : MediaStream) (t : N) :
  is_track_of ms t = true <-> In t ms.
Proof.
  unfold is_track_of. rewrite existsb_exists. split.
  - intros (x & Hin & Heq). apply N.eqb_eq in Heq. now subst.
  - intros H. exists t. split; [assumption | apply N.eqb_refl].
Qed.

Lemma live_after_stop (ms : MediaStream) (w : World) (t : N) :
  In t (live_tracks (stop_tracks ms w)) <-> In t (live_tracks w) /\ ~ In t ms.
Proof.
  unfold stop_tracks. cbn. rewrite filter_In, negb_true_iff.
  split; intros [H1 H2]; (split; [exact H1|]).
  - intros Hin. apply is_track_of_In in Hin. congruence.
  - destruct (is_track_of ms t) eqn:E; [|reflexivity].
    apply is_track_of_In in E. contradiction.
Qed.

Lemma without_split (i : nat) (l : list Async.task) (t : Async.task) :
  nth_error l i = Some t ->
  exists l1 l2, l = l1 ++ t :: l2 /\ Async.without i l = l1 ++ l2.
Proof.
  revert l. induction i as [|i IH]; intros [|x l] H; try discriminate.
  - injection H as ->. exists [], l. split; reflexivity.
  - cbn in H. destruct (IH l H) as (l1 & l2 & -> & Hw).
    exists (x :: l1), l2. split; [reflexivity|].
    unfold Async.without in *. cbn [List.app]. rewrite <- Hw. reflexivity.
Qed.


Lemma render_settled (w : World) (st0 st : State) (ts : list Async.task) :
  stream st = stream st0
  \/ stream st0 = None
  \/ (exists ms w0, stream st0 = Some ms /\ w = stop_tracks ms w0) ->
  Async.render w {| Async.shown := st0; Async.cells := st; Async.tasks := ts |}
  = (w, {| Async.shown := st; Async.cells := st; Async.tasks := ts |}).
Proof.
  intros H. unfold Async.render. cbn [Async.shown Async.cells Async.tasks].
  f_equal.
  destruct (Async.same_stream (stream st0) (stream st)) eqn:E; [reflexivity|].
  destruct H as [H|[H|(ms & w0 & H & ->)]].
  - rewrite H in E.
    assert (Async.same_stream (stream st0) (stream st0) = true)
      by now apply same_stream_eq.
    congruence.
  - now rewrite H.
  - rewrite H. apply stop_tracks_twice.
Qed.

Lemma analyze_in_two (env : AnalyzeEnv) (f : File) (st0 : State)
  (w : World) (st : State) :
  client_ok env = true ->
  analyze env f st0 w st
  = match fileToBase64 (reader_ok env) f with
    | inl e => Thrown e w st
    | inr base64Data =>
        Async.afterResponse env f st0
          (request f base64Data (promptText st0))
          (send (request f base64Data (promptText st0)) w) st
    end.
Proof.
  intros Hc. unfold analyze, Async.afterResponse. rewrite Hc.
  destruct (fileToBase64 (reader_ok env) f); reflexivity.
Qed.

Lemma settle_idle (i : nat) (w : World) (st0 st : State) :
  Async.settle i w
    {| Async.shown := st0; Async.cells := st; Async.tasks := [] |}
  = (w, {| Async.shown := st0; Async.cells := st; Async.tasks := [] |}).
Proof. unfold Async.settle. cbn [Async.tasks]. now destruct i. Qed.

Lemma idle_tail (w : World) (st : State) :
  Async.play [Async.Settle 0; Async.Settle 0; Async.Render] (w, Async.quiet st)
  = (w, Async.quiet st).
Proof.
  unfold Async.play, Async.quiet. cbn [fold_left Async.perform fst snd].
  rewrite settle_idle. cbn [fst snd]. rewrite settle_idle. cbn [fst snd].
  now rewrite render_settled by now left.
Qed.

Lemma stopped_then_rendered (w : World) (st st' : State)
  (ts : list Async.task) :
  stream st' = None ->
  Async.render (fst (handleStopCamera w st))
    {| Async.shown := st; Async.cells := st'; Async.tasks := ts |}
  = (fst (handleStopCamera w st),
     {| Async.shown := st'; Async.cells := st'; Async.tasks := ts |}).
Proof.
  intros H. apply render_settled. unfold handleStopCamera. cbn [fst].
  destruct (stream st) as [ms|]; [right; right; now exists ms, w
                                 | right; now left].
Qed.

End Steps.

(** Evaluate the innermost step of a run, in the equation [H]. *)
Ltac focus_step H :=
  match goal with
  | |- context [Async.perform ?s (?w, ?pg)] =>
      let x := fresh "x" in
      remember (Async.perform s (w, pg)) as x eqn:H;
      cbn [Async.perform fst snd] in H
  end.

(** Unfold the page built by a handler, in [H]. *)
Ltac expose H :=
  unfold Async.with_cells, Async.waiting, Async.quiet in H;
  cbn [Async.shown Async.cells Async.tasks List.app] in H.

Section QuietCase.

(** X25.  An event whose callbacks run before anything else happens
    does what the one-step handler does.  From a rendered page on which
    nothing waits, the event, its callbacks and a render leave the world
    and the cells of [handle], rendered, with nothing waiting.  For an
    analysis the button must be enabled, and a page whose camera flag is
    down must hold no stream. *)
Theorem quiet_event_is_one_step (ev : event) (w : World) (st : State) :
  (is_analysis ev = true -> analyzeDisabled st = false) ->
  (isCameraOn st = false -> stream st = None) ->
  Async.play [Async.User ev; Async.Settle 0; Async.Settle 0; Async.Render]
    (w, Async.quiet st)
  = (fst (handle ev w st), Async.quiet (snd (handle ev w st))).
Proof.
  intros Hbutton Hcam. rewrite play_cons.
  destruct ev as [sel o u | p | env | m | g | | env]; cbn [handle].
  - focus_step H. cbn [Async.user] in H. expose H.
    unfold Async.handleFileChange in H.
    change (Async.handleStopCamera st w st) with (handleStopCamera w st) in H.
    unfold handleFileChange.
    destruct (handleStopCamera w st) as [w1 st1] eqn:Es.
    assert (Hs : stream st1 = None /\ w1 = fst (handleStopCamera w st)).
    { rewrite Es. unfold handleStopCamera in Es. injection Es as _ <-.
      now split. }
    destruct Hs as [Hs ->].
    destruct sel as [f|]; expose H;
      rewrite stopped_then_rendered in H by exact Hs; subst x;
      apply idle_tail.
  - focus_step H. cbn [Async.user] in H. expose H.
    rewrite render_settled in H by now left. subst x. apply idle_tail.
  - specialize (Hbutton eq_refl). focus_step H.
    cbn [Async.user] in H. expose H.
    rewrite Hbutton in H.
    unfold analyzeDisabled in Hbutton.
    apply orb_false_iff in Hbutton as [Hl Hf].
    unfold Async.handleAnalyze in H. unfold handleAnalyze. expose H.
    destruct (file st) as [f|] eqn:Ef; [|discriminate].
    destruct (client_ok env) eqn:Ec.
    + rewrite analyze_in_two by assumption. expose H.
      rewrite render_settled in H by now left. subst x.
      rewrite play_cons. focus_step H. unfold Async.settle in H.
      cbn [Async.tasks nth_error Async.resume Async.cells Async.shown
           Async.without firstn skipn List.app] in H.
      destruct (fileToBase64 (reader_ok env) f) as [e|b].
      * cbn [Async.finish] in H. subst x.
        rewrite play_cons. focus_step H. rewrite settle_idle in H. subst x.
        rewrite play_cons. focus_step H.
        rewrite render_settled in H by now left. now subst x.
      * cbv zeta in H. cbn [List.app] in H. subst x.
        rewrite play_cons. focus_step H. unfold Async.settle in H.
        cbn [Async.tasks nth_error Async.resume Async.cells Async.shown
             Async.without firstn skipn List.app] in H.
        assert (Hst : forall c w2 st2,
                  Async.afterResponse env f st (request f b (promptText st))
                    (send (request f b (promptText st)) w)
                    (setResult JNull (setError None (setLoading true st))) = c ->
                  c = Normal w2 st2 \/ (exists e, c = Thrown e w2 st2) ->
                  stream st2 = stream st).
        { intros c w2 st2 Er Hc. unfold Async.afterResponse in Er.
          destruct (respond env _) as [t|];
            [|subst c; destruct Hc as [Hc|[e Hc]]; [discriminate|];
              injection Hc as _ _ <-; reflexivity].
          destruct (parse_response t);
            [|subst c; destruct Hc as [Hc|[e Hc]]; [discriminate|];
              injection Hc as _ _ <-; reflexivity].
          destruct (iterate (history st));
            [|subst c; destruct Hc as [Hc|[e Hc]]; [discriminate|];
              injection Hc as _ _ <-; reflexivity].
          cbv zeta in Er. destruct (storage_accepts env _); subst c;
            destruct Hc as [Hc|[e Hc]]; try discriminate;
            [injection Hc as _ <- | injection Hc as _ _ <-]; reflexivity. }
        destruct (Async.afterResponse env f st _ _ _) as [w2 st2|e w2 st2]
          eqn:Er; cbn [Async.finish] in H; subst x.
        -- rewrite play_cons. focus_step H.
           rewrite render_settled in H
             by (left; cbn; apply (Hst _ w2 st2 eq_refl); now left).
           now subst x.
        -- rewrite play_cons. focus_step H.
           rewrite render_settled in H
             by (left; cbn; apply (Hst _ w2 st2 eq_refl); right; now exists e).
           now subst x.
    + unfold analyze. rewrite Ec. cbn [Async.finish] in H. expose H.
      rewrite render_settled in H by now left. subst x. apply idle_tail.
  - focus_step H. cbn [Async.user] in H. expose H.
    unfold Async.handleModeChange in H.
    unfold handleModeChange. destruct m.
    + change (Async.handleStopCamera st w (setMode upload st))
        with (fst (handleStopCamera w st),
              snd (handleStopCamera w (setMode upload st))) in H.
      expose H.
      rewrite stopped_then_rendered in H by reflexivity. subst x.
      apply idle_tail.
    + expose H.
      rewrite render_settled in H by now left. subst x. apply idle_tail.
  - focus_step H. cbn [Async.user] in H.
    unfold Async.handleStartCamera in H. unfold handleStartCamera. expose H.
    destruct (isCameraOn st) eqn:Eon.
    + rewrite render_settled in H by now left. subst x. apply idle_tail.
    + rewrite render_settled in H by now left. subst x.
      rewrite play_cons. focus_step H. unfold Async.settle in H.
      cbn [Async.tasks nth_error Async.resume Async.cells Async.shown
           Async.without firstn skipn List.app] in H.
      destruct g as [ms|]; cbn [Async.cameraAnswered] in H; subst x.
      * rewrite play_cons. focus_step H. rewrite settle_idle in H. subst x.
        rewrite play_cons. focus_step H.
        rewrite render_settled in H by (right; left; now apply Hcam).
        now subst x.
      * rewrite play_cons. focus_step H. rewrite settle_idle in H. subst x.
        rewrite play_cons. focus_step H.
        rewrite render_settled in H by now left. now subst x.
  - focus_step H. cbn [Async.user] in H. expose H.
    change (Async.handleStopCamera st w st)
      with (fst (handleStopCamera w st), snd (handleStopCamera w st)) in H.
    expose H.
    rewrite stopped_then_rendered in H by reflexivity. subst x.
    apply idle_tail.
  - focus_step H. cbn [Async.user] in H.
    unfold Async.handleCapturePhoto in H. unfold handleCapturePhoto. expose H.
    change (Async.handleStopCamera st w st)
      with (fst (handleStopCamera w st), snd (handleStopCamera w st)) in H.
    change (handleStopCamera w st)
      with (fst (handleStopCamera w st), snd (handleStopCamera w st)) at 1.
    cbv iota beta in H. cbv iota beta.
    destruct (refs_mounted st && context2d env).
    + expose H.
      rewrite stopped_then_rendered in H by reflexivity. subst x.
      rewrite play_cons. focus_step H. unfold Async.settle in H.
      cbn [Async.tasks nth_error Async.resume Async.cells Async.shown
           Async.without firstn skipn List.app] in H.
      subst x. rewrite play_cons. focus_step H. rewrite settle_idle in H.
      subst x. rewrite play_cons. focus_step H.
      rewrite render_settled in H
        by (left; unfold Async.blobReady; now destruct (blob env)).
      subst x. unfold Async.blobReady. now destruct (blob env).
    + expose H.
      rewrite stopped_then_rendered in H by reflexivity. subst x.
      apply idle_tail.
Qed.


Lemma quiet_event_is_one_step_witness :
  Async.play [Async.User (EAnalyze (Scenario.answering Scenario.comfort));
              Async.Settle 0; Async.Settle 0; Async.Render]
    (fst Scenario.picked, Async.quiet (snd Scenario.picked))
  = (fst (handleAnalyze (Scenario.answering Scenario.comfort)
            (fst Scenario.picked) (snd Scenario.picked)),
     Async.quiet
       (snd (handleAnalyze (Scenario.answering Scenario.comfort)
               (fst Scenario.picked) (snd Scenario.picked)))).
Proof.
  apply (quiet_event_is_one_step
           (EAnalyze (Scenario.answering Scenario.comfort))
           (fst Scenario.picked) (snd Scenario.picked)).
  - intros _. reflexivity.
  - intros _. reflexivity.
Defined.

End QuietCase.

Section SingleFlight.

Lemma flight_cells_frame (pg pg' : Async.Page) :
  Async.pending pg' = Async.pending pg ->
  loading (Async.cells pg') = loading (Async.cells pg) ->
  history (Async.cells pg') = history (Async.cells pg) ->
  Async.flight_cells pg -> Async.flight_cells pg'.
Proof.
  unfold Async.flight_cells, Async.in_flight. fold (Async.pending pg) (Async.pending pg').
  intros -> -> ->. exact (fun H => H).
Qed.

Lemma single_flight_frame (pg pg' : Async.Page) :
  Async.pending pg' = Async.pending pg ->
  loading (Async.cells pg') = loading (Async.cells pg) ->
  history (Async.cells pg') = history (Async.cells pg) ->
  Async.shown pg' = Async.shown pg ->
  Async.single_flight pg -> Async.single_flight pg'.
Proof.
  intros Hp Hl Hh Hs (Hc & H1 & H2). split; [|split].
  - now apply (flight_cells_frame pg).
  - unfold Async.in_flight in *. fold (Async.pending pg) (Async.pending pg') in *.
    now rewrite Hp, Hs.
  - now rewrite Hs, Hh.
Qed.

Lemma flight_render (w : World) (pg : Async.Page) :
  Async.flight_cells pg -> Async.single_flight (snd (Async.render w pg)).
Proof.
  intros H. pose proof H as (Ha & Hb & He). split; [|split].
  - exact H.
  - cbn. intros Hn. now apply Hb.
  - reflexivity.
Qed.

Lemma loading_after_finish (c : completion) :
  loading (snd (Async.finish c)) = false.
Proof. now destruct c. Qed.

Lemma closure_analysis (t : Async.task) (st0 : State) :
  Async.closure t = Some st0 -> Async.analysis_task t = true.
Proof. destruct t; cbn; congruence. Qed.

Lemma user_flight (ev : event) (w : World) (pg : Async.Page) :
  Async.single_flight pg -> Async.flight_cells (snd (Async.user ev w pg)).
Proof.
  intros (Hc & H1 & H2). pose proof Hc as (Ha & Hb & He).
  destruct ev as [sel o u | p | env | m | g | | env]; cbn [Async.user].
  - unfold Async.handleFileChange, Async.handleStopCamera.
    destruct sel; apply (flight_cells_frame pg); auto.
  - now apply (flight_cells_frame pg).
  - destruct (analyzeDisabled (Async.shown pg)) eqn:Ed; [exact Hc|].
    assert (Hn : Async.in_flight pg = 0%nat).
    { apply orb_false_iff in Ed as [Hl _].
      destruct (Async.in_flight pg) as [|[|n]]; [reflexivity| |lia].
      rewrite H1 in Hl by reflexivity. discriminate. }
    assert (Hp : Async.pending pg = []).
    { unfold Async.in_flight in Hn. now apply length_zero_iff_nil in Hn. }
    unfold Async.handleAnalyze.
    destruct (file (Async.shown pg)) as [f|].
    + destruct (client_ok env).
      * unfold Async.flight_cells, Async.in_flight, Async.pending, Async.waiting.
        cbn [Async.tasks Async.cells snd]. rewrite filter_app.
        fold (Async.pending pg). rewrite Hp. cbn. repeat split; auto.
        intros t st0 [<-|[]] [= <-]. now apply H2.
      * unfold Async.flight_cells, Async.in_flight, Async.pending, Async.with_cells.
        cbn [Async.finish Async.tasks Async.cells snd].
        fold (Async.pending pg). rewrite Hp. cbn. repeat split; try discriminate.
        -- auto.
        -- contradiction.
    + now apply (flight_cells_frame pg).
  - unfold Async.handleModeChange, Async.handleStopCamera.
    destruct m; now apply (flight_cells_frame pg).
  - unfold Async.handleStartCamera.
    destruct (isCameraOn (Async.shown pg)); [exact Hc|].
    apply (flight_cells_frame pg); auto.
    unfold Async.pending, Async.waiting. cbn [Async.tasks snd].
    rewrite filter_app. cbn. apply app_nil_r.
  - now apply (flight_cells_frame pg).
  - unfold Async.handleCapturePhoto, Async.handleStopCamera.
    destruct (refs_mounted (Async.shown pg) && context2d env);
      apply (flight_cells_frame pg); auto.
    unfold Async.pending, Async.waiting. cbn [Async.tasks snd].
    rewrite filter_app. cbn. apply app_nil_r.
Qed.

Lemma settle_flight (i : nat) (w : World) (pg : Async.Page) :
  Async.single_flight pg -> Async.single_flight (snd (Async.settle i w pg)).
Proof.
  intros Hsf. pose proof Hsf as (Hc & H1 & H2).
  pose proof Hc as (Ha & Hb & He).
  unfold Async.settle.
  destruct (nth_error (Async.tasks pg) i) as [t|] eqn:En; [|exact Hsf].
  destruct (without_split i _ t En) as (l1 & l2 & Hl & Hw).
  assert (Hp : Async.pending pg
               = filter Async.analysis_task l1
                   ++ (if Async.analysis_task t then [t] else [])
                   ++ filter Async.analysis_task l2).
  { unfold Async.pending. rewrite Hl, filter_app. cbn.
    now destruct (Async.analysis_task t). }
  assert (Hrest : Async.analysis_task t = true ->
                  filter Async.analysis_task (l1 ++ l2) = []
                  /\ Async.in_flight pg = 1%nat).
  { intros Ht. unfold Async.in_flight in *. fold (Async.pending pg) in *.
    rewrite Hp, Ht in Ha |- *. rewrite !length_app in Ha |- *.
    cbn in Ha |- *. rewrite filter_app.
    destruct (filter Async.analysis_task l1); [|cbn in Ha; lia].
    destruct (filter Async.analysis_task l2); [|cbn in Ha; lia].
    now split. }
  assert (Hdone : forall st',
            Async.analysis_task t = true -> loading st' = false ->
            Async.single_flight {| Async.shown := Async.shown pg;
                             Async.cells := st';
                             Async.tasks := Async.without i (Async.tasks pg)
                                              ++ [] |}).
  { intros st' Ht Hl'. destruct (Hrest Ht) as [Hr Hn].
    unfold Async.single_flight, Async.flight_cells, Async.in_flight, Async.pending.
    cbn [Async.tasks Async.cells Async.shown].
    rewrite Hw, app_nil_r, Hr. cbn.
    repeat split; try discriminate; try contradiction; try lia.
    - congruence.
    - intros Hd. apply orb_false_iff in Hd as [Hd _].
      rewrite H1 in Hd by exact Hn. discriminate. }
  assert (Hother : forall st',
            Async.analysis_task t = false ->
            loading st' = loading (Async.cells pg) ->
            history st' = history (Async.cells pg) ->
            Async.single_flight {| Async.shown := Async.shown pg;
                             Async.cells := st';
                             Async.tasks := Async.without i (Async.tasks pg)
                                              ++ [] |}).
  { intros st' Ht Hl' Hh'. apply (single_flight_frame pg); auto.
    unfold Async.pending at 1. cbn [Async.tasks].
    rewrite Hw, app_nil_r, filter_app, Hp, Ht. reflexivity. }
  destruct t as [env st0 f | env st0 f req | g | env];
    cbn [Async.resume].
  - destruct (fileToBase64 (reader_ok env) f) as [e|b].
    + cbn [Async.finish]. now apply Hdone.
    + cbv zeta. destruct (Hrest eq_refl) as [Hr Hn].
      unfold Async.single_flight, Async.flight_cells, Async.in_flight, Async.pending.
      cbn [Async.tasks Async.cells Async.shown snd].
      rewrite Hw, filter_app, Hr. cbn.
      repeat split; auto.
      * intros _. now apply Hb.
      * intros t st1 [<-|[]] [= <-].
        apply (He (Async.ReadingFile env st0 f)); [|reflexivity].
        rewrite Hp. apply in_or_app. right. now left.
  - destruct (Async.finish _) as [w' st'] eqn:Ef.
    apply Hdone; [reflexivity|].
    change st' with (snd (w', st')). rewrite <- Ef.
    apply loading_after_finish.
  - unfold Async.cameraAnswered. destruct g; now apply Hother.
  - unfold Async.blobReady. destruct (blob env); now apply Hother.
Qed.

Lemma perform_flight (s : Async.step) (wp : World * Async.Page) :
  Async.single_flight (snd wp) -> Async.single_flight (snd (Async.perform s wp)).
Proof.
  intros H. destruct s as [ev|i|]; cbn [Async.perform].
  - destruct (Async.user ev (fst wp) (snd wp)) as [w' pg'] eqn:E.
    apply flight_render. change pg' with (snd (w', pg')). rewrite <- E.
    now apply user_flight.
  - now apply settle_flight.
  - apply flight_render. apply H.
Qed.

Lemma boot_flight (readable : bool) (w : World) :
  Async.single_flight (snd (Async.boot readable w)).
Proof.
  unfold Async.boot.
  assert (E : loading (snd (startup readable w)) = false).
  { unfold startup, loadHistory. destruct readable; [|reflexivity].
    destruct (getItem HISTORY_KEY w) as [[|c r]|]; try reflexivity.
    destruct (JSON_parse (c :: r)); reflexivity. }
  destruct (startup readable w) as [w' st]. cbn [snd] in *.
  unfold Async.single_flight, Async.flight_cells, Async.in_flight, Async.pending. cbn.
  rewrite E. repeat split; try discriminate; try contradiction; lia.
Qed.

Lemma play_flight (steps : list Async.step) (wp : World * Async.Page) :
  Async.single_flight (snd wp) -> Async.single_flight (snd (Async.play steps wp)).
Proof.
  revert wp. induction steps as [|s steps IH]; intros wp H; [exact H|].
  rewrite play_cons. apply IH. now apply perform_flight.
Qed.

(** X10.  At most one analysis waits at any time, and the loading flag
    follows it: in every run the flag is up exactly while an analysis
    waits for the reader or for the endpoint, whatever else is handled
    in between.  While one waits, the analyze button is disabled in the
    page as it is shown, so no second analysis starts.  When nothing
    waits the flag is down; the flag stays up for as long as the
    waiting handler does not go on. *)
Theorem loading_tracks_the_pending_analysis (steps : list Async.step)
  (readable : bool) (w : World) :
  (Async.in_flight (snd (Async.play steps (Async.boot readable w))) <= 1)%nat
  /\ (loading (Async.cells (snd (Async.play steps (Async.boot readable w))))
      = true
      <-> Async.in_flight (snd (Async.play steps (Async.boot readable w)))
          = 1%nat)
  /\ (Async.in_flight (snd (Async.play steps (Async.boot readable w)))
      = 1%nat ->
      analyzeDisabled
        (Async.shown (snd (Async.play steps (Async.boot readable w)))) = true)
  /\ (Async.tasks (snd (Async.play steps (Async.boot readable w))) = [] ->
      loading (Async.cells (snd (Async.play steps (Async.boot readable w))))
      = false).
Proof.
  destruct (play_flight steps _ (boot_flight readable w))
    as ((Ha & Hb & He) & H1 & H2).
  split; [exact Ha|]. split; [exact Hb|]. split.
  - intros Hn. unfold analyzeDisabled. now rewrite H1.
  - intros Ht. apply not_true_is_false. intros El.
    apply Hb in El. unfold Async.in_flight in El. rewrite Ht in El.
    discriminate.
Qed.

(** X27.  An analysis that waits holds the history of the page as it
    is now: between the click and the answer no other handler changes
    the history and no second analysis starts, so the list in front of
    which the answer will be put is the current one, and no entry is
    lost. *)
Theorem pending_analysis_reads_current_history (steps : list Async.step)
  (readable : bool) (w : World) (t : Async.task) (st0 : State) :
  In t (Async.tasks (snd (Async.play steps (Async.boot readable w)))) ->
  Async.closure t = Some st0 ->
  history st0
  = history (Async.cells (snd (Async.play steps (Async.boot readable w)))).
Proof.
  intros Hin Hcl.
  destruct (play_flight steps _ (boot_flight readable w))
    as ((Ha & Hb & He) & H1 & H2).
  apply (He t); [|exact Hcl].
  apply filter_In. split; [exact Hin | now apply (closure_analysis t st0)].
Qed.


Lemma pending_analysis_reads_current_history_witness :
  exists st0 l,
    nth_error (Async.tasks (snd (Async.play Scenario.changed_while_waiting
                                   (Async.boot true
                                      (Scenario.world_with Scenario.eleven)))))
      0
    = Some (Async.ReadingFile (Scenario.answering Scenario.comfort) st0
              Scenario.dog_jpg)
    /\ history st0 = JArr l /\ List.length l = 11%nat
    /\ history st0
       = history (Async.cells
                    (snd (Async.play Scenario.changed_while_waiting
                            (Async.boot true
                               (Scenario.world_with Scenario.eleven)))))
    /\ file st0 = Some Scenario.dog_jpg
    /\ file (Async.cells
               (snd (Async.play Scenario.changed_while_waiting
                       (Async.boot true
                          (Scenario.world_with Scenario.eleven)))))
       = Some Scenario.report_pdf.
Proof.
  destruct (nth_error
              (Async.tasks
                 (snd (Async.play Scenario.changed_while_waiting
                         (Async.boot true
                            (Scenario.world_with Scenario.eleven))))) 0)
    as [[env st0 f | env st0 f req | g | env]|] eqn:E;
    try (vm_compute in E; discriminate).
  pose proof (pending_analysis_reads_current_history
                Scenario.changed_while_waiting true
                (Scenario.world_with Scenario.eleven)
                (Async.ReadingFile env st0 f) st0
                (nth_error_In _ 0 E) eq_refl) as Hh.
  vm_compute in E. injection E as <- <- <-.
  eexists _, _. split; [reflexivity|].
  split; [reflexivity|]. split; [reflexivity|].
  split; [exact Hh|]. split; reflexivity.
Defined.

End SingleFlight.

Section CameraRuns.

Lemma finished_camera (env : AnalyzeEnv) (f : File) (st0 : State)
  (req : Request) (w : World) (st : State) :
  stream (snd (Async.finish (Async.afterResponse env f st0 req w st)))
  = stream st
  /\ isCameraOn (snd (Async.finish (Async.afterResponse env f st0 req w st)))
     = isCameraOn st
  /\ live_tracks (fst (Async.finish (Async.afterResponse env f st0 req w st)))
     = live_tracks w.
Proof.
  unfold Async.afterResponse.
  destruct (respond env req) as [t|]; [|cbn; auto].
  destruct (parse_response t); [|cbn; auto].
  destruct (iterate (history st0)); [|cbn; auto].
  cbv zeta. destruct (storage_accepts env _); cbn; auto.
Qed.

Lemma held_frame (w w' : World) (pg pg' : Async.Page) :
  live_tracks w' = live_tracks w ->
  stream (Async.cells pg') = stream (Async.cells pg) ->
  isCameraOn (Async.cells pg') = isCameraOn (Async.cells pg) ->
  Async.held (w, pg) -> Async.held (w', pg').
Proof.
  unfold Async.held. cbn [fst snd]. intros -> -> ->. exact (fun H => H).
Qed.

Lemma render_held (w : World) (pg : Async.Page) :
  Async.held (w, pg) ->
  Async.held (Async.render w pg) /\ Async.camera_rendered (snd (Async.render w pg)).
Proof.
  intros [Hon Hlive]. split; [|split; reflexivity].
  unfold Async.render. split; cbn [fst snd Async.cells] in *; [exact Hon|].
  intros t Hin. apply Hlive.
  destruct (Async.same_stream _ _); [exact Hin|].
  destruct (stream (Async.shown pg)); [|exact Hin].
  now apply live_after_stop in Hin.
Qed.

Lemma stop_held (w : World) (pg : Async.Page) (st : State) :
  Async.held (w, pg) -> Async.camera_rendered pg ->
  stream st = None -> isCameraOn st = false ->
  forall ts,
    Async.held (fst (Async.handleStopCamera (Async.shown pg) w (Async.cells pg)),
          {| Async.shown := Async.shown pg; Async.cells := st;
             Async.tasks := ts |}).
Proof.
  intros [Hon Hlive] [Hs Hc] Hst Hoff ts. unfold Async.handleStopCamera.
  split; cbn [fst snd Async.cells] in *.
  - rewrite Hst, Hoff. split; [discriminate | congruence].
  - intros t Hin. exfalso. rewrite Hs in Hin.
    destruct (stream (Async.cells pg)) as [ms|] eqn:E.
    + apply live_after_stop in Hin as [Hin Hn].
      destruct (Hlive t Hin) as (ms' & [= <-] & Hin'). contradiction.
    + destruct (Hlive t Hin) as (ms' & Hms & _). discriminate.
Qed.

Lemma user_held (ev : event) (w : World) (pg : Async.Page) :
  Async.held (w, pg) -> Async.camera_rendered pg -> Async.held (Async.user ev w pg).
Proof.
  intros Hh Hr.
  destruct ev as [sel o u | p | env | m | g | | env]; cbn [Async.user].
  - unfold Async.handleFileChange.
    pose proof (fun st Hs Ho => stop_held w pg st Hh Hr Hs Ho (Async.tasks pg))
      as Hstop.
    destruct (Async.handleStopCamera _ w _) as [w1 st1] eqn:E.
    cbn [fst] in Hstop.
    assert (stream st1 = None /\ isCameraOn st1 = false) as [H1 H2].
    { unfold Async.handleStopCamera in E. injection E as _ <-. now split. }
    destruct sel; now apply Hstop.
  - now apply (held_frame w w pg).
  - destruct (analyzeDisabled (Async.shown pg)); [exact Hh|].
    unfold Async.handleAnalyze.
    destruct (file (Async.shown pg)); [|now apply (held_frame w w pg)].
    destruct (client_ok env); now apply (held_frame w _ pg).
  - unfold Async.handleModeChange. destruct m.
    + pose proof (stop_held w pg
                    (snd (Async.handleStopCamera (Async.shown pg) w
                            (setMode upload (Async.cells pg))))
                    Hh Hr eq_refl eq_refl (Async.tasks pg)) as Hstop.
      exact Hstop.
    + now apply (held_frame w w pg).
  - unfold Async.handleStartCamera.
    destruct (isCameraOn (Async.shown pg)); [exact Hh|].
    now apply (held_frame w w pg).
  - exact (stop_held w pg
             (snd (Async.handleStopCamera (Async.shown pg) w (Async.cells pg)))
             Hh Hr eq_refl eq_refl (Async.tasks pg)).
  - unfold Async.handleCapturePhoto.
    pose proof (fun st Hs Ho ts => stop_held w pg st Hh Hr Hs Ho ts) as Hstop.
    destruct (Async.handleStopCamera _ w _) as [w1 st1] eqn:E.
    cbn [fst] in Hstop.
    assert (stream st1 = None /\ isCameraOn st1 = false) as [H1 H2].
    { unfold Async.handleStopCamera in E. injection E as _ <-. now split. }
    destruct (refs_mounted _ && context2d env); now apply Hstop.
Qed.

Lemma settle_render_held (i : nat) (w : World) (pg : Async.Page) :
  Async.held (w, pg) -> Async.camera_rendered pg ->
  Async.held (Async.render (fst (Async.settle i w pg)) (snd (Async.settle i w pg))).
Proof.
  intros Hh Hr. unfold Async.settle.
  destruct (nth_error (Async.tasks pg) i) as [t|]; [|now apply render_held].
  destruct t as [env st0 f | env st0 f req | g | env]; cbn [Async.resume].
  - destruct (fileToBase64 (reader_ok env) f) as [e|b];
      apply render_held; now apply (held_frame w _ pg).
  - destruct (finished_camera env f st0 req w (Async.cells pg))
      as (H1 & H2 & H3).
    destruct (Async.finish _) as [w' st']. cbn [fst snd] in *.
    apply render_held. now apply (held_frame w _ pg).
  - destruct g as [ms|]; cbn [Async.cameraAnswered fst snd].
    + destruct Hh as [Hon Hlive], Hr as [Hs Hc]. cbn [fst snd] in *.
      unfold Async.render. cbn [Async.shown Async.cells Async.tasks].
      split; cbn [fst snd Async.cells stream isCameraOn setError setIsCameraOn
                  setStream].
      * split; [discriminate | reflexivity].
      * intros t Hin. exists ms. split; [reflexivity|].
        assert (Hcase : In t ms
                        \/ In t (live_tracks w)
                           /\ stream (Async.shown pg) <> Some ms).
        { destruct (Async.same_stream (stream (Async.shown pg)) (Some ms))
            eqn:Es.
          - cbn in Hin. apply in_app_or in Hin as [Hin|Hin]; [now left|].
            apply same_stream_eq in Es.
            destruct (Hlive t Hin) as (ms' & Hms & Hin').
            left. congruence.
          - destruct (stream (Async.shown pg)) as [s1|] eqn:E1.
            + apply live_after_stop in Hin as [Hin Hn]. cbn in Hin.
              apply in_app_or in Hin as [Hin|Hin]; [now left|].
              destruct (Hlive t Hin) as (ms' & Hms & Hin').
              exfalso. apply Hn. congruence.
            + cbn in Hin. apply in_app_or in Hin as [Hin|Hin]; [now left|].
              destruct (Hlive t Hin) as (ms' & Hms & _). congruence. }
        destruct Hcase as [Hc'|[Hl Hne]]; [exact Hc'|].
        destruct (Async.same_stream (stream (Async.shown pg)) (Some ms))
          eqn:Es.
        -- apply same_stream_eq in Es. contradiction.
        -- destruct (stream (Async.shown pg)) as [s1|] eqn:E1.
           ++ apply live_after_stop in Hin as [Hin Hn]. cbn in Hin.
              apply in_app_or in Hin as [Hin|Hin]; [exact Hin|].
              destruct (Hlive t Hin) as (ms' & Hms & Hin').
              exfalso. apply Hn. congruence.
           ++ destruct (Hlive t Hl) as (ms' & Hms & _). congruence.
    + apply render_held. now apply (held_frame w _ pg).
  - apply render_held. apply (held_frame w w pg); auto;
      unfold Async.blobReady; now destruct (blob env).
Qed.

Lemma promptly_cons (s : Async.step) (steps : list Async.step)
  (wp : World * Async.Page) :
  Async.play (Async.promptly (s :: steps)) wp
  = Async.play (Async.promptly steps)
      (Async.perform Async.Render (Async.perform s wp)).
Proof. reflexivity. Qed.

Lemma prompt_step_held (s : Async.step) (wp : World * Async.Page) :
  Async.held wp -> Async.camera_rendered (snd wp) ->
  Async.held (Async.perform Async.Render (Async.perform s wp))
  /\ Async.camera_rendered (snd (Async.perform Async.Render (Async.perform s wp))).
Proof.
  intros Hh Hr. destruct wp as [w pg]. cbn [snd] in Hr.
  destruct s as [ev|i|]; cbn [Async.perform fst snd].
  - pose proof (user_held ev w pg Hh Hr) as Hu.
    destruct (Async.user ev w pg) as [w' pg'].
    destruct (render_held w' pg' Hu) as [H1 _].
    destruct (Async.render w' pg') as [w2 pg2]. now apply render_held.
  - split; [now apply settle_render_held | split; reflexivity].
  - destruct (render_held w pg Hh) as [H1 _].
    destruct (Async.render w pg) as [w2 pg2]. now apply render_held.
Qed.


Lemma boot_shape (readable : bool) (w : World) :
  exists w' st,
    Async.boot readable w
    = (w', {| Async.shown := initial_state; Async.cells := st;
              Async.tasks := [] |})
    /\ stream st = None /\ isCameraOn st = false
    /\ live_tracks w' = live_tracks w.
Proof.
  unfold Async.boot, startup, loadHistory.
  destruct readable;
    [|do 2 eexists; split; [reflexivity|]; repeat split].
  destruct (getItem HISTORY_KEY w) as [[|c r]|];
    try (do 2 eexists; split; [reflexivity|]; repeat split).
  destruct (JSON_parse (c :: r));
    do 2 eexists; (split; [reflexivity|]); repeat split.
Qed.

(** X13.  When the page is rendered after every step, no path leaves
    the camera running behind the component: in every such run that
    starts with no live track, the camera flag is up exactly when a
    stream is held, every live track belongs to the stream held, and no
    track is live when none is held.  This covers a second click on the
    start button before the first request is answered: the second
    stream replaces the first, and the effect stops the tracks of the
    first at the next render. *)
Theorem camera_released_when_rendered (steps : list Async.step)
  (readable : bool) (w : World) :
  live_tracks w = [] ->
  (isCameraOn
     (Async.cells
        (snd (Async.play (Async.promptly steps) (Async.boot readable w))))
   = true
   <-> stream
         (Async.cells
            (snd (Async.play (Async.promptly steps) (Async.boot readable w))))
       <> None)
  /\ (forall t ms,
        stream
          (Async.cells
             (snd (Async.play (Async.promptly steps) (Async.boot readable w))))
        = Some ms ->
        In t (live_tracks
                (fst (Async.play (Async.promptly steps)
                        (Async.boot readable w)))) ->
        In t ms)
  /\ (stream
        (Async.cells
           (snd (Async.play (Async.promptly steps) (Async.boot readable w))))
      = None ->
      live_tracks
        (fst (Async.play (Async.promptly steps) (Async.boot readable w)))
      = []).
Proof.
  intros Hw.
  assert (H : forall steps wp,
            Async.held wp -> Async.camera_rendered (snd wp) ->
            Async.held (Async.play (Async.promptly steps) wp)).
  { clear steps. induction steps as [|s steps IH]; intros wp Hh Hr;
      [exact Hh|].
    rewrite promptly_cons.
    destruct (prompt_step_held s wp Hh Hr) as [Hh' Hr']. now apply IH. }
  destruct (H steps (Async.boot readable w)) as [Hon Hlive].
  { destruct (boot_shape readable w) as (w' & st & -> & Hs & Hc & Hl).
    split; cbn [fst snd Async.cells].
    - rewrite Hs, Hc. split; [discriminate | congruence].
    - rewrite Hl, Hw. contradiction. }
  { destruct (boot_shape readable w) as (w' & st & -> & Hs & Hc & Hl).
    split; cbn [snd Async.shown Async.cells]; now rewrite ?Hs, ?Hc. }
  split; [exact Hon|]. split.
  - intros t ms Hs Hin. destruct (Hlive t Hin) as (ms' & Hms & Hin').
    congruence.
  - intros Hs.
    destruct (live_tracks
                (fst (Async.play (Async.promptly steps)
                        (Async.boot readable w)))) as [|t l];
      [reflexivity|].
    destruct (Hlive t (or_introl eq_refl)) as (ms & Hms & _). congruence.
Qed.

Lemma camera_released_when_rendered_witness :
  stream (Async.cells
            (snd (Async.play (Async.promptly Scenario.double_start)
                    (Async.boot true Scenario.fresh_world)))) = Some [8]
  /\ ~ In 7 (live_tracks
               (fst (Async.play (Async.promptly Scenario.double_start)
                       (Async.boot true Scenario.fresh_world)))).
Proof.
  split; [reflexivity|]. intros Hin.
  destruct (camera_released_when_rendered Scenario.double_start true
              Scenario.fresh_world eq_refl) as (_ & Hlive & _).
  destruct (Hlive 7 [8] eq_refl Hin) as [H|[]]. discriminate.
Defined.

End CameraRuns.

Section Race.












End Race.
